(** * AI-powered command terminal: capability scanner, registry cache,
      semantic-index adapter and execution gateway

    A shallow embedding of [src/agent/dynamic_tools.py],
    [src/agent/agent_core.py] and the direct command path of
    [src/main.py], followed by the properties of the specification that
    are about them.

    Conventions of the embedding.
    - A Python [str] is a [string]; every character stands for the code
      point of the same number (0..255), so the text operations below are
      the Python ones on Latin-1 text.
    - A Python exception is a value of [exn]; code that can raise returns a
      [result].  Interrupts that are not subclasses of [Exception]
      ([KeyboardInterrupt], [SystemExit]) are outside the model.
    - What the host decides (the outcome of a child process, the lines of
      the console, the file system, the random source, the vector backend,
      the pickle codec) is an explicit argument of the embedded function.
    - The console is part of the host.  [print] writes nothing that the
      program reads back, but it can raise (a console that cannot encode
      the text, a closed stream): what [print(text)] raises is asked of the
      host, and so is what [input] does.  The characters of a console
      message that lie beyond Latin-1 stand as their UTF-8 bytes; no
      operation of the program inspects them.  The scanner of commands is
      embedded without its progress messages: its properties are about the
      tools it returns. *)

From Stdlib Require Import ZArith NArith String Ascii List Lia Permutation.
From stdpp Require Import base gmap strings list sorting pretty.

Local Open Scope string_scope.

(** ** Python text operations *)

Module PyText.

Definition nl : string := String "010"%char EmptyString.

(** [str.isspace] on one character: TAB..CR, FS..US, SPACE, NEL, NBSP. *)
Definition isspace (c : ascii) : bool :=
  let n := N_of_ascii c in
  ((9 <=? n) && (n <=? 13) || (28 <=? n) && (n <=? 32)
   || (n =? 133) || (n =? 160))%N.

(** [str.lower] on one character: A..Z, and the Latin-1 capitals
    U+00C0..U+00DE without the multiplication sign U+00D7. *)
Definition lower_char (c : ascii) : ascii :=
  let n := N_of_ascii c in
  if ((65 <=? n) && (n <=? 90)
      || (192 <=? n) && (n <=? 222) && negb (n =? 215))%N
  then ascii_of_N (n + 32) else c.

Fixpoint lower (s : string) : string :=
  match s with
  | EmptyString => EmptyString
  | String c r => String (lower_char c) (lower r)
  end.

Fixpoint lstrip (s : string) : string :=
  match s with
  | EmptyString => EmptyString
  | String c r => if isspace c then lstrip r else s
  end.

Fixpoint rstrip (s : string) : string :=
  match s with
  | EmptyString => EmptyString
  | String c r =>
      match rstrip r with
      | EmptyString => if isspace c then EmptyString else String c EmptyString
      | r' => String c r'
      end
  end.

(** [s.strip()] *)
Definition strip (s : string) : string := rstrip (lstrip s).

(** [s.startswith(p)] *)
Definition startswith (s p : string) : bool := String.prefix p s.

(** truth value of a string: [bool(s)] *)
Definition truthy (s : string) : bool :=
  match s with EmptyString => false | _ => true end.

(** [s.split()]: the maximal runs of characters that are not white space *)
Fixpoint split (s : string) : list string :=
  match s with
  | EmptyString => []
  | String c r =>
      if isspace c then split r
      else match r with
           | EmptyString => [String c EmptyString]
           | String c' _ =>
               if isspace c' then String c EmptyString :: split r
               else match split r with
                    | w :: ws => String c w :: ws
                    | [] => [String c EmptyString]
                    end
           end
  end.

(** [p in s] for strings: [p] occurs in [s] *)
Fixpoint contains (p s : string) : bool :=
  String.prefix p s
  || match s with
     | EmptyString => false
     | String _ r => contains p r
     end.

(** [s[:n]] for [n >= 0] *)
Fixpoint take_chars (n : nat) (s : string) : string :=
  match n, s with
  | O, _ => EmptyString
  | S _, EmptyString => EmptyString
  | S n', String c r => String c (take_chars n' r)
  end.

(** [len(s)] *)
Definition len (s : string) : Z := Z.of_nat (String.length s).

(** [s * n] *)
Fixpoint times (s : string) (n : nat) : string :=
  match n with
  | O => EmptyString
  | S n' => s ++ times s n'
  end.

(** [sep.join(words)] *)
Fixpoint join (sep : string) (words : list string) : string :=
  match words with
  | [] => EmptyString
  | [w] => w
  | w :: rest => w ++ sep ++ join sep rest
  end.

End PyText.

(** ** Exceptions and results *)

Module Py.

(** The exception classes the embedded code can meet.  All of them are
    subclasses of [Exception]. *)
Inductive exn_class :=
| EOFError
| OSError
| FileNotFoundError      (* subclass of OSError *)
| TimeoutExpired         (* subprocess.TimeoutExpired *)
| PickleError
| UnpicklingError        (* subclass of PickleError *)
| PicklingError          (* subclass of PickleError *)
| ValueError
| UnicodeEncodeError     (* subclass of ValueError *)
| AttributeError
| ImportError
| IndexError
| KeyError
| TypeError
| RuntimeError.

Record exn := Exn { exn_cls : exn_class; exn_str : string }.

Definition class_eqb (a b : exn_class) : bool :=
  match a, b with
  | EOFError, EOFError | OSError, OSError
  | FileNotFoundError, FileNotFoundError | TimeoutExpired, TimeoutExpired
  | PickleError, PickleError | UnpicklingError, UnpicklingError
  | PicklingError, PicklingError | ValueError, ValueError
  | UnicodeEncodeError, UnicodeEncodeError
  | AttributeError, AttributeError | ImportError, ImportError
  | IndexError, IndexError | KeyError, KeyError | TypeError, TypeError
  | RuntimeError, RuntimeError => true
  | _, _ => false
  end.

(** [issubclass c h] *)
Definition subclass (c h : exn_class) : bool :=
  class_eqb c h
  || match c, h with
     | FileNotFoundError, OSError => true
     | UnpicklingError, PickleError => true
     | PicklingError, PickleError => true
     | UnicodeEncodeError, ValueError => true
     | _, _ => false
     end.

(** [except (h1, h2, ...)] catches [e] *)
Definition caught_by (hs : list exn_class) (e : exn) : bool :=
  existsb (subclass (exn_cls e)) hs.

Inductive result (A : Type) :=
| Ok (a : A)
| Raise (e : exn).
Arguments Ok {A} a.
Arguments Raise {A} e.

(** Computations over a state [S] that may raise: the state is threaded
    through, also past a raised exception. *)
Definition Eff (S A : Type) : Type := S -> result A * S.

Definition ret {S A} (a : A) : Eff S A := fun h => (Ok a, h).
Definition raise {S A} (e : exn) : Eff S A := fun h => (Raise e, h).
Definition bind {S A B} (m : Eff S A) (k : A -> Eff S B) : Eff S B :=
  fun h => match m h with
           | (Ok a, h') => k a h'
           | (Raise e, h') => (Raise e, h')
           end.

(** [try: m  except ...: handler e]; [handler] answers [None] for an
    exception that no clause catches, which then propagates. *)
Definition try_except {S A} (m : Eff S A) (handler : exn -> option (Eff S A))
  : Eff S A :=
  fun h => match m h with
           | (Ok a, h') => (Ok a, h')
           | (Raise e, h') =>
               match handler e with
               | Some k => k h'
               | None => (Raise e, h')
               end
           end.

(** [try: m  except (hs): pass] *)
Definition try_pass {S} (hs : list exn_class) (m : Eff S unit) : Eff S unit :=
  try_except m (fun e => if caught_by hs e then Some (ret tt) else None).

(** What [subprocess.run(..., capture_output=True, text=True)] returns. *)
Record CompletedProcess := Completed {
  returncode : Z;
  stdout : string;
  stderr : string
}.

(** The same for code that raises but has no state. *)
Definition rbind {A B} (r : result A) (k : A -> result B) : result B :=
  match r with
  | Ok a => k a
  | Raise e => Raise e
  end.

Definition rtry {A} (r : result A) (handler : exn -> option (result A))
  : result A :=
  match r with
  | Ok a => Ok a
  | Raise e =>
      match handler e with
      | Some k => k
      | None => Raise e
      end
  end.

(** [print(text)] on a console where writing [text] raises what
    [stdout_fault text] names, if anything. *)
Definition write (stdout_fault : string -> option exn) (text : string)
  : result unit :=
  match stdout_fault text with
  | Some e => Raise e
  | None => Ok tt
  end.

Definition print {S} (stdout_fault : string -> option exn) (text : string)
  : Eff S unit :=
  fun h => (write stdout_fault text, h).

(** A console on which every [print] succeeds. *)
Definition accepts_all (stdout_fault : string -> option exn) : Prop :=
  forall text, stdout_fault text = None.

End Py.
Export Py.

Notation "'let!' x ':=' m 'in' k" := (bind m (fun x => k))
  (at level 10, x name, m at level 100, k at level 200,
   format "'[v' 'let!'  x  ':='  m  'in' '/' k ']'").
Notation "'do!' m 'in' k" := (bind m (fun _ => k))
  (at level 10, m at level 100, k at level 200,
   format "'[v' 'do!'  m  'in' '/' k ']'").
Notation "'let?' x ':=' m 'in' k" := (rbind m (fun x => k))
  (at level 10, x name, m at level 100, k at level 200,
   format "'[v' 'let?'  x  ':='  m  'in' '/' k ']'").

(** ** The execution gateway ([dynamic_tools.py]) *)

Module Gateway.
Import PyText.

Definition DANGEROUS_COMMANDS : gset string :=
  {[ "rm"; "del"; "erase"; "format"; "mkfs"; "dd"; "mv"; "move"; "rd";
     "rmdir"; "remove-item"; "clear-disk" ]}.

(** The console and the process table the gateway acts on: the lines
    still to be read from standard input; the exception that reading
    raises when standard input is closed or lost, if it is; what
    [print(text)] raises on standard output, if anything; and the
    argument vectors of the child processes started so far (oldest
    first). *)
Record Host := MkHost {
  stdin : list string;
  stdin_fault : option exn;
  stdout_fault : string -> option exn;
  spawned : list (list string)
}.

(** Computations that use the console, start processes and may raise. *)
Definition M (A : Type) : Type := Eff Host A.

(** [print(text)] *)
Definition say (text : string) : M unit :=
  fun h => print (stdout_fault h) text h.

(** Reading one line of standard input: [EOFError] at the end of the
    input. *)
Definition read_line : M string :=
  fun h =>
    match stdin_fault h with
    | Some e => (Raise e, h)
    | None =>
        match stdin h with
        | [] => (Raise (Exn EOFError "EOF when reading a line"), h)
        | l :: rest =>
            (Ok l, MkHost rest (stdin_fault h) (stdout_fault h) (spawned h))
        end
    end.

(** [input(prompt)]: the prompt is written, then a line is read. *)
Definition input (prompt : string) : M string :=
  do! say prompt in
  read_line.

(** What [subprocess.run(argv, capture_output=True, text=True,
    timeout=30)] does on a host with the given lines pending on standard
    input, which the child inherits: it raises before a child exists (the
    executable is missing, or may not be run), or a child is started,
    reads some of the pending lines and either completes or makes the
    call raise (the time limit). *)
Inductive launch :=
| NotStarted (e : exn)
| Started (consumed : nat) (outcome : result CompletedProcess).

Definition outcome_of (l : launch) : result CompletedProcess :=
  match l with
  | NotStarted e => Raise e
  | Started _ outcome => outcome
  end.

Definition is_started (l : launch) : bool :=
  match l with
  | NotStarted _ => false
  | Started _ _ => true
  end.

Section WithProcesses.
Variable subprocess_run : list string -> list string -> launch.

Definition run (argv : list string) : M CompletedProcess :=
  fun h =>
    match subprocess_run argv (stdin h) with
    | NotStarted e => (Raise e, h)
    | Started consumed outcome =>
        (outcome,
         MkHost (drop consumed (stdin h)) (stdin_fault h) (stdout_fault h)
           (spawned h ++ [argv])%list)
    end.

Definition human_in_the_loop_confirmation (command_name args : string)
  : M bool :=
  do! say (nl ++ times "=" 50) in
  do! say "⚠️  WARNING: POTENTIALLY DESTRUCTIVE OPERATION DETECTED ⚠️" in
  do! say "The agent wants to execute the following command: " in
  do! say (nl ++ "    " ++ command_name ++ " " ++ args ++ nl) in
  do! say "This could result in permanent data loss." in
  do! say (times "=" 50) in
  try_except
    (let! line := input "Do you want to proceed? (yes/no): " in
     let confirm := strip (lower line) in
     ret (String.eqb confirm "yes"))
    (fun e => if caught_by [EOFError] e then Some (ret false) else None).

Definition sudo_rejection : string :=
  "Error: sudo access is strictly forbidden.".
Definition cancellation : string := "Execution cancelled by user.".
Definition timeout_message : string :=
  "Error: Command timed out after 30 seconds.".
Definition no_output_message : string :=
  "Command executed successfully with no output.".
Definition not_found_message (command_name : string) : string :=
  "Error: Command '" ++ command_name ++ "' not found.".
Definition unexpected_message (e : exn) : string :=
  "An unexpected error occurred: " ++ exn_str e.

(** How the captured streams are reported. *)
Definition format_output (r : CompletedProcess) : string :=
  let output := "" in
  let output :=
    if truthy (stdout r) then output ++ "STDOUT:" ++ nl ++ stdout r ++ nl
    else output in
  let output :=
    if truthy (stderr r) then output ++ "STDERR:" ++ nl ++ stderr r ++ nl
    else output in
  if truthy output then output else no_output_message.

(** The body of the [try] block of [_execute_command]. *)
Definition run_and_report (command_name args : string) : M string :=
  let full_command_list := command_name :: split args in
  do! say (" L Executing: " ++ join " " full_command_list) in
  let! r := run full_command_list in
  ret (format_output r).

(** The [except] clauses of [_execute_command], first match first. *)
Definition fault_message (command_name : string) (e : exn) : string :=
  if caught_by [FileNotFoundError] e then not_found_message command_name
  else if caught_by [TimeoutExpired] e then timeout_message
  else unexpected_message e.

Definition normalize_name (command_name : string) : string :=
  strip (lower command_name).

Definition elevation_blocked (command_name args : string) : bool :=
  String.eqb command_name "sudo"
  || (truthy args && startswith (strip args) "sudo").

Definition _execute_command (command_name args : string) : M string :=
  let command_name := normalize_name command_name in
  if elevation_blocked command_name args then ret sudo_rejection
  else
    let! go_on :=
      (if bool_decide (command_name ∈ DANGEROUS_COMMANDS)
       then human_in_the_loop_confirmation command_name args
       else ret true) in
    if negb go_on then ret cancellation
    else
      try_except (run_and_report command_name args)
        (fun e => Some (ret (fault_message command_name e))).

End WithProcesses.

(** A console that works: every [print] succeeds and standard input
    is open. *)
Definition console_works (h : Host) : Prop :=
  accepts_all (stdout_fault h) /\ stdin_fault h = None.

(** The reply the confirmation checkpoint reads next, lowercased and
    trimmed as the code compares it; [None] at the end of the input. *)
Definition pending_reply (h : Host) : option string :=
  match stdin h with
  | [] => None
  | line :: _ => Some (strip (lower line))
  end.

Definition affirmative (h : Host) : bool :=
  match pending_reply h with
  | Some reply => String.eqb reply "yes"
  | None => false
  end.

Definition destructive (command_name : string) : bool :=
  bool_decide (normalize_name command_name ∈ DANGEROUS_COMMANDS).

(** The call passes the elevation block and, where one is asked, the
    confirmation. *)
Definition gate_open (command_name args : string) (h : Host) : bool :=
  negb (elevation_blocked (normalize_name command_name) args)
  && (negb (destructive command_name) || affirmative h).

(** The argument vector of the child process. *)
Definition argv_of (command_name args : string) : list string :=
  normalize_name command_name :: split args.

(** The checkpoint is reached: the command is destructive and not stopped
    by the elevation block. *)
Definition asked (command_name args : string) : bool :=
  negb (elevation_blocked (normalize_name command_name) args)
  && destructive command_name.

(** The lines pending on standard input when the child process is
    started: the checkpoint, where it is reached, has read one. *)
Definition pending_at_run (command_name args : string) (h : Host)
  : list string :=
  if asked command_name args then tail (stdin h) else stdin h.

(** The commands that give another user's privileges: the entries of the
    scanner's exclusion list that do. *)
Definition privilege_elevation_commands : list string :=
  ["sudo"; "su"; "doas"].

(** The elevation block as the specification states it: a call whose
    name is a privilege-elevation command is rejected. *)
Definition elevation_block_as_stated : Prop :=
  forall (run : list string -> list string -> launch)
         (command_name args : string) (h : Host),
    normalize_name command_name ∈ privilege_elevation_commands ->
    _execute_command run command_name args h = (Ok sudo_rejection, h).

(** The reply is the affirmative one, character for character. *)
Definition exactly_affirmative (h : Host) : bool :=
  match stdin h with
  | [] => false
  | line :: _ => String.eqb line "yes"
  end.

(** The confirmation gate as the specification states it, for calls that
    pass the elevation block on a console that works: a destructive
    command whose reply is not exactly the affirmative one returns the
    cancellation string and starts no process. *)
Definition confirmation_gate_as_stated : Prop :=
  forall (run : list string -> list string -> launch)
         (command_name args : string) (h : Host),
    command_name ∈ DANGEROUS_COMMANDS ->
    elevation_blocked (normalize_name command_name) args = false ->
    console_works h ->
    exactly_affirmative h = false ->
    fst (_execute_command run command_name args h) = Ok cancellation
    /\ spawned (snd (_execute_command run command_name args h)) = spawned h.

(** The gateway boundary as the specification states it: no call
    raises. *)
Definition boundary_as_stated : Prop :=
  forall (run : list string -> list string -> launch)
         (command_name args : string) (h : Host),
    exists text, fst (_execute_command run command_name args h) = Ok text.

End Gateway.

(** ** The capability scanner ([dynamic_tools.py]) *)

Module Scanner.
Import PyText.

Definition MAX_TOOLS_TO_CREATE : Z := 2000.
Definition MAX_HELP_TEXT_LENGTH : Z := 30000.

Definition BASE_COMMANDS_TO_EXCLUDE : gset string :=
  {[ "sudo"; "su"; "doas"; "exit"; "logout"; "login"; "passwd";
     "shutdown"; "reboot"; "kill"; "pkill"; "killall"; "bg"; "fg"; "jobs";
     "alias"; "unalias"; "source"; "export"; "set"; "unset"; "history";
     "let"; "eval"; "exec"; "sh"; "bash"; "zsh"; "python"; "pip"; "conda";
     "docker"; "git"; "make" ]}.

Definition essential_commands : list string :=
  ["mkdir"; "mv"; "cp"; "rm"; "ls"; "cd"; "pwd"; "cat"; "touch"].

(** A [Tool]: its name, its description, and the command its
    [CommandExecutor] runs. *)
Record Tool := MkTool {
  name : string;
  description : string;
  func : string
}.

(** What the scan reads from the host. *)
Record ScanHost := MkScanHost {
  system : string;                    (* platform.system() *)
  which : string -> bool;             (* shutil.which(c) is not None *)
  path_executables : gset string;     (* discover_executables_from_path() *)
  probe : list string -> result CompletedProcess;
                                      (* subprocess.run, 5 second limit *)
  random_draw : nat -> nat            (* the i-th value of the random source *)
}.

Definition known_managers (sys : string) : list string :=
  if String.eqb sys "Linux"
  then ["apt"; "yum"; "dnf"; "pacman"; "zypper"; "apt-get"; "dpkg"]
  else if String.eqb sys "Darwin" then ["brew"]
  else if String.eqb sys "Windows" then ["choco"; "winget"; "scoop"]
  else [].

Definition discover_package_managers (h : ScanHost) : gset string :=
  list_to_set (List.filter (which h) (known_managers (system h))).

(** [random.sample(population, k)] for [0 <= k <= len(population)]:
    [k] draws without replacement, each taking the element at a random
    position out of the pool of those not yet chosen; [i] counts the
    values of the random source used so far. *)
Fixpoint sample (rnd : nat -> nat) (i : nat) (pool : list string) (k : nat)
  : list string :=
  match k with
  | O => []
  | S k' =>
      let j := (rnd i mod length pool)%nat in
      match pool !! j with
      | Some x => x :: sample rnd (S i) (delete j pool) k'
      | None => []
      end
  end.

(** [sorted(list(all_cmds - COMMANDS_TO_EXCLUDE))] *)
Definition initial_candidates (h : ScanHost) : list string :=
  let all_cmds := path_executables h in
  let pkg_managers := discover_package_managers h in
  let COMMANDS_TO_EXCLUDE := BASE_COMMANDS_TO_EXCLUDE ∪ pkg_managers in
  merge_sort String.le (elements (all_cmds ∖ COMMANDS_TO_EXCLUDE)).

(** [for cmd in cmds: if shutil.which(cmd) and cmd not in valid_cmds:
    valid_cmds.append(cmd)] *)
Definition append_found (h : ScanHost) (cmds valid_cmds : list string)
  : list string :=
  fold_left
    (fun valid_cmds cmd =>
       if which h cmd && negb (bool_decide (cmd ∈ valid_cmds))
       then (valid_cmds ++ [cmd])%list else valid_cmds)
    cmds valid_cmds.

(** The loop that appends the essential commands found by [which]. *)
Definition add_essential (h : ScanHost) (valid_cmds : list string)
  : list string :=
  append_found h essential_commands valid_cmds.

(** The candidates before the ceiling is enforced. *)
Definition candidates_found (h : ScanHost) : list string :=
  add_essential h (initial_candidates h).

(** [if len(valid_cmds) > MAX_TOOLS_TO_CREATE: ...] *)
Definition enforce_ceiling (rnd : nat -> nat) (valid_cmds : list string)
  : list string :=
  if (MAX_TOOLS_TO_CREATE <? Z.of_nat (length valid_cmds))%Z then
    let essential_found :=
      filter (fun cmd => cmd ∈ valid_cmds) essential_commands in
    let other_cmds :=
      filter (fun cmd => cmd ∉ essential_commands) valid_cmds in
    let remaining_slots :=
      (MAX_TOOLS_TO_CREATE - Z.of_nat (length essential_found))%Z in
    if (0 <? remaining_slots)%Z then
      let sampled_others :=
        sample rnd 0 other_cmds
          (Z.to_nat (Z.min remaining_slots (Z.of_nat (length other_cmds)))) in
      (essential_found ++ sampled_others)%list
    else take (Z.to_nat MAX_TOOLS_TO_CREATE) essential_found
  else valid_cmds.

(** The final candidate list of [load_system_command_tools]. *)
Definition final_candidates (h : ScanHost) : list string :=
  enforce_ceiling (random_draw h) (candidates_found h).

Definition no_help : string := "No help page found.".

Definition probe_succeeded (r : CompletedProcess) : bool :=
  (returncode r =? 0)%Z && truthy (stdout r).

Definition get_command_help (h : ScanHost) (command : string)
  : result string :=
  let attempt :=
    let? result := probe h [command; "--help"] in
    if probe_succeeded result then Ok (stdout result)
    else
      let? from_man :=
        (if negb (String.eqb (system h) "Windows") then
           let? man_result := probe h ["man"; command] in
           Ok (if probe_succeeded man_result
               then Some (stdout man_result) else None)
         else Ok None) in
      match from_man with
      | Some text => Ok text
      | None =>
          let? from_help :=
            (if String.eqb (system h) "Windows" then
               let? help_result := probe h [command; "/?"] in
               Ok (if probe_succeeded help_result
                   then Some (stdout help_result) else None)
             else Ok None) in
          match from_help with
          | Some text => Ok text
          | None => Ok no_help
          end
      end in
  match attempt with
  | Ok text => Ok text
  | Raise e =>
      if caught_by [FileNotFoundError; TimeoutExpired; OSError] e
      then Ok no_help else Raise e
  end.

Definition truncation_marker : string := nl ++ "... (description truncated)".

Definition truncate_help (help_text : string) : string :=
  if (MAX_HELP_TEXT_LENGTH <? len help_text)%Z
  then take_chars (Z.to_nat MAX_HELP_TEXT_LENGTH) help_text
       ++ truncation_marker
  else help_text.

Definition describe (command help_text : string) : string :=
  "Executes the '" ++ command ++ "' command. Its help page is:" ++ nl
  ++ "---" ++ nl ++ help_text.

(** One turn of the loop over the candidates: the tool made for
    [command], or [None] where the loop moves on without one. *)
Definition make_tool (command help_text : string) : option Tool :=
  let help_text := truncate_help help_text in
  if negb (truthy help_text) || contains "No help page found" help_text
  then
    if bool_decide (command ∈ essential_commands)
    then
      let help_text := "Essential file system command: " ++ command in
      Some (MkTool command (describe command help_text) command)
    else None
  else Some (MkTool command (describe command help_text) command).

Fixpoint build_tools (h : ScanHost) (valid_cmds : list string)
  : result (list Tool) :=
  match valid_cmds with
  | [] => Ok []
  | command :: rest =>
      let? help_text := get_command_help h command in
      let made := make_tool command help_text in
      let? tools := build_tools h rest in
      Ok (match made with Some tool => tool :: tools | None => tools end)
  end.

Definition load_system_command_tools (h : ScanHost) : result (list Tool) :=
  build_tools h (final_candidates h).

(** An essential command is present on the host when [which] finds it or
    the scan of PATH did. *)
Definition present (h : ScanHost) (cmd : string) : bool :=
  which h cmd || bool_decide (cmd ∈ path_executables h).

(** The essential commands that are present on the host. *)
Definition present_essential (h : ScanHost) : list string :=
  filter (fun cmd => present h cmd = true) essential_commands.

(** What every tool of the scan looks like. *)
Definition framed (t : Tool) : Prop :=
  exists help_text,
    description t = describe (name t) help_text
    /\ (len help_text <= MAX_HELP_TEXT_LENGTH + 28)%Z.

(** The bound on descriptions as the specification states it: no
    description is longer than the configured maximum. *)
Definition description_bound_as_stated : Prop :=
  forall (h : ScanHost) (tools : list Tool) (t : Tool),
    load_system_command_tools h = Ok tools ->
    t ∈ tools ->
    (len (description t) <= MAX_HELP_TEXT_LENGTH)%Z.

End Scanner.

(** ** The semantic-index adapter ([MilvusStoreWrapper.search]) *)

Module Adapter.
Import PyText.

#[local] Set Warnings "-register-all".

(** The Python values a caller can pass to [search]. *)
Inductive value :=
| VNone
| VBool (b : bool)
| VInt (z : Z)
| VStr (s : string)
| VTuple (items : list value)
| VList (items : list value)
| VObject (attrs : list (string * value)).  (* any other object *)

(** [isinstance(v, int)]; [bool] is a subclass of [int]. *)
Definition is_int (v : value) : bool :=
  match v with
  | VInt _ | VBool _ => true
  | _ => false
  end.

(** The number an [int] stands for in arithmetic. *)
Definition int_of (v : value) : Z :=
  match v with
  | VInt z => z
  | VBool true => 1
  | _ => 0
  end.

(** [obj.attr], where the object has it. *)
Fixpoint getattr (attrs : list (string * value)) (attr : string)
  : option value :=
  match attrs with
  | [] => None
  | (a, v) :: rest => if String.eqb a attr then Some v else getattr rest attr
  end.

(** A document of the vector store: its metadata. *)
Record Document := MkDocument { metadata : gmap string string }.

Section Search.
(** The built-in [str]. *)
Variable str_of : value -> string.
(** The type of the backend's scores. *)
Variable Score : Type.
(** [vector_store.similarity_search_with_score(query, k=k)] *)
Variable similarity_search_with_score :
  string -> value -> result (list (Document * Score)).

Record SearchResult := MkSearchResult { key : string; score : Score }.

(** The query taken from the first positional argument. *)
Definition positional_query (first_arg : value) : string :=
  match first_arg with
  | VStr s => s
  | VTuple (x :: _) | VList (x :: _) => str_of x
  | VObject attrs =>
      match getattr attrs "query" with
      | Some q => str_of q
      | None => str_of first_arg
      end
  | _ => str_of first_arg
  end.

(** The first part of [search]: the query ([None] while unset) and the
    result count [k] the call resolves to. *)
Definition normalize (args : list value) (kwargs : gmap string value)
  : option string * value :=
  let query : option string := None in
  let k := VInt 5 in
  let '(query, k) :=
    match args with
    | [] => (query, k)
    | first_arg :: more =>
        (Some (positional_query first_arg),
         match more with
         | second :: _ => if is_int second then second else VInt 5
         | [] => k
         end)
    end in
  let query :=
    match kwargs !! "query" with
    | Some q => Some (str_of q)
    | None => query
    end in
  let k :=
    match kwargs !! "k" with
    | Some kv => if is_int kv then kv else VInt 5
    | None =>
        match kwargs !! "limit" with
        | Some lv =>
            if is_int lv then VInt (Z.max (int_of lv * 3) 10) else VInt 10
        | None => k
        end
    end in
  (query, k).

(** [SearchResult(key=doc.metadata["tool_id"], score=score)] for every
    pair the backend returned. *)
Fixpoint wrap_results (results : list (Document * Score))
  : result (list SearchResult) :=
  match results with
  | [] => Ok []
  | (doc, sc) :: rest =>
      match metadata doc !! "tool_id" with
      | Some id =>
          let? wrapped := wrap_results rest in
          Ok (MkSearchResult id sc :: wrapped)
      | None => Raise (Exn KeyError "'tool_id'")
      end
  end.

(** The values that the normalization hands to [str], in the order in
    which it does: what the first positional argument gives when it is
    not itself a string, then the "query" keyword. *)
Definition converted (args : list value) (kwargs : gmap string value)
  : list value :=
  (match args with
   | [] => []
   | first_arg :: _ =>
       match first_arg with
       | VStr _ => []
       | VTuple (x :: _) | VList (x :: _) => [x]
       | VObject attrs =>
           match getattr attrs "query" with
           | Some q => [q]
           | None => [first_arg]
           end
       | _ => [first_arg]
       end
   end
   ++ match kwargs !! "query" with
      | Some q => [q]
      | None => []
      end)%list.

(** What else the interpreter and the console decide: the exception
    [str(v)] raises, if it does; the text of [args] and [kwargs] in the
    first message; [repr] of a string; [format(score, ".3f")]; the truth
    value of a tool; and what [print(text)] raises, if anything. *)
Record Runtime := MkRuntime {
  str_fault : value -> option exn;
  call_repr : list value -> gmap string value -> result string;
  repr_str : string -> string;
  format_score : Score -> result string;
  truth : gmap string string -> bool;
  rt_stdout_fault : string -> option exn
}.

Variable rt : Runtime.
(** The registry the wrapper refers to. *)
Variable tool_registry : gmap string (gmap string string).

Definition no_name : exn :=
  Exn AttributeError "object has no attribute 'name'".

(** The first of the conversions to raise makes the call raise. *)
Fixpoint convert_all (values : list value) : result unit :=
  match values with
  | [] => Ok tt
  | v :: rest =>
      match str_fault rt v with
      | Some e => Raise e
      | None => convert_all rest
      end
  end.

(** [str(k)] for the count, an [int]. *)
Definition count_text (k : value) : string :=
  match k with
  | VInt z => pretty z
  | VBool true => "True"
  | VBool false => "False"
  | _ => ""
  end.

(** [tool.name if tool else "Unknown"] *)
Definition name_to_show (tool : option (gmap string string))
  : result string :=
  match tool with
  | None => Ok "Unknown"
  | Some t =>
      if truth rt t then
        match t !! "name" with
        | Some tool_name => Ok tool_name
        | None => Raise no_name
        end
      else Ok "Unknown"
  end.

(** The loop that lists the results found; [i] is the number of the
    line. *)
Fixpoint listing (i : nat) (search_results : list SearchResult)
  : result unit :=
  match search_results with
  | [] => Ok tt
  | r :: rest =>
      let tool := tool_registry !! key r in
      let? tool_name := name_to_show tool in
      let? shown := format_score rt (score r) in
      let? _ := write (rt_stdout_fault rt)
                  ("  " ++ pretty i ++ ". " ++ tool_name ++ " (ID: "
                   ++ take_chars 8 (key r) ++ "..., score: " ++ shown
                   ++ ")") in
      listing (S i) rest
  end.

(** [MilvusStoreWrapper.search] *)
Definition search (args : list value) (kwargs : gmap string value)
  : result (list SearchResult) :=
  let? call := call_repr rt args kwargs in
  let? _ := write (rt_stdout_fault rt)
              ("Debug: search called with " ++ call) in
  let? _ := convert_all (converted args kwargs) in
  let '(query, k) := normalize args kwargs in
  match query with
  | None =>
      let? _ := write (rt_stdout_fault rt) "Warning: Invalid query: None" in
      Ok []
  | Some query =>
      if negb (truthy query) then
        let? _ := write (rt_stdout_fault rt)
                    ("Warning: Invalid query: " ++ query) in
        Ok []
      else
        let? _ := write (rt_stdout_fault rt)
                    ("Debug: Searching with query='" ++ query ++ "', k="
                     ++ count_text k) in
        rtry
          (let? results := similarity_search_with_score query k in
           let? search_results := wrap_results results in
           let? _ := write (rt_stdout_fault rt)
                       ("Debug: Found "
                        ++ pretty (length search_results) ++ " results") in
           let? _ := match search_results with
                     | [] => Ok tt
                     | _ :: _ =>
                         let? _ := write (rt_stdout_fault rt)
                                     "Debug: Search results:" in
                         listing 1 search_results
                     end in
           Ok search_results)
          (fun e =>
             Some (let? _ := write (rt_stdout_fault rt)
                               ("Warning: Search failed: " ++ exn_str e) in
                   let? _ := write (rt_stdout_fault rt)
                               ("Debug: Query type: <class 'str'>, "
                                ++ "Query value: " ++ repr_str rt query) in
                   Ok []))
  end.

(** For comparison, the search without its messages and its listing:
    the normalization, the lookup in the backend and the wrapping of the
    hits, with the empty list where one of them fails. *)
Definition bare_search (args : list value) (kwargs : gmap string value)
  : result (list SearchResult) :=
  let '(query, k) := normalize args kwargs in
  match query with
  | None => Ok []
  | Some query =>
      if negb (truthy query) then Ok []
      else
        match (let? results := similarity_search_with_score query k in
               wrap_results results) with
        | Ok search_results => Ok search_results
        | Raise _ => Ok []
        end
  end.

(** The interpreter and the console never raise. *)
Definition silent : Prop :=
  (forall args kwargs, exists call, call_repr rt args kwargs = Ok call)
  /\ (forall v, str_fault rt v = None)
  /\ accepts_all (rt_stdout_fault rt).

(** Every score can be formatted, as a number can. *)
Definition scores_format : Prop :=
  forall s, exists shown, format_score rt s = Ok shown.

(** The interpreter and the console raise nothing in this call: the
    text of the call can be made, the conversions succeed, and every
    [print] succeeds. *)
Definition quiet (args : list value) (kwargs : gmap string value) : Prop :=
  (exists call, call_repr rt args kwargs = Ok call)
  /\ convert_all (converted args kwargs) = Ok tt
  /\ accepts_all (rt_stdout_fault rt).

(** The normalization as the specification words it.  The query: the
    "query" keyword, else the first positional argument, unwrapped from
    a one-element sequence or an object with a "query" attribute, else
    stringified.  The count: an integer "k" keyword, else a "limit"
    keyword as max(3*limit, 10), else 5; [None] where the words give no
    count (a limit that is not a number). *)
Definition spec_positional_query (first_arg : value) : string :=
  match first_arg with
  | VTuple [x] | VList [x] => str_of x
  | VObject attrs =>
      match getattr attrs "query" with
      | Some q => str_of q
      | None => str_of first_arg
      end
  | _ => str_of first_arg
  end.

Definition spec_query (args : list value) (kwargs : gmap string value)
  : option string :=
  match kwargs !! "query" with
  | Some q => Some (str_of q)
  | None =>
      match args with
      | first_arg :: _ => Some (spec_positional_query first_arg)
      | [] => None
      end
  end.

Definition spec_count (kwargs : gmap string value) : option value :=
  match kwargs !! "k" with
  | Some (VInt z) => Some (VInt z)
  | Some (VBool b) => Some (VBool b)
  | _ =>
      match kwargs !! "limit" with
      | Some lv =>
          if is_int lv then Some (VInt (Z.max (3 * int_of lv) 10)) else None
      | None => Some (VInt 5)
      end
  end.

(** The query and the count as the code resolves them, in order of
    precedence. *)
Definition resolved_query (args : list value) (kwargs : gmap string value)
  : option string :=
  match kwargs !! "query", args with
  | Some q, _ => Some (str_of q)
  | None, first_arg :: _ => Some (positional_query first_arg)
  | None, [] => None
  end.

Definition resolved_count (args : list value) (kwargs : gmap string value)
  : value :=
  match kwargs !! "k", kwargs !! "limit", args with
  | Some kv, _, _ => if is_int kv then kv else VInt 5
  | None, Some lv, _ =>
      if is_int lv then VInt (Z.max (3 * int_of lv) 10) else VInt 10
  | None, None, _ :: second :: _ => if is_int second then second else VInt 5
  | None, None, _ => VInt 5
  end.

(** A first argument on which the two readings of "unwrap" agree: not a
    sequence of two or more elements. *)
Definition short_sequence (args : list value) : bool :=
  match args with
  | VTuple (_ :: _ :: _) :: _ | VList (_ :: _ :: _) :: _ => false
  | _ => true
  end.

End Search.

Arguments MkSearchResult {Score} key score.
Arguments key {Score} s.
Arguments score {Score} s.

(** A stringification that is Python's on text, whole numbers, booleans
    and [None]; it stands in for [str] where a concrete one is needed. *)
Definition str_of_atom (v : value) : string :=
  match v with
  | VStr s => s
  | VNone => "None"
  | VBool true => "True"
  | VBool false => "False"
  | VInt z => pretty z
  | _ => "<object>"
  end.

(** The normalization as the specification states it, for every call. *)
Definition normalization_as_stated : Prop :=
  forall (str_of : value -> string),
    (forall s, str_of (VStr s) = s) ->
    forall (args : list value) (kwargs : gmap string value),
      fst (normalize str_of args kwargs) = spec_query str_of args kwargs
      /\ spec_count kwargs = Some (snd (normalize str_of args kwargs)).

(** The degradation of search as the specification states it: whatever
    the interpreter and the console do, a call from which no usable query
    resolves, or whose lookup in the backend fails, returns the empty
    list. *)
Definition degradation_as_stated : Prop :=
  forall (str_of : value -> string) (Score : Type)
         (backend : string -> value -> result (list (Document * Score)))
         (rt : Runtime Score)
         (tool_registry : gmap string (gmap string string))
         (args : list value) (kwargs : gmap string value),
    match fst (normalize str_of args kwargs) with
    | None => True
    | Some query =>
        query = ""
        \/ exists e,
             backend query (snd (normalize str_of args kwargs)) = Raise e
    end ->
    search str_of Score backend rt tool_registry args kwargs = Ok [].

End Adapter.

(** ** The registry cache ([agent_core.py]) *)

Module Cache.
Import PyText.

Definition TOOL_REGISTRY_CACHE_PATH : string := ".tool_registry.pkl".
Definition backup_path : string := TOOL_REGISTRY_CACHE_PATH ++ ".backup".

(** An object as the cache sees it: its attributes.  A registry maps
    tool ids to objects. *)
Abbreviation Obj := (gmap string string).
Abbreviation Registry := (gmap string (gmap string string)).

Definition tool_obj (t : Scanner.Tool) : Obj :=
  {[ "name" := Scanner.name t;
     "description" := Scanner.description t;
     "func" := Scanner.func t ]}.

(** [{str(uuid.uuid4()): tool for tool in all_tools}], with the ids the
    generator hands out. *)
Definition build_registry (ids : list string) (all_tools : list Scanner.Tool)
  : Registry :=
  fold_left (fun reg it => <[fst it := tool_obj (snd it)]> reg)
    (zip ids all_tools) ∅.

(** What [pickle.load] can return. *)
Inductive unpickled :=
| UDict (d : Registry)
| UOther.

Inductive os_op :=
| OpGetsize (p : string)
| OpRemove (p : string)
| OpRename (src dst : string)
| OpOpenRead (p : string)
| OpOpenWrite (p : string).

Section WithFiles.
(** File contents, their size in bytes, and the pickle codec:
    [pickle_dump] gives what reaches the file and the exception that
    cut the write short, if any. *)
Variable Blob : Type.
Variable blob_size : Blob -> Z.
Variable pickle_load : Blob -> result unpickled.
Variable pickle_dump : Registry -> Blob * option exn.
(** The operations the operating system refuses ([OSError]). *)
Variable refused : os_op -> bool.
(** What [print(text)] raises on the console, if anything. *)
Variable stdout_fault : string -> option exn.

(** The files of the working directory. *)
Local Abbreviation FS := (gmap string Blob).

Definition os_error : exn := Exn OSError "operation not permitted".
Definition missing : exn := Exn FileNotFoundError "no such file".

Definition path_exists (p : string) : Eff FS bool :=
  fun fs => (Ok (bool_decide (is_Some (fs !! p))), fs).

Definition getsize (p : string) : Eff FS Z :=
  fun fs =>
    if refused (OpGetsize p) then (Raise os_error, fs)
    else match fs !! p with
         | Some b => (Ok (blob_size b), fs)
         | None => (Raise missing, fs)
         end.

Definition remove (p : string) : Eff FS unit :=
  fun fs =>
    if refused (OpRemove p) then (Raise os_error, fs)
    else match fs !! p with
         | Some _ => (Ok tt, delete p fs)
         | None => (Raise missing, fs)
         end.

Definition rename (src dst : string) : Eff FS unit :=
  fun fs =>
    if refused (OpRename src dst) then (Raise os_error, fs)
    else match fs !! src with
         | Some b => (Ok tt, <[dst := b]> (delete src fs))
         | None => (Raise missing, fs)
         end.

(** [with open(p, "rb") as f: pickle.load(f)] *)
Definition read_pickle (p : string) : Eff FS unpickled :=
  fun fs =>
    if refused (OpOpenRead p) then (Raise os_error, fs)
    else match fs !! p with
         | Some b => (pickle_load b, fs)
         | None => (Raise missing, fs)
         end.

(** [with open(p, "wb") as f: pickle.dump(reg, f, ...)] *)
Definition write_pickle (p : string) (reg : Registry) : Eff FS unit :=
  fun fs =>
    if refused (OpOpenWrite p) then (Raise os_error, fs)
    else match pickle_dump reg with
         | (b, None) => (Ok tt, <[p := b]> fs)
         | (b, Some e) => (Raise e, <[p := b]> fs)
         end.

Definition has_tool_fields (tool : Obj) : bool :=
  bool_decide (is_Some (tool !! "name"))
  && bool_decide (is_Some (tool !! "description")).

Definition all_tools_valid (reg : Registry) : bool :=
  forallb (fun it => has_tool_fields (snd it)) (map_to_list reg).

(** The id of the entry at which the validation stops; the order in
    which the entries are met is not modelled. *)
Definition invalid_id (reg : Registry) : string :=
  match List.filter (fun it => negb (has_tool_fields (snd it)))
          (map_to_list reg) with
  | it :: _ => fst it
  | [] => EmptyString
  end.

(** The validation of the loaded object. *)
Definition validate (loaded : unpickled) : Eff FS Registry :=
  match loaded with
  | UOther =>
      raise (Exn ValueError
               "Tool registry cache contains invalid data structure")
  | UDict tool_registry =>
      if (size tool_registry =? 0)%nat
      then raise (Exn ValueError "Tool registry cache is empty")
      else if negb (all_tools_valid tool_registry)
      then raise (Exn ValueError
                    ("Invalid tool structure for tool_id: "
                     ++ invalid_id tool_registry))
      else ret tool_registry
  end.

Definition load_tool_registry_from_cache : Eff FS (option Registry) :=
  let! present := path_exists TOOL_REGISTRY_CACHE_PATH in
  if negb present then ret None
  else
    try_except
      (let! sz := getsize TOOL_REGISTRY_CACHE_PATH in
       if (sz =? 0)%Z
       then
         do! print stdout_fault
               ("⚠️  Tool registry cache file is empty. "
                ++ "Will rebuild from scratch.") in
         do! remove TOOL_REGISTRY_CACHE_PATH in
         ret None
       else
         let! loaded := read_pickle TOOL_REGISTRY_CACHE_PATH in
         let! tool_registry := validate loaded in
         do! print stdout_fault
               ("✅ Successfully loaded " ++ pretty (size tool_registry)
                ++ " tools from cache.") in
         ret (Some tool_registry))
      (fun e =>
         if caught_by [PickleError; EOFError; ValueError] e
         then Some (do! print stdout_fault
                          ("⚠️  Tool registry cache is corrupted ("
                           ++ exn_str e
                           ++ "). Will rebuild from scratch.") in
                    do! try_pass [OSError]
                          (remove TOOL_REGISTRY_CACHE_PATH) in
                    ret None)
         else Some (do! print stdout_fault
                          ("⚠️  Unexpected error loading tool registry "
                           ++ "cache (" ++ exn_str e
                           ++ "). Will rebuild from scratch.") in
                    ret None)).

Definition save_tool_registry_to_cache (tool_registry : Registry)
  : Eff FS bool :=
  try_except
    (let! present := path_exists TOOL_REGISTRY_CACHE_PATH in
     do! (if present
          then try_pass [OSError]
                 (rename TOOL_REGISTRY_CACHE_PATH backup_path)
          else ret tt) in
     do! write_pickle TOOL_REGISTRY_CACHE_PATH tool_registry in
     let! has_backup := path_exists backup_path in
     do! (if has_backup
          then try_pass [OSError] (remove backup_path)
          else ret tt) in
     do! print stdout_fault
           ("✅ Tool registry saved to '" ++ TOOL_REGISTRY_CACHE_PATH
            ++ "' for future runs.") in
     ret true)
    (fun e =>
       Some (do! print stdout_fault
                   ("⚠️  Failed to save tool registry to cache: "
                    ++ exn_str e) in
             let! has_backup := path_exists backup_path in
             do! (if has_backup
                  then try_pass [OSError]
                         (do! rename backup_path TOOL_REGISTRY_CACHE_PATH in
                          print stdout_fault
                            "✅ Restored previous cache from backup.")
                  else ret tt) in
             ret false)).

End WithFiles.

(** The handling of an unreadable cache as the specification states it,
    on a file system that refuses nothing and a console that accepts
    every message: whatever exception the deserialization raises, the
    file is deleted and absent is returned. *)
Definition corruption_handling_as_stated : Prop :=
  forall (Blob : Type) (blob_size : Blob -> Z)
         (pickle_load : Blob -> result unpickled)
         (fs : gmap string Blob) (b : Blob) (e : exn),
    fs !! TOOL_REGISTRY_CACHE_PATH = Some b ->
    blob_size b <> 0%Z ->
    pickle_load b = Raise e ->
    load_tool_registry_from_cache Blob blob_size pickle_load
      (fun _ => false) (fun _ => None) fs
    = (Ok None, delete TOOL_REGISTRY_CACHE_PATH fs).

(** What a pickle codec guarantees: a completed dump is not empty and
    loads back as the dictionary that was dumped. *)
Definition codec_round_trips {Blob : Type} (blob_size : Blob -> Z)
    (pickle_load : Blob -> result unpickled)
    (pickle_dump : Registry -> Blob * option exn) : Prop :=
  forall reg b,
    pickle_dump reg = (b, None) ->
    blob_size b <> 0%Z /\ pickle_load b = Ok (UDict reg).

(** The round trip as the specification states it, with a sound codec on
    a file system that refuses nothing and a console that accepts every
    message: whatever registry is built and persisted, loading gives it
    back. *)
Definition round_trip_as_stated : Prop :=
  forall (Blob : Type) (blob_size : Blob -> Z)
         (pickle_load : Blob -> result unpickled)
         (pickle_dump : Registry -> Blob * option exn),
    codec_round_trips blob_size pickle_load pickle_dump ->
    forall (ids : list string) (all_tools : list Scanner.Tool)
           (fs : gmap string Blob),
      snd (pickle_dump (build_registry ids all_tools)) = None ->
      fst (load_tool_registry_from_cache Blob blob_size pickle_load
             (fun _ => false) (fun _ => None)
             (snd (save_tool_registry_to_cache Blob pickle_dump
                     (fun _ => false) (fun _ => None)
                     (build_registry ids all_tools) fs)))
      = Ok (Some (build_registry ids all_tools)).

End Cache.

(** ** Sample hosts *)

Module Samples.
Import PyText.

(** A host on which no executable is found. *)
Definition nothing_installed (argv pending : list string) : Gateway.launch :=
  Gateway.NotStarted (Exn FileNotFoundError "No such file or directory").

(** A host on which every command hangs, reading nothing. *)
Definition always_hangs (argv pending : list string) : Gateway.launch :=
  Gateway.Started 0 (Raise (Exn TimeoutExpired "timed out after 30 seconds")).

(** A host on which every command prints one line and ends, reading
    nothing. *)
Definition always_prints (line : string) (argv pending : list string)
  : Gateway.launch :=
  Gateway.Started 0 (Ok (Completed 0 line "")).

(** A host on which every command reads all the pending input and ends
    without output, as an interactive command does. *)
Definition always_reads (argv pending : list string) : Gateway.launch :=
  Gateway.Started (length pending) (Ok (Completed 0 "" "")).

(** A console that cannot encode characters beyond ASCII. *)
Fixpoint is_ascii (text : string) : bool :=
  match text with
  | EmptyString => true
  | String c r => (N_of_ascii c <? 128)%N && is_ascii r
  end.

Definition ascii_only (text : string) : option exn :=
  if is_ascii text then None
  else Some (Exn UnicodeEncodeError
               "'ascii' codec can't encode character").

(** A console that works, with the given lines pending. *)
Definition console (lines : list string) : Gateway.Host :=
  Gateway.MkHost lines None (fun _ => None) [].

(** A console that cannot encode characters beyond ASCII, with the
    given lines pending. *)
Definition ascii_console (lines : list string) : Gateway.Host :=
  Gateway.MkHost lines None ascii_only [].

(** A console whose standard input is closed, with the lines that were
    pending. *)
Definition closed_console (lines : list string) : Gateway.Host :=
  Gateway.MkHost lines
    (Some (Exn ValueError "I/O operation on closed file."))
    (fun _ => None) [].

(** [n] copies of one character. *)
Fixpoint filler (n : nat) (c : ascii) : string :=
  match n with
  | O => EmptyString
  | S n' => String c (filler n' c)
  end.

(** A Linux host with the single command "zz", whose --help prints
    30001 characters. *)
Definition verbose_host : Scanner.ScanHost :=
  Scanner.MkScanHost "Linux" (fun _ => false) {[ "zz" ]}
    (fun argv => Ok (Completed 0 (filler (Z.to_nat 30001) "x") ""))
    (fun i => i).

(** A Linux host with the single command "zz", whose --help prints one
    line. *)
Definition terse_host : Scanner.ScanHost :=
  Scanner.MkScanHost "Linux" (fun _ => false) {[ "zz" ]}
    (fun argv => Ok (Completed 0 "usage: zz [file]" ""))
    (fun i => i).

Definition terse_tool : Scanner.Tool :=
  Scanner.MkTool "zz" (Scanner.describe "zz" "usage: zz [file]") "zz".

(** The names "tool0", "tool1", ... *)
Definition tool_names (n : nat) : list string :=
  (fun i : nat => "tool" ++ pretty i) <$> seq 0 n.

(** A Linux host with 2050 commands on its PATH besides "ls" and "rm",
    which [which] finds; no command prints a help page in time. *)
Definition crowded_host : Scanner.ScanHost :=
  Scanner.MkScanHost "Linux"
    (fun c => String.eqb c "ls" || String.eqb c "rm")
    (list_to_set (tool_names (Z.to_nat 2050)))
    (fun argv => Raise (Exn TimeoutExpired "timed out after 5 seconds"))
    (fun i => i).

(** File contents for the examples: an empty file, the pickle of a
    registry, the pickle of something that is not a dictionary, and bytes
    on which unpickling raises an exception of a given class. *)
Inductive blob :=
| Empty
| Pickled (reg : gmap string (gmap string string))
| Foreign
| Garbage (c : exn_class).

Definition blob_size (b : blob) : Z :=
  match b with
  | Empty => 0
  | _ => 64
  end.

Definition pickle_load (b : blob) : result Cache.unpickled :=
  match b with
  | Empty => Raise (Exn EOFError "Ran out of input")
  | Pickled reg => Ok (Cache.UDict reg)
  | Foreign => Ok Cache.UOther
  | Garbage c => Raise (Exn c "could not load the pickle")
  end.

Definition pickle_dump (reg : gmap string (gmap string string))
  : blob * option exn :=
  (Pickled reg, None).

(** A dump that breaks off after some bytes. *)
Definition pickle_dump_failing (reg : gmap string (gmap string string))
  : blob * option exn :=
  (Garbage UnpicklingError, Some (Exn PicklingError "Can't pickle object")).

(** A file system that refuses nothing, and one on which the cache file
    can be neither renamed nor removed (a read-only directory). *)
Definition cooperative (op : Cache.os_op) : bool := false.

Definition read_only_directory (op : Cache.os_op) : bool :=
  match op with
  | Cache.OpRename _ _ | Cache.OpRemove _ => true
  | _ => false
  end.

(** The registry built from one tool. *)
Definition one_tool : gmap string (gmap string string) :=
  Cache.build_registry ["id-1"] [terse_tool].

(** An interpreter and a console that raise nothing: scores are whole
    numbers, shown as they are; every tool is true. *)
Definition plain_runtime : Adapter.Runtime Z :=
  Adapter.MkRuntime Z (fun _ => None)
    (fun args _ => Ok ("args=" ++ join ", " (Adapter.str_of_atom <$> args)))
    (fun s => "'" ++ s ++ "'")
    (fun z => Ok (pretty z))
    (fun _ => true)
    (fun _ => None).

(** The same on a console that cannot encode characters beyond ASCII. *)
Definition ascii_runtime : Adapter.Runtime Z :=
  Adapter.MkRuntime Z (fun _ => None)
    (fun args _ => Ok ("args=" ++ join ", " (Adapter.str_of_atom <$> args)))
    (fun s => "'" ++ s ++ "'")
    (fun z => Ok (pretty z))
    (fun _ => true)
    ascii_only.

(** A query with a letter beyond ASCII: "caf" and e with an acute
    accent. *)
Definition accented_query : string :=
  "caf" ++ String (ascii_of_nat 233) EmptyString.

(** A vector backend that is not reachable. *)
Definition backend_down (query : string) (k : Adapter.value)
  : result (list (Adapter.Document * Z)) :=
  Raise (Exn RuntimeError "connection refused").

(** A vector backend that knows one tool. *)
Definition backend_up (query : string) (k : Adapter.value)
  : result (list (Adapter.Document * Z)) :=
  Ok [(Adapter.MkDocument {[ "tool_id" := "id-1" ]}, 1%Z)].

End Samples.

(** * More of the code *)

(** ** Process runners *)

Module GatewayRunner.

(** The process runner with every return code replaced by 0. *)
Definition forget_returncode
    (run : list string -> list string -> Gateway.launch)
    (argv pending : list string) : Gateway.launch :=
  match run argv pending with
  | Gateway.Started consumed (Ok r) =>
      Gateway.Started consumed (Ok (Completed 0 (stdout r) (stderr r)))
  | other => other
  end.

End GatewayRunner.

(** ** More sample hosts *)

Module MoreSamples.
Import PyText.

(** A Linux host with nothing on its PATH where [which] still finds "ls";
    no probe finds an executable. *)
Definition bare_host : Scanner.ScanHost :=
  Scanner.MkScanHost "Linux" (fun c => String.eqb c "ls") ∅
    (fun argv => Raise (Exn FileNotFoundError "No such file or directory"))
    (fun i => i).

Definition bare_tool : Scanner.Tool :=
  Scanner.MkTool "ls"
    (Scanner.describe "ls" "Essential file system command: ls") "ls".

(** [Samples.terse_host], except that the Windows help switch hangs. *)
Definition picky_host : Scanner.ScanHost :=
  Scanner.MkScanHost "Linux" (fun _ => false) {[ "zz" ]}
    (fun argv =>
       if bool_decide (argv = ["zz"; "/?"])
       then Raise (Exn TimeoutExpired "timed out after 5 seconds")
       else Ok (Completed 0 "usage: zz [file]" ""))
    (fun i => i).

(** A Linux host whose PATH holds the names "ls", "tar" and ".profile";
    [which] finds nothing, every probe prints a usage line. *)
Definition scanned_host : Scanner.ScanHost :=
  Scanner.MkScanHost "Linux" (fun _ => false) {[ "ls"; "tar"; ".profile" ]}
    (fun argv => Ok (Completed 0 "usage" ""))
    (fun i => i).

End MoreSamples.

(** ** The scan of PATH ([discover_executables_from_path]) *)

Module PathScan.
Import PyText.

(** [s.split(sep)] for a one-character separator: the pieces between the
    separators, empty ones included; never the empty list. *)
Fixpoint split_on (sep : ascii) (s : string) : list string :=
  match s with
  | EmptyString => [EmptyString]
  | String c r =>
      if Ascii.eqb c sep then EmptyString :: split_on sep r
      else match split_on sep r with
           | w :: ws => String c w :: ws
           | [] => [String c EmptyString]
           end
  end.

(** [s.rfind(c)], -1 when [c] does not occur; [i] is the index of the
    first character of [s]. *)
Fixpoint rfind_from (i : Z) (c : ascii) (s : string) : Z :=
  match s with
  | EmptyString => (-1)%Z
  | String c' r =>
      let later := rfind_from (i + 1) c r in
      if (0 <=? later)%Z then later
      else if Ascii.eqb c' c then i else (-1)%Z
  end.

Definition rfind (c : ascii) (s : string) : Z := rfind_from 0 c s.

(** Every character of [s] is a dot. *)
Fixpoint all_dots (s : string) : bool :=
  match s with
  | EmptyString => true
  | String c r => Ascii.eqb c "." && all_dots r
  end.

(** [os.path.splitext(p)[0]], with the separators of the platform: the
    path without its extension, where a name made of leading dots only
    has none. *)
Definition splitext_root (seps : list ascii) (p : string) : string :=
  let sepIndex := fold_left (fun i c => Z.max i (rfind c p)) seps (-1)%Z in
  let dotIndex := rfind "." p in
  if (sepIndex <? dotIndex)%Z then
    let filenameIndex := (sepIndex + 1)%Z in
    if all_dots (substring (Z.to_nat filenameIndex)
                   (Z.to_nat (dotIndex - filenameIndex)) p)
    then p
    else substring 0 (Z.to_nat dotIndex) p
  else p.

(** What the scan reads from the host. *)
Record PathEnv := MkPathEnv {
  env_PATH : string;                  (* os.environ.get("PATH", "") *)
  pathsep : ascii;                    (* os.pathsep *)
  seps : list ascii;                  (* os.sep and os.altsep *)
  path_join : string -> string -> string;       (* os.path.join *)
  isdir : string -> bool;             (* os.path.isdir *)
  listdir : string -> result (list string);     (* os.listdir *)
  access_x : string -> bool;          (* os.access(p, os.X_OK) *)
  env_stdout_fault : string -> option exn       (* what print raises *)
}.

(** The names one directory entry adds to the set of executables. *)
Definition command_of (env : PathEnv) (path_dir filename : string)
  : option string :=
  let filepath := path_join env path_dir filename in
  if access_x env filepath && negb (isdir env filepath)
  then
    let command_name := splitext_root (seps env) filename in
    Some (lower command_name)
  else None.

(** The inner loop over the entries of a directory. *)
Definition add_commands (env : PathEnv) (path_dir : string)
    (filenames : list string) (executables : gset string) : gset string :=
  fold_left
    (fun executables filename =>
       match command_of env path_dir filename with
       | Some command => {[ command ]} ∪ executables
       | None => executables
       end)
    filenames executables.

(** The outer loop over the directories of PATH. *)
Fixpoint scan_directories (env : PathEnv) (dirs : list string)
    (executables : gset string) : result (gset string) :=
  match dirs with
  | [] => Ok executables
  | path_dir :: rest =>
      if negb (isdir env path_dir) then scan_directories env rest executables
      else
        match listdir env path_dir with
        | Ok filenames =>
            scan_directories env rest
              (add_commands env path_dir filenames executables)
        | Raise e =>
            if caught_by [OSError] e
            then scan_directories env rest executables
            else Raise e
        end
  end.

Definition discover_executables_from_path (env : PathEnv)
  : result (gset string) :=
  let executables : gset string := ∅ in
  let system_path := env_PATH env in
  if negb (truthy system_path) then
    let? _ := write (env_stdout_fault env)
                ("⚠️ WARNING: PATH environment variable is not set. "
                 ++ "No commands will be found.") in
    Ok executables
  else
    let? _ := write (env_stdout_fault env)
                ("Scanning directories in PATH: " ++ system_path) in
    scan_directories env (split_on (pathsep env) system_path) executables.

(** A directory entry that the scan takes for a command. *)
Definition yields (env : PathEnv) (command : string) : Prop :=
  exists path_dir filenames filename,
    path_dir ∈ split_on (pathsep env) (env_PATH env)
    /\ isdir env path_dir = true
    /\ listdir env path_dir = Ok filenames
    /\ filename ∈ filenames
    /\ access_x env (path_join env path_dir filename) = true
    /\ isdir env (path_join env path_dir filename) = false
    /\ command = lower (splitext_root (seps env) filename).

(** A host with two directories on its PATH, one of which cannot be
    listed. *)
Definition two_directories : PathEnv :=
  MkPathEnv "/bin:/locked" ":" ["/"%char]
    (fun d f => d ++ "/" ++ f)
    (fun p => String.eqb p "/bin" || String.eqb p "/locked"
              || String.eqb p "/bin/X11")
    (fun d => if String.eqb d "/bin"
              then Ok ["LS"; "tar.exe"; ".profile"; "X11"; "notes.txt"]
              else Raise (Exn OSError "Permission denied"))
    (fun p => negb (String.eqb p "/bin/notes.txt"))
    (fun _ => None).

(** A host without a PATH, on a console that cannot encode characters
    beyond ASCII. *)
Definition no_path : PathEnv :=
  MkPathEnv "" ":" ["/"%char] (fun d f => d ++ "/" ++ f) (fun _ => false)
    (fun _ => Ok []) (fun _ => false) Samples.ascii_only.

End PathScan.

(** ** The store wrapper and the index ([agent_core.py]) *)

Module Store.
Import PyText Adapter Cache.

(** [hasattr(tool, "name")] *)
Definition has_name (tool : gmap string string) : bool :=
  bool_decide (is_Some (tool !! "name")).

(** [MilvusStoreWrapper.put] *)
Definition store_put (key : string) (value : gmap string string)
  : Eff (gmap string (gmap string string)) unit :=
  fun tool_registry => (Ok tt, <[key := value]> tool_registry).

(** [MilvusStoreWrapper.delete] *)
Definition store_delete (key : string)
  : Eff (gmap string (gmap string string)) unit :=
  fun tool_registry =>
    if bool_decide (is_Some (tool_registry !! key))
    then (Ok tt, delete key tool_registry)
    else (Ok tt, tool_registry).

(** [Document(page_content=f"{tool.name}: {tool.description}",
    metadata={"tool_id": tool_id})], with its page content. *)
Definition document_of (tool_id : string) (tool : gmap string string)
  : result (string * Document) :=
  match tool !! "name" with
  | None => Raise no_name
  | Some tool_name =>
      match tool !! "description" with
      | None => Raise (Exn AttributeError
                         "object has no attribute 'description'")
      | Some tool_description =>
          Ok (tool_name ++ ": " ++ tool_description,
              MkDocument {[ "tool_id" := tool_id ]})
      end
  end.

Fixpoint documents_of (items : list (string * gmap string string))
  : result (list (string * Document)) :=
  match items with
  | [] => Ok []
  | (tool_id, tool) :: rest =>
      let? doc := document_of tool_id tool in
      let? docs := documents_of rest in
      Ok (doc :: docs)
  end.

(** [documents_to_index] of [create_bigtool_agent]; the order of the
    entries of the dictionary is not modelled. *)
Definition documents_to_index (tool_registry : gmap string (gmap string string))
  : result (list (string * Document)) :=
  documents_of (map_to_list tool_registry).

Section Wrapper.
Variable str_of : value -> string.
Variable Score : Type.
Variable similarity_search_with_score :
  string -> value -> result (list (Document * Score)).
Variable rt : Runtime Score.

(** [f"{key}"]: a string as it is, anything else through [str]. *)
Definition key_text (key : value) : result string :=
  match key with
  | VStr s => Ok s
  | _ =>
      match str_fault Score rt key with
      | Some e => Raise e
      | None => Ok (str_of key)
      end
  end.

(** [hash(v)] succeeds: lists are not hashable, tuples are when their
    items are. *)
Fixpoint hashable (v : value) : bool :=
  match v with
  | VList _ => false
  | VTuple items => forallb hashable items
  | _ => true
  end.

(** [tool_registry.get(key)]; the keys of the registry are strings. *)
Definition registry_get (tool_registry : gmap string (gmap string string))
    (key : value) : result (option (gmap string string)) :=
  match key with
  | VStr k => Ok (tool_registry !! k)
  | _ => if hashable key then Ok None
         else Raise (Exn TypeError "unhashable type")
  end.

(** [MilvusStoreWrapper.get] *)
Definition store_get (key : value)
  : Eff (gmap string (gmap string string)) (option (gmap string string)) :=
  fun tool_registry =>
    (let? text := key_text key in
     let? _ := write (rt_stdout_fault Score rt)
                 ("Debug: get() called for key: " ++ text) in
     let? tool := registry_get tool_registry key in
     let? _ :=
       match tool with
       | Some t =>
           if truth Score rt t then
             match t !! "name" with
             | Some tool_name =>
                 write (rt_stdout_fault Score rt)
                   ("Debug: Retrieved tool: " ++ tool_name)
             | None => Raise no_name
             end
           else write (rt_stdout_fault Score rt)
                  ("Debug: Tool not found for key: " ++ text)
       | None => write (rt_stdout_fault Score rt)
                   ("Debug: Tool not found for key: " ++ text)
       end in
     Ok tool,
     tool_registry).

(** The registry the wrapper refers to in a batch. *)
Variable tool_registry : gmap string (gmap string string).

(** What one operation of a batch gives: the results of a search (also
    the empty list of an operation that is not supported) or the tool of a
    lookup. *)
Inductive batch_result :=
| Found (search_results : list (SearchResult Score))
| Got (tool : option (gmap string string)).

(** [op.attr] *)
Definition attribute (op : list (string * value)) (attr : string)
  : result value :=
  match getattr op attr with
  | Some v => Ok v
  | None => Raise (Exn AttributeError ("object has no attribute " ++ attr))
  end.

(** One turn of the loop of [batch]. *)
Definition batch_step (op : list (string * value)) : result batch_result :=
  match getattr op "operation" with
  | Some (VStr operation) =>
      if String.eqb operation "search" then
        let? query := attribute op "query" in
        let? k := attribute op "k" in
        let? found := search str_of Score similarity_search_with_score rt
                        tool_registry [query; k] ∅ in
        Ok (Found found)
      else if String.eqb operation "get" then
        let? key := attribute op "key" in
        let? tool := fst (store_get key tool_registry) in
        Ok (Got tool)
      else Ok (Found [])
  | _ => Ok (Found [])
  end.

(** [MilvusStoreWrapper.batch] *)
Fixpoint batch (operations : list (list (string * value)))
  : result (list batch_result) :=
  match operations with
  | [] => Ok []
  | op :: rest =>
      let? r := batch_step op in
      let? results := batch rest in
      Ok (r :: results)
  end.

End Wrapper.

Arguments Found {Score} search_results.
Arguments Got {Score} tool.

(** Every tool of the registry has a name. *)
Definition all_named (tool_registry : gmap string (gmap string string))
  : Prop :=
  forall id tool, tool_registry !! id = Some tool -> has_name tool = true.

End Store.

(** ** The direct command path of the front end ([main.py]) *)

Module Direct.
Import PyText Gateway.

(** Every character of [s] is white space. *)
Fixpoint blank (s : string) : bool :=
  match s with
  | EmptyString => true
  | String c r => isspace c && blank r
  end.

Definition index_error : exn := Exn IndexError "list index out of range".

Section WithProcesses.
Variable subprocess_run : list string -> list string -> launch.

Definition direct_output (r : CompletedProcess) : string :=
  let output := "" in
  let output := if truthy (stdout r) then output ++ stdout r else output in
  let output :=
    if truthy (stderr r) then output ++ "STDERR:" ++ nl ++ stderr r
    else output in
  output.

Definition safe_direct_execute (command_string : string) : M string :=
  if negb (truthy command_string) then ret ""
  else
    let parts := split (strip command_string) in
    match parts with
    | [] => raise index_error
    | first :: _ =>
        let command_name := lower first in
        if String.eqb command_name "sudo"
        then ret "Error: sudo access is forbidden."
        else
          try_except
            (let! result := run subprocess_run parts in
             ret (direct_output result))
            (fun e =>
               if caught_by [FileNotFoundError] e
               then Some (ret ("Error: Command '" ++ command_name
                               ++ "' not found."))
               else Some (ret ("An error occurred: " ++ exn_str e)))
    end.

End WithProcesses.

Section Autocomplete.
Variable Blob : Type.
Variable blob_size : Blob -> Z.
Variable pickle_load : Blob -> result Cache.unpickled.
Variable refused : Cache.os_op -> bool.
Variable stdout_fault : string -> option exn.
(** What [load_system_command_tools()] does here: it returns the tools,
    or raises (its own messages go to the same console). *)
Variable scan : result (list Scanner.Tool).

(** [[tool.name for tool in cached_registry.values()]]; the order of the
    values of the dictionary is not modelled. *)
Fixpoint names_of (items : list (string * gmap string string))
  : result (list string) :=
  match items with
  | [] => Ok []
  | (_, tool) :: rest =>
      match tool !! "name" with
      | Some tool_name =>
          let? names := names_of rest in Ok (tool_name :: names)
      | None => Raise Adapter.no_name
      end
  end.

Definition basic_commands : list string := ["ai"; "exit"; "quit"; "clear"].

(** The slower way: the names of the tools of a fresh scan. *)
Definition scanned_names : Eff (gmap string Blob) (list string) :=
  do! print stdout_fault
        "Loading tools for autocomplete (this may take a moment)..." in
  match scan with
  | Ok tools => ret (Scanner.name <$> tools)
  | Raise e =>
      do! print stdout_fault
            ("Warning: Could not load tools for autocomplete: "
             ++ exn_str e) in
      ret basic_commands
  end.

Definition get_autocomplete_list : Eff (gmap string Blob) (list string) :=
  let! cached_registry :=
    Cache.load_tool_registry_from_cache Blob blob_size pickle_load refused
      stdout_fault in
  match cached_registry with
  | Some cached_registry =>
      match names_of (map_to_list cached_registry) with
      | Ok names => ret names
      | Raise e =>
          do! print stdout_fault
                ("Warning: Could not extract tool names from cache: "
                 ++ exn_str e) in
          scanned_names
      end
  | None => scanned_names
  end.

End Autocomplete.

End Direct.

(** * Properties *)

(** ** Text *)

Module PyTextFacts.
Import PyText.

Lemma rstrip_cons_nonspace c r :
  isspace c = false -> rstrip (String c r) = String c (rstrip r).
Proof.
  intros Hc. cbn [rstrip]. rewrite Hc. now destruct (rstrip r).
Qed.

Lemma prefix_split p s :
  String.prefix p s = true -> exists r, s = p ++ r.
Proof.
  revert s. induction p as [|c p IH]; intros s H.
  - now exists s.
  - destruct s as [|c' s']; [discriminate|].
    cbn [String.prefix] in H.
    destruct (Ascii.ascii_dec c c') as [->|]; [|discriminate].
    destruct (IH _ H) as [r ->]. now exists r.
Qed.

Lemma startswith_sudo_strip args :
  startswith args "sudo" = true -> startswith (strip args) "sudo" = true.
Proof.
  unfold startswith. intros H.
  destruct (prefix_split _ _ H) as [r ->].
  change ("sudo" ++ r)
    with (String "s" (String "u" (String "d" (String "o" r)))).
  unfold strip. change (lstrip (String "s" ?x)) with (String "s" x).
  rewrite !rstrip_cons_nonspace by reflexivity.
  generalize (rstrip r). intros [|c t]; reflexivity.
Qed.

End PyTextFacts.

(** ** The execution gateway *)

Module GatewayFacts.
Import PyText Gateway.

Lemma say_ok text h :
  accepts_all (stdout_fault h) -> say text h = (Ok tt, h).
Proof. intros Hq. unfold say, print, write. now rewrite Hq. Qed.

Lemma say_cases text h :
  (stdout_fault h text = None /\ say text h = (Ok tt, h))
  \/ exists e, stdout_fault h text = Some e /\ say text h = (Raise e, h).
Proof.
  unfold say, print, write. destruct (stdout_fault h text) as [e|]; eauto.
Qed.

(** The checkpoint, case by case: it raises with the host as it was, or
    it declines with the host as it was (the input at its end), or it has
    read one line and answers whether that line is the affirmative
    reply. *)
Lemma confirmation_cases name args h :
  (exists e, human_in_the_loop_confirmation name args h = (Raise e, h))
  \/ human_in_the_loop_confirmation name args h = (Ok false, h)
  \/ exists line rest,
       stdin h = line :: rest
       /\ stdin_fault h = None
       /\ human_in_the_loop_confirmation name args h
          = (Ok (String.eqb (strip (lower line)) "yes"),
             MkHost rest (stdin_fault h) (stdout_fault h) (spawned h)).
Proof.
  remember (human_in_the_loop_confirmation name args h) as r eqn:Hr.
  unfold human_in_the_loop_confirmation in Hr.
  repeat (unfold bind at 1 in Hr;
          match type of Hr with
          | context [say ?t h] =>
              destruct (say_cases t h) as [[_ Hs] | (e & _ & Hs)];
              rewrite Hs in Hr; clear Hs; [|left; eauto]
          end).
  unfold try_except, input, bind in Hr.
  destruct (say_cases "Do you want to proceed? (yes/no): " h)
    as [[_ Hs] | (e & _ & Hs)]; rewrite Hs in Hr; clear Hs.
  - unfold read_line in Hr. destruct (stdin_fault h) as [e|] eqn:Hf.
    + destruct (caught_by [EOFError] e); [right; left; exact Hr|].
      left. eauto.
    + destruct (stdin h) as [|line rest] eqn:Hin.
      * right. left. exact Hr.
      * right. right. exists line, rest. auto.
  - destruct (caught_by [EOFError] e); [right; left; exact Hr|].
    left. eauto.
Qed.

(** On a console that works the checkpoint reads one line and answers
    whether it is the affirmative reply. *)
Lemma confirmation_outcome name args h :
  console_works h ->
  human_in_the_loop_confirmation name args h
  = (Ok (affirmative h),
     MkHost (tail (stdin h)) (stdin_fault h) (stdout_fault h) (spawned h)).
Proof.
  intros [Hout Hin]. unfold human_in_the_loop_confirmation.
  repeat (unfold bind at 1; rewrite say_ok by exact Hout).
  unfold try_except, input, bind. rewrite say_ok by exact Hout.
  unfold read_line, affirmative, pending_reply. rewrite Hin.
  destruct h as [[|line rest] fin fout sp]; cbn in *; subst; reflexivity.
Qed.

Section Facts.
Variable run : list string -> list string -> launch.

Lemma blocked_returns name args h :
  elevation_blocked (normalize_name name) args = true ->
  _execute_command run name args h = (Ok sudo_rejection, h).
Proof. unfold _execute_command. now intros ->. Qed.

(** The [try] block with its [except] clauses, case by case: the message
    that announces the command cannot be written, or the child process
    cannot be started, or it is started. *)
Lemma report_cases command_name args h :
  let argv := command_name :: split args in
  let attempt :=
    try_except (run_and_report run command_name args)
      (fun e => Some (ret (fault_message command_name e))) h in
  (exists e,
     stdout_fault h (" L Executing: " ++ join " " argv) = Some e
     /\ attempt = (Ok (fault_message command_name e), h))
  \/ (stdout_fault h (" L Executing: " ++ join " " argv) = None
      /\ ((exists e,
             run argv (stdin h) = NotStarted e
             /\ attempt = (Ok (fault_message command_name e), h))
          \/ exists consumed outcome,
               run argv (stdin h) = Started consumed outcome
               /\ attempt
                  = (Ok match outcome with
                        | Ok r => format_output r
                        | Raise e => fault_message command_name e
                        end,
                     MkHost (drop consumed (stdin h)) (stdin_fault h)
                       (stdout_fault h)
                       (spawned h ++ [argv])%list))).
Proof.
  intros argv attempt.
  assert (Hr : attempt
               = try_except (run_and_report run command_name args)
                   (fun e => Some (ret (fault_message command_name e))) h)
    by reflexivity.
  clearbody attempt. unfold try_except, run_and_report in Hr.
  fold argv in Hr. unfold bind at 1 in Hr.
  destruct (say_cases (" L Executing: " ++ join " " argv) h)
    as [[Hn Hs] | (e & He & Hs)]; rewrite Hs in Hr; clear Hs.
  - right. split; [exact Hn|]. unfold bind, Gateway.run, ret in Hr.
    destruct (run argv (stdin h)) as [e|consumed outcome].
    + left. exists e. split; [reflexivity|exact Hr].
    + right. exists consumed, outcome. split; [reflexivity|].
      rewrite Hr. now destruct outcome.
  - left. exists e. split; [exact He|exact Hr].
Qed.

(** The call in terms of the checkpoint and the [try] block. *)
Lemma execute_unfold name args h :
  _execute_command run name args h
  = if elevation_blocked (normalize_name name) args
    then (Ok sudo_rejection, h)
    else
      let attempt :=
        try_except (run_and_report run (normalize_name name) args)
          (fun e => Some (ret (fault_message (normalize_name name) e))) in
      if destructive name then
        match human_in_the_loop_confirmation (normalize_name name) args h
        with
        | (Ok true, h') => attempt h'
        | (Ok false, h') => (Ok cancellation, h')
        | (Raise e, h') => (Raise e, h')
        end
      else attempt h.
Proof.
  unfold _execute_command, destructive.
  destruct (elevation_blocked _ _); [reflexivity|].
  destruct (bool_decide _); unfold bind at 1.
  - destruct (human_in_the_loop_confirmation _ _ _) as [[[]|e] h'];
      reflexivity.
  - reflexivity.
Qed.

End Facts.

Lemma sudo_not_destructive name :
  destructive name = true -> String.eqb (normalize_name name) "sudo" = false.
Proof.
  unfold destructive. intros H.
  destruct (String.eqb (normalize_name name) "sudo") eqn:E; [|reflexivity].
  apply String.eqb_eq in E. rewrite E in H. vm_compute in H. discriminate.
Qed.

(** The names of the destructive set are in normal form. *)
Lemma listed_is_destructive name :
  name ∈ DANGEROUS_COMMANDS -> destructive name = true.
Proof.
  unfold DANGEROUS_COMMANDS. rewrite !elem_of_union, !elem_of_singleton.
  intros H. repeat destruct H as [H | H]; subst; reflexivity.
Qed.

Lemma class_not_caught (c : exn_class) msg :
  forall target,
    c <> target -> target <> OSError -> target <> PickleError ->
    target <> ValueError ->
    caught_by [target] (Exn c msg) = false.
Proof.
  intros target Hne Hos Hpk Hv. unfold caught_by. cbn.
  destruct c, target; try reflexivity; congruence.
Qed.

Lemma works_console lines : console_works (Samples.console lines).
Proof. split; [intros text|]; reflexivity. Qed.

Example execute_reports_streams :
  _execute_command (Samples.always_prints "a.txt") "LS" " -l  /tmp "
    (Samples.console [])
  = (Ok ("STDOUT:" ++ nl ++ "a.txt" ++ nl),
     MkHost [] None (fun _ => None) [["ls"; "-l"; "/tmp"]]).
Proof. reflexivity. Qed.

Example execute_confirmed_runs :
  _execute_command Samples.always_hangs "rm" "-rf build"
    (Samples.console [" Yes "; "next line"])
  = (Ok "Error: Command timed out after 30 seconds.",
     MkHost ["next line"] None (fun _ => None) [["rm"; "-rf"; "build"]]).
Proof. vm_compute. reflexivity. Qed.

(** A command that is not found starts no process. *)
Example execute_missing_starts_nothing :
  _execute_command Samples.nothing_installed "frobnicate" "--now"
    (Samples.console ["next line"])
  = (Ok "Error: Command 'frobnicate' not found.",
     Samples.console ["next line"]).
Proof. vm_compute. reflexivity. Qed.

(** The child process inherits the console: an interactive command reads
    the input that was pending. *)
Example child_reads_pending_input :
  stdin (snd (_execute_command Samples.always_reads "cat" ""
                (Samples.console ["one"; "two"])))
  = [].
Proof. vm_compute. reflexivity. Qed.

(** With the input closed otherwise than by its end, the checkpoint
    raises what [input] raises. *)
Example closed_input_raises :
  fst (_execute_command Samples.always_hangs "rm" "-rf build"
         (Samples.closed_console []))
  = Raise (Exn ValueError "I/O operation on closed file.").
Proof. vm_compute. reflexivity. Qed.

(** The three commands are those with which the exclusion list of the
    scanner begins. *)
Lemma elevation_commands_excluded :
  Forall (fun c => c ∈ Scanner.BASE_COMMANDS_TO_EXCLUDE)
    privilege_elevation_commands.
Proof.
  unfold privilege_elevation_commands, Scanner.BASE_COMMANDS_TO_EXCLUDE.
  repeat constructor; set_solver.
Qed.

(** C1 as stated fails: "su" is a privilege-elevation command, and a
    call of "su" is not rejected; a child process is started. *)
Lemma elevation_block_as_stated_fails : ~ elevation_block_as_stated.
Proof.
  intros H.
  assert (Hin : normalize_name "su" ∈ privilege_elevation_commands).
  { change (normalize_name "su") with "su".
    apply list_elem_of_further, list_elem_of_here. }
  specialize (H Samples.always_hangs "su" "-c id" (Samples.console []) Hin).
  apply (f_equal fst) in H. vm_compute in H. discriminate H.
Qed.

(** Nor is the test on the arguments one of letter case: "SUDO id" is
    passed on. *)
Example upper_case_sudo_runs :
  spawned (snd (_execute_command Samples.always_hangs "env" "SUDO id"
                  (Samples.console [])))
  = [["env"; "SUDO"; "id"]].
Proof. vm_compute. reflexivity. Qed.

(** C1, amended.  A call whose name is "sudo" once lowercased and
    trimmed, and a call whose argument string begins with "sudo", returns
    the fixed rejection string at once: the console and the process table
    are as they were, so no child process was started.  In particular
    execute("sudo", a) is rejected for every argument string a. *)
Theorem elevation_block_rejects :
  (forall run name args h,
      normalize_name name = "sudo" \/ startswith args "sudo" = true ->
      _execute_command run name args h
      = (Ok "Error: sudo access is strictly forbidden.", h))
  /\ (forall run a h,
        _execute_command run "sudo" a h
        = (Ok "Error: sudo access is strictly forbidden.", h)).
Proof.
  split.
  - intros run name args h H. apply blocked_returns.
    unfold elevation_blocked. destruct H as [-> | H]; [reflexivity|].
    apply orb_true_iff. right.
    rewrite (PyTextFacts.startswith_sudo_strip _ H), andb_true_r.
    destruct args; [discriminate H | reflexivity].
  - intros run a h. now apply blocked_returns.
Qed.

Lemma elevation_block_rejects_witness :
  (normalize_name "  SuDo " = "sudo" \/ startswith "-rf /" "sudo" = true)
  /\ _execute_command Samples.nothing_installed "  SuDo " "-rf /"
       (Samples.console ["yes"])
     = (Ok "Error: sudo access is strictly forbidden.",
        Samples.console ["yes"]).
Proof.
  assert (H : normalize_name "  SuDo " = "sudo"
              \/ startswith "-rf /" "sudo" = true)
    by (left; vm_compute; reflexivity).
  split; [exact H|].
  exact (proj1 elevation_block_rejects Samples.nothing_installed
           "  SuDo " "-rf /" (Samples.console ["yes"]) H).
Defined.

(** C10.  The elevation check on the arguments is a prefix test on the
    trimmed argument string, not a comparison of its first token: every
    argument string whose trimmed form begins with the characters "sudo"
    is rejected without a child process, under any command name, and so
    is "sudoedit /etc/hosts", whose first token is "sudoedit". *)
Theorem sudo_prefix_of_arguments_rejects :
  (forall run name args h,
      startswith (strip args) "sudo" = true ->
      _execute_command run name args h
      = (Ok "Error: sudo access is strictly forbidden.", h))
  /\ head (split "sudoedit /etc/hosts") = Some "sudoedit"
  /\ (forall run name h,
        _execute_command run name "sudoedit /etc/hosts" h
        = (Ok "Error: sudo access is strictly forbidden.", h)).
Proof.
  assert (Hgen : forall run name args h,
             startswith (strip args) "sudo" = true ->
             _execute_command run name args h = (Ok sudo_rejection, h)).
  { intros run name args h H. apply blocked_returns.
    unfold elevation_blocked. apply orb_true_iff. right. rewrite H.
    destruct args; [discriminate H | reflexivity]. }
  split; [exact Hgen|]. split; [reflexivity|].
  intros run name h. now apply Hgen.
Qed.

Lemma sudo_prefix_of_arguments_rejects_witness :
  startswith (strip "  sudoers.d/list  ") "sudo" = true
  /\ _execute_command Samples.always_hangs "cat" "  sudoers.d/list  "
       (Samples.console [])
     = (Ok "Error: sudo access is strictly forbidden.", Samples.console []).
Proof.
  assert (H : startswith (strip "  sudoers.d/list  ") "sudo" = true)
    by (vm_compute; reflexivity).
  split; [exact H|].
  exact (proj1 sudo_prefix_of_arguments_rejects Samples.always_hangs
           "cat" "  sudoers.d/list  " (Samples.console []) H).
Defined.

(** C2 as stated fails: the reply " YES " is not the exact affirmative
    reply, and yet "rm -rf build" is run. *)
Lemma confirmation_gate_as_stated_fails : ~ confirmation_gate_as_stated.
Proof.
  intros H.
  assert (Hin : "rm" ∈ DANGEROUS_COMMANDS)
    by (apply (bool_decide_unpack _); vm_compute; exact I).
  destruct (H (Samples.always_prints "removed") "rm" "-rf build"
              (Samples.console [" YES "]) Hin eq_refl
              (works_console _) eq_refl) as [Hret _].
  vm_compute in Hret. discriminate Hret.
Qed.

(** C2, amended.  For a command name that is in the destructive set once
    lowercased and trimmed, when the reply, lowercased and trimmed, is
    not "yes" or the input is at its end, execute starts no child
    process, whatever the console does.  On a console that works it
    returns "Execution cancelled by user.", or the sudo rejection when
    the trimmed argument string begins with "sudo", the elevation block
    coming first. *)
Theorem confirmation_gate_cancels run name args h :
  destructive name = true ->
  affirmative h = false ->
  spawned (snd (_execute_command run name args h)) = spawned h
  /\ (console_works h ->
      (startswith (strip args) "sudo" = false ->
       fst (_execute_command run name args h)
       = Ok "Execution cancelled by user.")
      /\ (startswith (strip args) "sudo" = true ->
          fst (_execute_command run name args h)
          = Ok "Error: sudo access is strictly forbidden.")).
Proof.
  intros Hd Hno.
  pose proof (sudo_not_destructive _ Hd) as Hns.
  rewrite execute_unfold, Hd.
  destruct (elevation_blocked (normalize_name name) args) eqn:Hb.
  - cbn [fst snd]. split; [reflexivity|]. intros _.
    unfold elevation_blocked in Hb. rewrite Hns in Hb. cbn [orb] in Hb.
    apply andb_true_iff in Hb as [_ Hb].
    split; [congruence | reflexivity].
  - cbv zeta. split.
    + destruct (confirmation_cases (normalize_name name) args h)
        as [[e ->] | [-> | (line & rest & Hin & _ & ->)]];
        [reflexivity | reflexivity |].
      unfold affirmative, pending_reply in Hno. rewrite Hin in Hno.
      rewrite Hno. reflexivity.
    + intros Hw. rewrite (confirmation_outcome _ _ _ Hw), Hno. cbn [fst].
      split; [reflexivity|].
      intros Hp. unfold elevation_blocked in Hb. rewrite Hns, Hp in Hb.
      cbn [orb] in Hb. rewrite andb_true_r in Hb.
      destruct args; [discriminate Hp | discriminate Hb].
Qed.

Lemma confirmation_gate_cancels_witness :
  destructive " RM" = true
  /\ affirmative (Samples.console ["y"]) = false
  /\ spawned (snd (_execute_command Samples.nothing_installed " RM"
                     "-rf build" (Samples.console ["y"]))) = []
  /\ fst (_execute_command Samples.nothing_installed " RM" "-rf build"
            (Samples.console ["y"]))
     = Ok "Execution cancelled by user.".
Proof.
  assert (Hd : destructive " RM" = true) by (vm_compute; reflexivity).
  assert (Hn : affirmative (Samples.console ["y"]) = false)
    by (vm_compute; reflexivity).
  destruct (confirmation_gate_cancels Samples.nothing_installed " RM"
              "-rf build" (Samples.console ["y"]) Hd Hn) as (H1 & H2).
  split; [exact Hd|]. split; [exact Hn|]. split; [exact H1|].
  apply (H2 (works_console _)). vm_compute. reflexivity.
Defined.

(** C3 as stated fails: on a console that cannot encode the warning of
    the checkpoint, execute("rm", "-rf build") raises a
    UnicodeEncodeError. *)
Lemma boundary_as_stated_fails : ~ boundary_as_stated.
Proof.
  intros H.
  destruct (H Samples.always_hangs "rm" "-rf build"
              (Samples.ascii_console ["yes"])) as [text Ht].
  vm_compute in Ht. discriminate Ht.
Qed.

(** C3, amended.  An exception crosses the boundary of the gateway only
    from the confirmation checkpoint of a destructive command, which is
    called outside the [try]: what the checkpoint raises, execute
    raises.  On a console that works execute returns a text.  When the
    call then reaches the child process and the executable is missing,
    the text is exactly "Error: Command '<name>' not found." with the
    lowercased, trimmed name; when the 30 second limit is exceeded it is
    the fixed timeout message; for every other exception it is the
    generic message wrapping the exception's text. *)
Theorem execute_returns_text run name args h :
  (forall e,
      fst (_execute_command run name args h) = Raise e ->
      asked name args = true
      /\ fst (human_in_the_loop_confirmation (normalize_name name) args h)
         = Raise e)
  /\ (console_works h ->
      (exists text h', _execute_command run name args h = (Ok text, h'))
      /\ (gate_open name args h = true ->
          forall e,
            outcome_of (run (argv_of name args) (pending_at_run name args h))
            = Raise e ->
            (exn_cls e = FileNotFoundError ->
             fst (_execute_command run name args h)
             = Ok ("Error: Command '" ++ normalize_name name
                   ++ "' not found."))
            /\ (exn_cls e = TimeoutExpired ->
                fst (_execute_command run name args h)
                = Ok "Error: Command timed out after 30 seconds.")
            /\ (exn_cls e <> FileNotFoundError ->
                exn_cls e <> TimeoutExpired ->
                fst (_execute_command run name args h)
                = Ok ("An unexpected error occurred: " ++ exn_str e)))).
Proof.
  assert (Hattempt : forall h1, exists text h2,
             try_except (run_and_report run (normalize_name name) args)
               (fun e => Some (ret (fault_message (normalize_name name) e)))
               h1 = (Ok text, h2)).
  { intros h1.
    destruct (report_cases run (normalize_name name) args h1)
      as [(e & _ & ->) | [_ [(e & _ & ->) | (c & o & _ & ->)]]]; eauto. }
  split.
  - intros e. rewrite execute_unfold. unfold asked.
    destruct (elevation_blocked (normalize_name name) args);
      [discriminate|]. cbv zeta. cbn [negb andb].
    destruct (destructive name).
    + destruct (human_in_the_loop_confirmation _ _ _) as [[[]|e'] h'];
        cbn [fst].
      * destruct (Hattempt h') as (text & h2 & ->). discriminate.
      * discriminate.
      * intros [= ->]. auto.
    + destruct (Hattempt h) as (text & h2 & ->). discriminate.
  - intros Hw. split.
    + rewrite execute_unfold.
      destruct (elevation_blocked (normalize_name name) args); [eauto|].
      cbv zeta. destruct (destructive name); [|apply Hattempt].
      rewrite (confirmation_outcome _ _ _ Hw).
      destruct (affirmative h); [apply Hattempt|eauto].
    + intros Hgo e He.
      assert (Hrun : fst (_execute_command run name args h)
                     = Ok (fault_message (normalize_name name) e)).
      { rewrite execute_unfold. unfold gate_open in Hgo.
        unfold pending_at_run, asked in He.
        destruct (elevation_blocked (normalize_name name) args);
          [discriminate|]. cbn [negb andb] in Hgo, He. cbv zeta.
        set (h1 := if destructive name
                   then MkHost (tail (stdin h)) (stdin_fault h)
                          (stdout_fault h) (spawned h)
                   else h).
        assert (Hin : stdin h1
                      = if destructive name then tail (stdin h) else stdin h)
          by (subst h1; now destruct (destructive name)).
        assert (Hout : stdout_fault h1 = stdout_fault h)
          by (subst h1; now destruct (destructive name)).
        assert (Hexec :
                  (if destructive name
                   then
                     match human_in_the_loop_confirmation
                             (normalize_name name) args h with
                     | (Ok true, h') =>
                         try_except
                           (run_and_report run (normalize_name name) args)
                           (fun e =>
                              Some (ret (fault_message
                                           (normalize_name name) e))) h'
                     | (Ok false, h') => (Ok cancellation, h')
                     | (Raise e, h') => (Raise e, h')
                     end
                   else
                     try_except
                       (run_and_report run (normalize_name name) args)
                       (fun e =>
                          Some (ret (fault_message
                                       (normalize_name name) e))) h)
                  = try_except
                      (run_and_report run (normalize_name name) args)
                      (fun e =>
                         Some (ret (fault_message (normalize_name name) e)))
                      h1).
        { subst h1. destruct (destructive name); [|reflexivity].
          cbn [negb orb] in Hgo.
          now rewrite (confirmation_outcome _ _ _ Hw), Hgo. }
        rewrite Hexec.
        destruct (report_cases run (normalize_name name) args h1)
          as [(e' & Hf & _) | [_ [(e' & Hr & ->) | (c & o & Hr & ->)]]].
        - rewrite Hout, (proj1 Hw) in Hf. discriminate Hf.
        - rewrite Hin in Hr. unfold argv_of in He. rewrite Hr in He.
          cbn [outcome_of] in He. injection He as ->. reflexivity.
        - rewrite Hin in Hr. unfold argv_of in He. rewrite Hr in He.
          cbn [outcome_of] in He. subst o. reflexivity. }
      rewrite Hrun. unfold fault_message. destruct e as [c msg].
      cbn [exn_cls exn_str]. repeat split.
      * intros ->. reflexivity.
      * intros ->. reflexivity.
      * intros H1 H2.
        rewrite !class_not_caught by (assumption || discriminate).
        reflexivity.
Qed.

Lemma execute_returns_text_witness :
  console_works (Samples.console [])
  /\ gate_open "LS " "-l /tmp" (Samples.console []) = true
  /\ outcome_of (Samples.nothing_installed (argv_of "LS " "-l /tmp")
                   (pending_at_run "LS " "-l /tmp" (Samples.console [])))
     = Raise (Exn FileNotFoundError "No such file or directory")
  /\ fst (_execute_command Samples.nothing_installed "LS " "-l /tmp"
            (Samples.console []))
     = Ok "Error: Command 'ls' not found.".
Proof.
  assert (Hg : gate_open "LS " "-l /tmp" (Samples.console []) = true)
    by (vm_compute; reflexivity).
  split; [apply works_console|]. split; [exact Hg|].
  split; [reflexivity|].
  exact (proj1 (proj2 (proj2 (execute_returns_text
                                Samples.nothing_installed
                                "LS " "-l /tmp" (Samples.console []))
                         (works_console _)) Hg _ eq_refl) eq_refl).
Defined.

End GatewayFacts.

(** ** The capability scanner *)

Module ScannerFacts.
Import PyText Scanner.

(** *** Sampling *)

Lemma sample_length rnd k : forall i pool,
  (k <= length pool)%nat -> length (sample rnd i pool k) = k.
Proof.
  induction k as [|k IH]; intros i pool Hk; [reflexivity|].
  cbn [sample].
  assert (Hj : (rnd i mod length pool < length pool)%nat)
    by (apply Nat.mod_upper_bound; lia).
  destruct (lookup_lt_is_Some_2 _ _ Hj) as [x Hx]. rewrite Hx.
  cbn [length]. f_equal. apply IH.
  rewrite length_delete by eauto. lia.
Qed.

Lemma sample_elem_of rnd k : forall i pool x,
  x ∈ sample rnd i pool k -> x ∈ pool.
Proof.
  induction k as [|k IH]; intros i pool x; cbn [sample].
  - intros H. inversion H.
  - destruct (pool !! (rnd i mod length pool)%nat) as [y|] eqn:Hy.
    + intros [->|H]%elem_of_cons.
      * eapply list_elem_of_lookup_2, Hy.
      * eapply list_elem_of_delete_inv, IH, H.
    + intros H. inversion H.
Qed.

Lemma delete_not_elem_of (pool : list string) j x :
  NoDup pool -> pool !! j = Some x -> x ∉ delete j pool.
Proof.
  intros Hnd Hx. rewrite delete_take_drop.
  rewrite <- (take_drop_middle _ _ _ Hx) in Hnd.
  apply NoDup_app in Hnd as (_ & Hdis & Hnd).
  apply NoDup_cons in Hnd as [Hnot _].
  intros [Hin|Hin]%elem_of_app; [|contradiction].
  apply (Hdis _ Hin). now left.
Qed.

Lemma sample_NoDup rnd k : forall i pool,
  NoDup pool -> NoDup (sample rnd i pool k).
Proof.
  induction k as [|k IH]; intros i pool Hnd; cbn [sample]; [constructor|].
  destruct (pool !! (rnd i mod length pool)%nat) as [y|] eqn:Hy;
    [|constructor].
  apply NoDup_cons. split.
  - intros Hin%sample_elem_of. now apply (delete_not_elem_of _ _ _ Hnd Hy).
  - apply IH. exact (sublist_NoDup _ _ Hnd (sublist_delete _ _)).
Qed.

(** *** The candidates before the ceiling *)

Lemma initial_candidates_NoDup h : NoDup (initial_candidates h).
Proof.
  unfold initial_candidates. rewrite merge_sort_Permutation.
  apply NoDup_elements.
Qed.

Lemma elem_of_initial_candidates h c :
  c ∈ initial_candidates h <->
  c ∈ path_executables h
  /\ c ∉ BASE_COMMANDS_TO_EXCLUDE ∪ discover_package_managers h.
Proof.
  unfold initial_candidates. rewrite merge_sort_Permutation.
  rewrite elem_of_elements. set_solver.
Qed.

Lemma filter_agree (P Q : string -> Prop)
    `{!forall x, Decision (P x)} `{!forall x, Decision (Q x)}
    (l : list string) :
  (forall x, x ∈ l -> (P x <-> Q x)) -> filter P l = filter Q l.
Proof.
  induction l as [|a l IH]; intros Hag; [reflexivity|].
  assert (Ha : P a <-> Q a) by (apply Hag; now left).
  assert (Hl : filter P l = filter Q l)
    by (apply IH; intros x Hx; apply Hag; now right).
  destruct (decide (P a)).
  - rewrite !filter_cons_True by tauto. now rewrite Hl.
  - rewrite !filter_cons_False by tauto. exact Hl.
Qed.

Lemma append_found_NoDup h cmds : forall valid,
  NoDup valid -> NoDup (append_found h cmds valid).
Proof.
  unfold append_found.
  induction cmds as [|c cmds IH]; intros valid Hnd; [exact Hnd|].
  cbn [fold_left]. apply IH.
  destruct (which h c); cbn [andb]; [|exact Hnd].
  case_bool_decide; cbn [negb]; [exact Hnd|].
  apply NoDup_app. repeat split; [exact Hnd | | apply NoDup_singleton].
  intros x Hx ->%list_elem_of_singleton. contradiction.
Qed.

Lemma append_found_keeps h cmds : forall valid x,
  x ∈ valid -> x ∈ append_found h cmds valid.
Proof.
  unfold append_found.
  induction cmds as [|c cmds IH]; intros valid x Hx; [exact Hx|].
  cbn [fold_left]. apply IH.
  destruct (which h c && negb (bool_decide (c ∈ valid))); [|exact Hx].
  apply elem_of_app. now left.
Qed.

Lemma append_found_adds h cmds : forall valid c,
  c ∈ cmds -> which h c = true -> c ∈ append_found h cmds valid.
Proof.
  induction cmds as [|c' cmds IH]; intros valid c Hc Hw.
  - inversion Hc.
  - apply elem_of_cons in Hc as [<-|Hc].
    + unfold append_found. cbn [fold_left]. apply append_found_keeps.
      rewrite Hw. cbn [andb]. case_bool_decide as Hin; cbn [negb];
        [exact Hin|].
      apply elem_of_app. right. now left.
    + unfold append_found. cbn [fold_left]. now apply IH.
Qed.

Lemma append_found_origin h cmds : forall valid x,
  x ∈ append_found h cmds valid -> x ∈ valid \/ x ∈ cmds.
Proof.
  unfold append_found.
  induction cmds as [|c cmds IH]; intros valid x Hx; [now left|].
  cbn [fold_left] in Hx. apply IH in Hx as [Hx|Hx].
  - destruct (which h c && negb (bool_decide (c ∈ valid))).
    + apply elem_of_app in Hx as [Hx|Hx%list_elem_of_singleton];
        [now left | right; subst; now left].
    + now left.
  - right. now right.
Qed.

Lemma candidates_found_NoDup h : NoDup (candidates_found h).
Proof. apply append_found_NoDup, initial_candidates_NoDup. Qed.

(** No essential command is excluded from the scan. *)
Lemma essential_not_excluded h c :
  c ∈ essential_commands ->
  c ∉ BASE_COMMANDS_TO_EXCLUDE ∪ discover_package_managers h.
Proof.
  intros Hc.
  assert (Hbase : c ∉ BASE_COMMANDS_TO_EXCLUDE).
  { unfold essential_commands in Hc.
    repeat (apply elem_of_cons in Hc as [->|Hc];
            [apply (bool_decide_eq_false_1 _); vm_compute; reflexivity|]).
    inversion Hc. }
  assert (Hpm : c ∉ discover_package_managers h).
  { unfold discover_package_managers.
    rewrite elem_of_list_to_set, list_elem_of_In, filter_In, <- list_elem_of_In.
    intros [Hk _]. revert Hk. unfold known_managers.
    unfold essential_commands in Hc.
    destruct (String.eqb (system h) "Linux");
      [|destruct (String.eqb (system h) "Darwin");
        [|destruct (String.eqb (system h) "Windows")]];
      repeat (apply elem_of_cons in Hc as [->|Hc];
              [apply (bool_decide_eq_false_1 _); vm_compute; reflexivity|]);
      inversion Hc. }
  intros [?|?]%elem_of_union; contradiction.
Qed.

(** An essential command is among the candidates exactly when it is
    present on the host. *)
Lemma essential_candidate_iff_present h c :
  c ∈ essential_commands ->
  (c ∈ candidates_found h <-> present h c = true).
Proof.
  intros Hc. unfold candidates_found, add_essential, present.
  rewrite orb_true_iff, bool_decide_eq_true. split.
  - intros Hin.
    destruct (which h c) eqn:Hw; [now left|]. right.
    assert (Hgen : forall cmds valid,
               c ∈ append_found h cmds valid -> c ∈ valid).
    { unfold append_found.
      induction cmds as [|c' cmds IH]; intros valid Hx; [exact Hx|].
      cbn [fold_left] in Hx. apply IH in Hx.
      destruct (which h c') eqn:Hw'; cbn [andb] in Hx; [|exact Hx].
      destruct (negb (bool_decide (c' ∈ valid))); [|exact Hx].
      apply elem_of_app in Hx as [Hx|Hx%list_elem_of_singleton];
        [exact Hx | congruence]. }
    apply Hgen in Hin. now apply elem_of_initial_candidates in Hin as [? _].
  - intros [Hw|Hin].
    + now apply append_found_adds.
    + apply append_found_keeps, elem_of_initial_candidates.
      split; [exact Hin | now apply essential_not_excluded].
Qed.

Lemma essential_commands_NoDup : NoDup essential_commands.
Proof. apply (bool_decide_unpack _). vm_compute. exact I. Qed.

(** The essential commands kept by the ceiling are the present ones. *)
Lemma essential_found_present h :
  filter (fun cmd => cmd ∈ candidates_found h) essential_commands
  = present_essential h.
Proof.
  unfold present_essential. apply filter_agree.
  intros x Hx. now apply essential_candidate_iff_present.
Qed.

(** The candidates split into the essential ones and the others. *)
Lemma candidates_split (valid : list string) :
  NoDup valid ->
  (length (filter (fun cmd => cmd ∈ valid) essential_commands)
   + length (filter (fun cmd => cmd ∉ essential_commands) valid))%nat
  = length valid.
Proof.
  intros Hnd.
  pose proof (Permutation_length
                (filter_app_complement
                   (fun c => c ∈ essential_commands) valid)) as Hp.
  rewrite length_app in Hp. rewrite <- Hp. f_equal.
  apply Permutation_length, NoDup_Permutation.
  - apply NoDup_filter, essential_commands_NoDup.
  - now apply NoDup_filter.
  - intros x. rewrite !list_elem_of_filter. tauto.
Qed.

(** *** The ceiling *)

(** C5.  When the candidates outnumber the ceiling and fewer essential
    commands than the ceiling are present on the host, the final candidate
    list has exactly as many entries as the ceiling, contains every
    essential command that is present, and consists of the present
    essential commands followed by a sample, without repetition, of the
    candidates that are not essential. *)
Theorem ceiling_keeps_essentials h :
  (MAX_TOOLS_TO_CREATE < Z.of_nat (length (candidates_found h)))%Z ->
  (Z.of_nat (length (present_essential h)) < MAX_TOOLS_TO_CREATE)%Z ->
  Z.of_nat (length (final_candidates h)) = MAX_TOOLS_TO_CREATE
  /\ (forall cmd,
        cmd ∈ essential_commands -> present h cmd = true ->
        cmd ∈ final_candidates h)
  /\ exists sampled,
       final_candidates h = (present_essential h ++ sampled)%list
       /\ NoDup sampled
       /\ forall cmd,
            cmd ∈ sampled ->
            cmd ∈ candidates_found h /\ cmd ∉ essential_commands.
Proof.
  intros Hmany Hfew.
  pose proof (candidates_split _ (candidates_found_NoDup h)) as Hsplit.
  rewrite essential_found_present in Hsplit.
  unfold final_candidates, enforce_ceiling.
  rewrite essential_found_present.
  set (others := filter (fun cmd => cmd ∉ essential_commands)
                   (candidates_found h)) in *.
  destruct (Z.ltb_spec MAX_TOOLS_TO_CREATE
              (Z.of_nat (length (candidates_found h)))); [|lia].
  destruct (Z.ltb_spec 0 (MAX_TOOLS_TO_CREATE
                          - Z.of_nat (length (present_essential h)))); [|lia].
  set (k := Z.to_nat (Z.min (MAX_TOOLS_TO_CREATE
                             - Z.of_nat (length (present_essential h)))
                        (Z.of_nat (length others)))).
  assert (Hk : (k <= length others)%nat) by (subst k; lia).
  split; [|split].
  - rewrite length_app, (sample_length _ _ _ _ Hk). subst k. lia.
  - intros cmd Hess Hpres. apply elem_of_app. left.
    unfold present_essential. apply list_elem_of_filter. now split.
  - exists (sample (random_draw h) 0 others k). split; [reflexivity|].
    split.
    + apply sample_NoDup. subst others.
      apply NoDup_filter, candidates_found_NoDup.
    + intros cmd Hin%sample_elem_of. subst others.
      apply list_elem_of_filter in Hin. tauto.
Qed.

(** The loop over the essential commands only appends. *)
Lemma append_found_length h cmds : forall valid,
  (length valid <= length (append_found h cmds valid))%nat.
Proof.
  unfold append_found.
  induction cmds as [|c cmds IH]; intros valid; cbn [fold_left]; [lia|].
  etransitivity; [|apply IH].
  destruct (which h c && negb (bool_decide (c ∈ valid))); [|lia].
  rewrite length_app. lia.
Qed.

Lemma package_managers_few h :
  (size (discover_package_managers h) <= 7)%nat.
Proof.
  unfold discover_package_managers, size, set_size. cbn [compose].
  etransitivity.
  - apply submseteq_length, NoDup_submseteq; [apply NoDup_elements|].
    intros x Hx. apply elem_of_elements, elem_of_list_to_set in Hx. exact Hx.
  - etransitivity; [apply List.filter_length_le|].
    unfold known_managers.
    destruct (String.eqb (system h) "Linux"); [cbn; lia|].
    destruct (String.eqb (system h) "Darwin"); [cbn; lia|].
    destruct (String.eqb (system h) "Windows"); cbn; lia.
Qed.

Lemma size_difference_lower (path excluded : gset string) :
  (size path <= size excluded + size (path ∖ excluded))%nat.
Proof.
  rewrite <- size_union_alt. apply subseteq_size.
  intros x Hx. apply elem_of_union. now right.
Qed.

Lemma size_union_upper (base managers : gset string) :
  (size (base ∪ managers) <= size base + size managers)%nat.
Proof.
  rewrite size_union_alt.
  assert (Hsub : managers ∖ base ⊆ managers)
    by (intros x Hx; rewrite elem_of_difference in Hx; tauto).
  apply subseteq_size in Hsub. lia.
Qed.

(** A PATH with more than 2041 executables exceeds the ceiling: at most
    34 + 7 of them are excluded. *)
Lemma crowded_path_exceeds_ceiling h :
  (2041 < Z.of_nat (size (path_executables h)))%Z ->
  (MAX_TOOLS_TO_CREATE < Z.of_nat (length (candidates_found h)))%Z.
Proof.
  intros Hmany. unfold candidates_found, add_essential.
  pose proof (append_found_length h essential_commands (initial_candidates h))
    as Hgrow.
  assert (Hinit : length (initial_candidates h)
                  = size (path_executables h
                          ∖ (BASE_COMMANDS_TO_EXCLUDE
                             ∪ discover_package_managers h))).
  { unfold initial_candidates.
    now rewrite (Permutation_length (merge_sort_Permutation _ _)). }
  assert (Hbase : size BASE_COMMANDS_TO_EXCLUDE = 34%nat)
    by (vm_compute; reflexivity).
  pose proof (package_managers_few h) as Hpm.
  revert Hinit Hbase Hpm.
  generalize BASE_COMMANDS_TO_EXCLUDE (discover_package_managers h)
    (path_executables h) Hmany.
  intros base managers path Hpath Hinit Hbase Hpm.
  pose proof (size_union_upper base managers) as Hexcl.
  pose proof (size_difference_lower path (base ∪ managers)) as Hcover.
  unfold MAX_TOOLS_TO_CREATE. lia.
Qed.

Lemma tool_names_NoDup n : NoDup (Samples.tool_names n).
Proof.
  unfold Samples.tool_names.
  assert (Hinj : Inj (=) (=) (fun i : nat => "tool" ++ pretty i)).
  { intros i j Hij. apply (inj (String.append "tool")) in Hij.
    now apply (inj pretty) in Hij. }
  apply (NoDup_fmap_2 _), NoDup_seq.
Qed.

Lemma ceiling_keeps_essentials_witness :
  (MAX_TOOLS_TO_CREATE
   < Z.of_nat (length (candidates_found Samples.crowded_host)))%Z
  /\ (Z.of_nat (length (present_essential Samples.crowded_host))
      < MAX_TOOLS_TO_CREATE)%Z
  /\ Z.of_nat (length (final_candidates Samples.crowded_host)) = 2000%Z
  /\ "rm" ∈ final_candidates Samples.crowded_host.
Proof.
  assert (H1 : (MAX_TOOLS_TO_CREATE
                < Z.of_nat (length (candidates_found Samples.crowded_host)))%Z).
  { apply crowded_path_exceeds_ceiling.
    unfold Samples.crowded_host. cbn [path_executables].
    rewrite size_list_to_set by apply tool_names_NoDup.
    unfold Samples.tool_names. rewrite length_fmap, length_seq. lia. }
  assert (H2 : (Z.of_nat (length (present_essential Samples.crowded_host))
                < MAX_TOOLS_TO_CREATE)%Z).
  { pose proof (length_filter
                  (fun cmd => present Samples.crowded_host cmd = true)
                  essential_commands) as Hle.
    unfold present_essential. cbn [essential_commands length] in Hle.
    unfold MAX_TOOLS_TO_CREATE. cbn [essential_commands]. lia. }
  destruct (ceiling_keeps_essentials Samples.crowded_host H1 H2)
    as (Hlen & Hess & _).
  split; [exact H1|]. split; [exact H2|]. split; [exact Hlen|].
  apply Hess.
  - apply (bool_decide_unpack _). vm_compute. exact I.
  - reflexivity.
Defined.

(** *** Descriptions *)

Lemma len_app a b : len (a ++ b) = (len a + len b)%Z.
Proof.
  unfold len. induction a as [|c a IH]; [reflexivity|].
  change (String c a ++ b) with (String c (a ++ b)).
  cbn [String.length]. lia.
Qed.

Lemma take_chars_length n : forall s, (String.length (take_chars n s) <= n)%nat.
Proof.
  induction n as [|n IH]; intros [|c s]; simpl; try lia.
  specialize (IH s). lia.
Qed.

Lemma marker_length : len truncation_marker = 28%Z.
Proof. reflexivity. Qed.

Lemma truncate_help_length help_text :
  (len (truncate_help help_text) <= MAX_HELP_TEXT_LENGTH + 28)%Z.
Proof.
  unfold truncate_help.
  destruct (Z.ltb_spec MAX_HELP_TEXT_LENGTH (len help_text)) as [Hlong|Hshort].
  - rewrite len_app, marker_length.
    pose proof (take_chars_length (Z.to_nat MAX_HELP_TEXT_LENGTH) help_text)
      as Hcut.
    assert (0 <= MAX_HELP_TEXT_LENGTH)%Z by discriminate.
    unfold len at 1. lia.
  - lia.
Qed.

Lemma describe_length command help_text :
  len (describe command help_text) = (47 + len command + len help_text)%Z.
Proof.
  unfold describe. rewrite !len_app.
  change (len "Executes the '") with 14%Z.
  change (len "' command. Its help page is:") with 28%Z.
  change (len nl) with 1%Z. change (len "---") with 3%Z. lia.
Qed.

Lemma essential_name_short command :
  command ∈ essential_commands -> (len command <= 5)%Z.
Proof.
  unfold essential_commands. intros Hc.
  repeat (apply elem_of_cons in Hc as [->|Hc]; [discriminate|]).
  inversion Hc.
Qed.

Lemma make_tool_framed command help_text t :
  make_tool command help_text = Some t -> framed t.
Proof.
  unfold make_tool, framed.
  destruct (negb (truthy (truncate_help help_text))
            || contains "No help page found" (truncate_help help_text)).
  - case_bool_decide as Hess; [|discriminate].
    intros [= <-]. cbn [name description].
    eexists. split; [reflexivity|].
    rewrite len_app. change (len "Essential file system command: ") with 31%Z.
    pose proof (essential_name_short _ Hess).
    unfold MAX_HELP_TEXT_LENGTH. lia.
  - intros [= <-]. cbn [name description].
    eexists. split; [reflexivity|]. apply truncate_help_length.
Qed.

Lemma build_tools_framed h valid_cmds : forall tools,
  build_tools h valid_cmds = Ok tools -> forall t, t ∈ tools -> framed t.
Proof.
  induction valid_cmds as [|command rest IH]; intros tools; cbn [build_tools].
  - intros [= <-] t Ht. inversion Ht.
  - destruct (get_command_help h command) as [help_text|e];
      cbn [rbind]; [|discriminate].
    destruct (build_tools h rest) as [made|e]; cbn [rbind]; [|discriminate].
    destruct (make_tool command help_text) as [tool|] eqn:Hmk;
      intros [= <-] t Ht.
    + apply elem_of_cons in Ht as [->|Ht].
      * exact (make_tool_framed _ _ _ Hmk).
      * now apply (IH made).
    + now apply (IH made).
Qed.

(** C4 as stated fails: on a host whose only command prints a help page of
    30001 characters, the description of its tool has 30077 characters. *)
Lemma description_bound_as_stated_fails : ~ description_bound_as_stated.
Proof.
  intros H.
  assert (Hlong :
            match load_system_command_tools Samples.verbose_host with
            | Ok (t :: _) => (len (description t) =? 30077)%Z
            | _ => false
            end = true)
    by (vm_compute; reflexivity).
  specialize (H Samples.verbose_host).
  destruct (load_system_command_tools Samples.verbose_host)
    as [[|t tools]|e]; try discriminate Hlong.
  specialize (H _ t eq_refl (list_elem_of_here _ _)).
  apply Z.eqb_eq in Hlong. rewrite Hlong in H.
  unfold MAX_HELP_TEXT_LENGTH in H. lia.
Qed.

(** C4, amended.  Every descriptor the scanner produces has the form
    "Executes the '<name>' command. Its help page is:", a separator, and a
    help text of at most the configured maximum (30000) plus the 28
    characters of the truncation marker; so its description is at most
    30000 + 28 + 47 + len(name) characters long. *)
Theorem description_length_bounded h tools t :
  load_system_command_tools h = Ok tools ->
  t ∈ tools ->
  (exists help_text,
      description t = describe (name t) help_text
      /\ (len help_text <= MAX_HELP_TEXT_LENGTH + 28)%Z)
  /\ (len (description t) <= MAX_HELP_TEXT_LENGTH + 28 + 47 + len (name t))%Z.
Proof.
  intros Hload Ht.
  destruct (build_tools_framed _ _ _ Hload _ Ht) as (help_text & Hd & Hlen).
  split; [now exists help_text|].
  rewrite Hd, describe_length. lia.
Qed.

Lemma description_length_bounded_witness :
  load_system_command_tools Samples.terse_host = Ok [Samples.terse_tool]
  /\ Samples.terse_tool ∈ [Samples.terse_tool]
  /\ (len (description Samples.terse_tool)
      <= MAX_HELP_TEXT_LENGTH + 28 + 47 + len (name Samples.terse_tool))%Z.
Proof.
  assert (Hload : load_system_command_tools Samples.terse_host
                  = Ok [Samples.terse_tool])
    by (vm_compute; reflexivity).
  split; [exact Hload|]. split; [apply list_elem_of_here|].
  exact (proj2 (description_length_bounded Samples.terse_host _ _ Hload
                  (list_elem_of_here _ _))).
Defined.

End ScannerFacts.

(** ** The semantic-index adapter *)

Module AdapterFacts.
Import PyText Adapter.

Lemma normalize_resolved str_of args kwargs :
  normalize str_of args kwargs
  = (resolved_query str_of args kwargs, resolved_count args kwargs).
Proof.
  unfold normalize, resolved_query, resolved_count.
  destruct args as [|first_arg [|second more]];
    destruct (kwargs !! "query"), (kwargs !! "k") as [kv|],
      (kwargs !! "limit") as [lv|];
    rewrite ?(Z.mul_comm (int_of _) 3); reflexivity.
Qed.

(** C6 as stated fails: search("disk usage", 7), the form in which [batch]
    calls [search], resolves to 7 results; by the wording (no "k" keyword,
    no "limit" keyword) it would be the default 5. *)
Lemma normalization_as_stated_fails : ~ normalization_as_stated.
Proof.
  intros H.
  destruct (H str_of_atom (fun s => eq_refl)
              [VStr "disk usage"; VInt 7] ∅) as [_ Hcount].
  vm_compute in Hcount. discriminate Hcount.
Qed.

(** C6, amended.  The query is resolved from the "query" keyword first,
    else from the first positional argument: a string as it is, the first
    element of a non-empty tuple or list stringified, the "query"
    attribute of an object stringified, anything else stringified.  The
    count is resolved from the "k" keyword when there is one (its value if
    an integer, else 5), else from a "limit" keyword (max(3*limit, 10) for
    an integer, else 10), else from an integer second positional argument,
    else 5.  This is the resolution the specification words whenever the
    call has at most one positional argument, that argument is not a
    sequence of two or more elements, and a "k" keyword, if given, is an
    integer.  {"limit": 4} gives the count 12; "disk usage" passed
    positionally, as a string or wrapped in a one-element tuple, gives the
    query "disk usage" and the count 5. *)
Theorem normalize_precedence str_of :
  (forall s, str_of (VStr s) = s) ->
  (forall args kwargs,
      normalize str_of args kwargs
      = (resolved_query str_of args kwargs, resolved_count args kwargs))
  /\ (forall args kwargs count,
        (length args <= 1)%nat ->
        short_sequence args = true ->
        (forall kv, kwargs !! "k" = Some kv -> is_int kv = true) ->
        spec_count kwargs = Some count ->
        normalize str_of args kwargs = (spec_query str_of args kwargs, count))
  /\ snd (normalize str_of [] {[ "limit" := VInt 4 ]}) = VInt 12
  /\ normalize str_of [VStr "disk usage"] ∅ = (Some "disk usage", VInt 5)
  /\ normalize str_of [VTuple [VStr "disk usage"]] ∅
     = (Some "disk usage", VInt 5).
Proof.
  intros Hstr. split; [apply normalize_resolved|]. split.
  - intros args kwargs count Hlen Hshort Hk Hspec.
    rewrite normalize_resolved. f_equal.
    + unfold resolved_query, spec_query.
      destruct (kwargs !! "query"); [reflexivity|].
      destruct args as [|first_arg more]; [reflexivity|]. f_equal.
      destruct first_arg as [| | |s|[|x [|y items]]|[|x [|y items]]|attrs];
        cbn in Hshort |- *; try reflexivity; try discriminate Hshort.
      now rewrite Hstr.
    + unfold resolved_count. unfold spec_count in Hspec.
      destruct (kwargs !! "k") as [kv|] eqn:Ekv.
      * specialize (Hk kv eq_refl).
        destruct kv; try discriminate Hk; now injection Hspec as <-.
      * destruct (kwargs !! "limit") as [lv|].
        -- destruct (is_int lv); [now injection Hspec as <-|discriminate].
        -- injection Hspec as <-.
           destruct args as [|a [|b more]]; cbn in Hlen; try reflexivity; lia.
  - split; [reflexivity|]. split; [reflexivity|].
    cbn. now rewrite Hstr.
Qed.

Lemma normalize_precedence_witness :
  (forall s, str_of_atom (VStr s) = s)
  /\ normalize str_of_atom [VObject [("query", VStr "free space")]]
       {[ "limit" := VInt 2 ]}
     = (Some "free space", VInt 10).
Proof.
  assert (Hstr : forall s, str_of_atom (VStr s) = s) by reflexivity.
  split; [exact Hstr|].
  destruct (normalize_precedence str_of_atom Hstr) as (_ & Hspec & _).
  rewrite (Hspec [VObject [("query", VStr "free space")]]
             {[ "limit" := VInt 2 ]} (VInt 10)).
  - vm_compute. reflexivity.
  - cbn. lia.
  - reflexivity.
  - intros kv Hkv. vm_compute in Hkv. discriminate Hkv.
  - vm_compute. reflexivity.
Defined.

(** *** Search *)

Lemma write_ok (stdout_fault : string -> option exn) text :
  accepts_all stdout_fault -> write stdout_fault text = Ok tt.
Proof. intros H. unfold write. now rewrite H. Qed.

(** The conversions that [converted] lists are those on which the
    normalization depends. *)
Lemma normalize_reads_converted (f g : value -> string) args kwargs :
  (forall v, v ∈ converted args kwargs -> f v = g v) ->
  normalize f args kwargs = normalize g args kwargs.
Proof.
  intros H. unfold converted in H. unfold normalize.
  assert (Hkw : match kwargs !! "query" with
                | Some q => f q = g q
                | None => True
                end).
  { destruct (kwargs !! "query") as [q|]; [|exact I].
    apply H, elem_of_app. right. apply list_elem_of_here. }
  assert (Hpos : match args with
                 | first_arg :: _ =>
                     positional_query f first_arg
                     = positional_query g first_arg
                 | [] => True
                 end).
  { destruct args as [|first_arg more]; [exact I|].
    unfold positional_query.
    destruct first_arg as [| | | |[|x xs]|[|x xs]|attrs];
      try reflexivity;
      try (apply H, elem_of_app; left; apply list_elem_of_here).
    destruct (getattr attrs "query") as [q|];
      apply H, elem_of_app; left; apply list_elem_of_here. }
  destruct args as [|first_arg more].
  - destruct (kwargs !! "query"); now rewrite ?Hkw.
  - rewrite Hpos. destruct (kwargs !! "query"); now rewrite ?Hkw.
Qed.

Section SearchFacts.
Variable str_of : value -> string.
Variable Score : Type.
Variable backend : string -> value -> result (list (Document * Score)).
Variable rt : Runtime Score.
Variable tool_registry : gmap string (gmap string string).

(** With an interpreter and a console that raise nothing, what is left
    of the search: the normalization, the lookup, the wrapping and the
    listing, with the empty list where one of them fails. *)
Lemma search_quiet args kwargs :
  quiet Score rt args kwargs ->
  search str_of Score backend rt tool_registry args kwargs
  = match fst (normalize str_of args kwargs) with
    | None => Ok []
    | Some query =>
        if negb (truthy query) then Ok []
        else
          match
            (let? results :=
               backend query (snd (normalize str_of args kwargs)) in
             let? search_results := wrap_results Score results in
             let? _ := match search_results with
                       | [] => Ok tt
                       | _ :: _ =>
                           listing Score rt tool_registry 1 search_results
                       end in
             Ok search_results)
          with
          | Ok search_results => Ok search_results
          | Raise _ => Ok []
          end
    end.
Proof.
  intros ((call & Hcall) & Hconv & Hout). unfold search.
  rewrite Hcall, Hconv. cbn [rbind]. rewrite ?write_ok by exact Hout.
  cbn [rbind].
  destruct (normalize str_of args kwargs) as [[query|] k]; cbn [fst snd];
    [|rewrite ?write_ok by exact Hout; reflexivity].
  destruct (negb (truthy query)); rewrite ?write_ok by exact Hout;
    cbn [rbind]; [reflexivity|].
  unfold rtry.
  destruct (backend query k) as [results|e]; cbn [rbind];
    [|rewrite ?write_ok by exact Hout; reflexivity].
  destruct (wrap_results Score results) as [rs|e]; cbn [rbind];
    [|rewrite ?write_ok by exact Hout; reflexivity].
  rewrite ?write_ok by exact Hout. cbn [rbind].
  destruct rs as [|r rs]; [reflexivity|].
  destruct (listing Score rt tool_registry 1 (r :: rs)); cbn [rbind];
    [reflexivity|].
  rewrite ?write_ok by exact Hout. reflexivity.
Qed.

Lemma search_returns_when_quiet args kwargs :
  quiet Score rt args kwargs ->
  exists results,
    search str_of Score backend rt tool_registry args kwargs = Ok results.
Proof.
  intros Hq. rewrite (search_quiet _ _ Hq).
  destruct (fst (normalize str_of args kwargs)) as [query|]; [|eauto].
  destruct (negb (truthy query)); [eauto|].
  match goal with
  | |- exists _, match ?m with _ => _ end = _ => destruct m
  end; eauto.
Qed.

(** C7, amended.  When the interpreter and the console raise nothing
    (the text of the call can be made, the conversions to [str] succeed,
    every message can be written), search never raises; it returns the
    empty list when no usable query resolves from the call (none, or the
    empty string), and it returns the empty list when the lookup in the
    backend raises, whatever the exception. *)
Theorem search_degrades_to_empty
    (args : list value) (kwargs : gmap string value) :
  quiet Score rt args kwargs ->
  (exists results,
      search str_of Score backend rt tool_registry args kwargs = Ok results)
  /\ (fst (normalize str_of args kwargs) = None
      \/ fst (normalize str_of args kwargs) = Some "" ->
      search str_of Score backend rt tool_registry args kwargs = Ok [])
  /\ (forall query e,
        fst (normalize str_of args kwargs) = Some query ->
        backend query (snd (normalize str_of args kwargs)) = Raise e ->
        search str_of Score backend rt tool_registry args kwargs = Ok []).
Proof.
  intros Hq. split; [now apply search_returns_when_quiet|].
  rewrite (search_quiet _ _ Hq).
  destruct (normalize str_of args kwargs) as [[query|] k]; cbn [fst snd].
  - split.
    + intros [Hn|Hn]; [discriminate|]. now injection Hn as ->.
    + intros q e [= <-] He. rewrite He. cbn [rbind].
      now destruct (negb (truthy query)).
  - split; [reflexivity|]. intros q e Hn. discriminate Hn.
Qed.

End SearchFacts.

(** Two more calls on which the code departs from the wording: the first
    element of a longer sequence is taken, and a "k" keyword that is not
    an integer gives 5 although a "limit" keyword is there. *)
Example normalize_takes_first_of_many :
  normalize str_of_atom [VTuple [VStr "disk"; VStr "usage"]] ∅
  = (Some "disk", VInt 5).
Proof. reflexivity. Qed.

Example normalize_ignores_limit_after_k :
  snd (normalize str_of_atom [] {[ "k" := VStr "7"; "limit" := VInt 4 ]})
  = VInt 5.
Proof. vm_compute. reflexivity. Qed.

Lemma plain_runtime_quiet args kwargs :
  quiet Z Samples.plain_runtime args kwargs.
Proof.
  split; [eexists; reflexivity|]. split; [|intros text; reflexivity].
  induction (converted args kwargs) as [|v l IH]; [reflexivity|exact IH].
Qed.

Example search_returns_matches :
  search str_of_atom Z Samples.backend_up Samples.plain_runtime ∅
    [VStr "list files"] {[ "limit" := VInt 4 ]}
  = Ok [MkSearchResult "id-1" 1%Z].
Proof. vm_compute. reflexivity. Qed.

(** C7 as stated fails: on a console that cannot encode the query, the
    first message of search, which is written before the [try], raises a
    UnicodeEncodeError although the backend is the one that is down. *)
Lemma degradation_as_stated_fails : ~ degradation_as_stated.
Proof.
  intros H.
  specialize (H str_of_atom Z Samples.backend_down Samples.ascii_runtime ∅
                [VStr Samples.accented_query] ∅).
  cbn [normalize positional_query fst snd] in H.
  rewrite !lookup_empty in H. cbn [fst] in H.
  assert (Hraise : Samples.accented_query = ""
                   \/ exists e,
                        Samples.backend_down Samples.accented_query
                          (VInt 5, VInt 5).1 = Raise e)
    by (right; eexists; reflexivity).
  specialize (H Hraise). vm_compute in H. discriminate H.
Qed.

Lemma search_degrades_to_empty_witness :
  quiet Z Samples.plain_runtime [VStr "disk usage"] ∅
  /\ fst (normalize str_of_atom [VStr "disk usage"] ∅) = Some "disk usage"
  /\ Samples.backend_down "disk usage"
       (snd (normalize str_of_atom [VStr "disk usage"] ∅))
     = Raise (Exn RuntimeError "connection refused")
  /\ search str_of_atom Z Samples.backend_down Samples.plain_runtime ∅
       [VStr "disk usage"] ∅ = Ok [].
Proof.
  split; [apply plain_runtime_quiet|].
  split; [reflexivity|]. split; [reflexivity|].
  exact (proj2 (proj2 (search_degrades_to_empty str_of_atom Z
                         Samples.backend_down Samples.plain_runtime ∅
                         [VStr "disk usage"] ∅
                         (plain_runtime_quiet _ _)))
           "disk usage" _ eq_refl eq_refl).
Defined.

End AdapterFacts.

(** ** The registry cache *)

Module CacheFacts.
Import PyText Cache.

Lemma paths_differ : TOOL_REGISTRY_CACHE_PATH <> backup_path.
Proof. discriminate. Qed.

Lemma tool_obj_has_fields t : has_tool_fields (tool_obj t) = true.
Proof.
  unfold has_tool_fields, tool_obj.
  rewrite !bool_decide_eq_true_2; [reflexivity | |]; eexists.
  - rewrite lookup_insert_ne by discriminate. apply lookup_insert_eq.
  - apply lookup_insert_eq.
Qed.

Lemma built_tools_valid (tools : gmap string Scanner.Tool) :
  all_tools_valid (tool_obj <$> tools) = true.
Proof.
  unfold all_tools_valid. apply forallb_forall. intros [id obj] Hin.
  apply list_elem_of_In, elem_of_map_to_list in Hin.
  rewrite lookup_fmap in Hin.
  destruct (tools !! id) as [t|]; [|discriminate].
  injection Hin as <-. apply tool_obj_has_fields.
Qed.

(** A built registry holds tools. *)
Lemma build_registry_tools ids all_tools :
  exists tools : gmap string Scanner.Tool,
    build_registry ids all_tools = tool_obj <$> tools.
Proof.
  unfold build_registry.
  assert (Hgen : forall (l : list (string * Scanner.Tool))
                        (acc : gmap string Scanner.Tool),
             exists tools : gmap string Scanner.Tool,
               fold_left (fun reg it => <[fst it := tool_obj (snd it)]> reg)
                 l (tool_obj <$> acc) = tool_obj <$> tools).
  { induction l as [|[id t] l IH]; intros acc; cbn [fold_left fst snd].
    - now exists acc.
    - rewrite <- fmap_insert. apply IH. }
  destruct (Hgen (zip ids all_tools) ∅) as [tools Ht].
  exists tools. now rewrite fmap_empty in Ht.
Qed.

Section Facts.
Variable Blob : Type.
Variable blob_size : Blob -> Z.
Variable pickle_load : Blob -> result unpickled.
Variable pickle_dump : gmap string (gmap string string) -> Blob * option exn.
Variable refused : os_op -> bool.
Variable stdout_fault : string -> option exn.

Local Abbreviation load :=
  (load_tool_registry_from_cache Blob blob_size pickle_load refused
     stdout_fault).
Local Abbreviation save :=
  (save_tool_registry_to_cache Blob pickle_dump refused stdout_fault).
Local Abbreviation CACHE := TOOL_REGISTRY_CACHE_PATH.

(** Removing the cache file under [try: ... except OSError: pass] never
    raises. *)
Lemma remove_quietly (fs : gmap string Blob) p :
  exists fs', try_pass [OSError] (remove Blob refused p) fs = (Ok tt, fs')
              /\ (refused (OpRemove p) = false -> fs' = delete p fs)
              /\ (forall q, q <> p -> fs' !! q = fs !! q).
Proof.
  unfold try_pass, try_except, remove.
  destruct (refused (OpRemove p)).
  - cbn. eexists. split; [reflexivity|]. split; [discriminate|reflexivity].
  - destruct (fs !! p) eqn:E.
    + eexists. split; [reflexivity|]. split; [reflexivity|].
      intros q Hq. now apply lookup_delete_ne.
    + cbn. eexists. split; [reflexivity|]. split; [|reflexivity].
      intros _. symmetry. now apply delete_id.
Qed.

(** An exception leaves load() only when a message of one of its
    handlers cannot be written: it is what [print] raised. *)
Lemma load_raises_only_print fs e :
  fst (load fs) = Raise e -> exists text, stdout_fault text = Some e.
Proof.
  unfold load_tool_registry_from_cache, bind at 1, path_exists.
  destruct (bool_decide (is_Some (fs !! CACHE))); cbn [negb];
    [|discriminate].
  unfold try_except.
  match goal with
  | |- context [match ?m fs with _ => _ end] => destruct (m fs) as [[r|e0] fs1]
  end; [discriminate|].
  destruct (caught_by [PickleError; EOFError; ValueError] e0);
    unfold bind at 1, print, write.
  - match goal with
    | |- context [stdout_fault ?t] => destruct (stdout_fault t) as [e1|] eqn:E
    end.
    + intros [= <-]. eauto.
    + unfold bind.
      destruct (remove_quietly fs1 CACHE) as (fs2 & -> & _). discriminate.
  - match goal with
    | |- context [stdout_fault ?t] => destruct (stdout_fault t) as [e1|] eqn:E
    end.
    + intros [= <-]. eauto.
    + discriminate.
Qed.

Lemma load_never_raises fs :
  accepts_all stdout_fault -> exists r fs', load fs = (Ok r, fs').
Proof.
  intros Hq. destruct (load fs) as [[r|e] fs'] eqn:E; [eauto|].
  destruct (load_raises_only_print fs e) as [text Ht];
    [now rewrite E|].
  rewrite Hq in Ht. discriminate Ht.
Qed.

Ltac step_load :=
  unfold load_tool_registry_from_cache, validate, try_pass, try_except,
    bind, path_exists, getsize, read_pickle, remove, print, write, ret,
    raise.

Lemma load_of_empty_file fs b :
  accepts_all stdout_fault ->
  fs !! CACHE = Some b ->
  refused (OpGetsize CACHE) = false ->
  refused (OpRemove CACHE) = false ->
  blob_size b = 0%Z ->
  load fs = (Ok None, delete CACHE fs).
Proof.
  intros Hq Hb Hg Hr Hz. step_load.
  rewrite bool_decide_eq_true_2 by (rewrite Hb; eauto).
  repeat progress (rewrite ?Hq, ?Hb, ?Hg, ?Hr, ?Hz, ?Z.eqb_refl; cbn [negb];
                   cbv beta iota).
  reflexivity.
Qed.

Lemma load_of_unreadable fs b e :
  accepts_all stdout_fault ->
  fs !! CACHE = Some b ->
  refused (OpGetsize CACHE) = false ->
  refused (OpOpenRead CACHE) = false ->
  refused (OpRemove CACHE) = false ->
  blob_size b <> 0%Z ->
  pickle_load b = Raise e ->
  load fs = (Ok None,
             if caught_by [PickleError; EOFError; ValueError] e
             then delete CACHE fs else fs).
Proof.
  intros Hq Hb Hg Ho Hr Hz He. step_load.
  rewrite bool_decide_eq_true_2 by (rewrite Hb; eauto).
  apply Z.eqb_neq in Hz.
  repeat progress (rewrite ?Hq, ?Hb, ?Hg, ?Ho, ?He, ?Hz; cbn [negb];
                   cbv beta iota).
  destruct (caught_by [PickleError; EOFError; ValueError] e);
    repeat progress (rewrite ?Hq, ?Hb, ?Hr; cbn [negb]; cbv beta iota);
      reflexivity.
Qed.

Lemma load_of_readable fs b loaded :
  accepts_all stdout_fault ->
  fs !! CACHE = Some b ->
  refused (OpGetsize CACHE) = false ->
  refused (OpOpenRead CACHE) = false ->
  refused (OpRemove CACHE) = false ->
  blob_size b <> 0%Z ->
  pickle_load b = Ok loaded ->
  load fs =
    match loaded with
    | UDict d =>
        if (size d =? 0)%nat || negb (all_tools_valid d)
        then (Ok None, delete CACHE fs) else (Ok (Some d), fs)
    | UOther => (Ok None, delete CACHE fs)
    end.
Proof.
  intros Hq Hb Hg Ho Hr Hz Hl. step_load.
  rewrite bool_decide_eq_true_2 by (rewrite Hb; eauto).
  apply Z.eqb_neq in Hz.
  repeat progress (rewrite ?Hq, ?Hb, ?Hg, ?Ho, ?Hl, ?Hz; cbn [negb];
                   cbv beta iota).
  destruct loaded as [d|]; cbv beta iota.
  - destruct (size d =? 0)%nat; cbn [orb negb caught_by existsb subclass
                                       class_eqb exn_cls];
      [repeat progress (rewrite ?Hq, ?Hb, ?Hr; cbn [negb]; cbv beta iota);
       reflexivity|].
    destruct (all_tools_valid d); cbn [orb negb caught_by existsb subclass
                                         class_eqb exn_cls];
      [rewrite ?Hq; reflexivity|].
    repeat progress (rewrite ?Hq, ?Hb, ?Hr; cbn [negb]; cbv beta iota);
      reflexivity.
  - cbn [orb negb caught_by existsb subclass class_eqb exn_cls].
    repeat progress (rewrite ?Hq, ?Hb, ?Hr; cbn [negb]; cbv beta iota);
      reflexivity.
Qed.

Lemma load_of_valid fs b d :
  accepts_all stdout_fault ->
  fs !! CACHE = Some b ->
  refused (OpGetsize CACHE) = false ->
  refused (OpOpenRead CACHE) = false ->
  blob_size b <> 0%Z ->
  pickle_load b = Ok (UDict d) ->
  size d <> 0%nat ->
  all_tools_valid d = true ->
  load fs = (Ok (Some d), fs).
Proof.
  intros Hq Hb Hg Ho Hz Hl Hsz Hv. step_load.
  rewrite bool_decide_eq_true_2 by (rewrite Hb; eauto).
  apply Z.eqb_neq in Hz. apply Nat.eqb_neq in Hsz.
  repeat progress (rewrite ?Hq, ?Hb, ?Hg, ?Ho, ?Hl, ?Hz, ?Hsz, ?Hv; cbn [negb];
                   cbv beta iota).
  reflexivity.
Qed.

Lemma missing_field_invalid (d : gmap string (gmap string string)) id tool :
  d !! id = Some tool ->
  tool !! "name" = None \/ tool !! "description" = None ->
  all_tools_valid d = false.
Proof.
  intros Hd Hmiss. destruct (all_tools_valid d) eqn:Hv; [|reflexivity].
  unfold all_tools_valid in Hv. rewrite forallb_forall in Hv.
  specialize (Hv (id, tool)). cbn [snd] in Hv. unfold has_tool_fields in Hv.
  rewrite andb_true_iff, !bool_decide_eq_true in Hv.
  destruct Hv as [[? Hn] [? Hdsc]].
  - now apply list_elem_of_In, elem_of_map_to_list.
  - destruct Hmiss; congruence.
Qed.

(** C8, amended.  An exception leaves load() only when one of the
    messages of its handlers cannot be written; it is then what [print]
    raised.  On a console on which every message can be written load()
    never raises, and on a file system that lets the cache file be
    measured, read and removed: a zero-length cache file is deleted and
    absent is returned; when unpickling raises a PickleError, an EOFError
    or a ValueError the file is deleted and absent is returned, and so it
    is when the loaded object is not a dictionary, has no entries, or has
    an entry without a name or a description; when unpickling raises any
    other exception, absent is returned and the file is left in place. *)
Theorem load_is_total_and_self_healing fs :
  (forall e, fst (load fs) = Raise e ->
             exists text, stdout_fault text = Some e)
  /\ (accepts_all stdout_fault ->
      (exists r fs', load fs = (Ok r, fs'))
      /\ (forall b,
            fs !! CACHE = Some b ->
            refused (OpGetsize CACHE) = false ->
            refused (OpOpenRead CACHE) = false ->
            refused (OpRemove CACHE) = false ->
            (blob_size b = 0%Z -> load fs = (Ok None, delete CACHE fs))
            /\ (blob_size b <> 0%Z ->
                forall e, pickle_load b = Raise e ->
                  (caught_by [PickleError; EOFError; ValueError] e = true ->
                   load fs = (Ok None, delete CACHE fs))
                  /\ (caught_by [PickleError; EOFError; ValueError] e = false
                      -> load fs = (Ok None, fs)))
            /\ (blob_size b <> 0%Z ->
                forall loaded, pickle_load b = Ok loaded ->
                  loaded = UOther
                  \/ (exists d, loaded = UDict d
                       /\ (size d = 0%nat
                           \/ exists id tool,
                                d !! id = Some tool
                                /\ (tool !! "name" = None
                                    \/ tool !! "description" = None))) ->
                  load fs = (Ok None, delete CACHE fs)))).
Proof.
  split; [apply load_raises_only_print|]. intros Hq.
  split; [now apply load_never_raises|].
  intros b Hb Hg Ho Hr. split; [|split].
  - now apply load_of_empty_file.
  - intros Hz e He.
    rewrite (load_of_unreadable _ _ _ Hq Hb Hg Ho Hr Hz He).
    split; now intros ->.
  - intros Hz loaded Hl Hbad.
    rewrite (load_of_readable _ _ _ Hq Hb Hg Ho Hr Hz Hl).
    destruct Hbad as [->|(d & -> & [Hsz|(id & tool & Hd & Hmiss)])].
    + reflexivity.
    + now rewrite Hsz.
    + rewrite (missing_field_invalid _ _ _ Hd Hmiss), orb_true_r.
      reflexivity.
Qed.

End Facts.

Lemma accepting_console : accepts_all (fun _ : string => @None exn).
Proof. intros text. reflexivity. Qed.

(** C8 as stated fails: when unpickling raises an AttributeError (a class
    of the pickled tools can no longer be found), load() returns absent but
    leaves the cache file where it is. *)
Lemma corruption_handling_as_stated_fails : ~ corruption_handling_as_stated.
Proof.
  intros H.
  specialize (H Samples.blob Samples.blob_size Samples.pickle_load
                {[ TOOL_REGISTRY_CACHE_PATH := Samples.Garbage AttributeError ]}
                (Samples.Garbage AttributeError)
                (Exn AttributeError "could not load the pickle")).
  assert (Hkept : snd (load_tool_registry_from_cache Samples.blob
                         Samples.blob_size Samples.pickle_load
                         (fun _ => false) (fun _ => None)
                         {[ TOOL_REGISTRY_CACHE_PATH
                              := Samples.Garbage AttributeError ]})
                    !! TOOL_REGISTRY_CACHE_PATH
                  = Some (Samples.Garbage AttributeError))
    by (vm_compute; reflexivity).
  rewrite H in Hkept.
  - cbn [snd] in Hkept. rewrite lookup_delete_eq in Hkept. discriminate Hkept.
  - apply lookup_singleton_eq.
  - discriminate.
  - reflexivity.
Qed.

(** Where the file system refuses the removal, the empty cache file stays
    where it is; load() still returns absent. *)
Example load_keeps_file_it_cannot_remove :
  load_tool_registry_from_cache Samples.blob Samples.blob_size
    Samples.pickle_load Samples.read_only_directory (fun _ => None)
    {[ TOOL_REGISTRY_CACHE_PATH := Samples.Empty ]}
  = (Ok None, {[ TOOL_REGISTRY_CACHE_PATH := Samples.Empty ]}).
Proof. vm_compute. reflexivity. Qed.

Example load_deletes_foreign_pickle :
  load_tool_registry_from_cache Samples.blob Samples.blob_size
    Samples.pickle_load Samples.cooperative (fun _ => None)
    {[ TOOL_REGISTRY_CACHE_PATH := Samples.Foreign ]}
  = (Ok None, ∅).
Proof. vm_compute. reflexivity. Qed.

(** On a console that cannot encode the messages load() raises: the
    message about the empty file raises a UnicodeEncodeError, which is a
    ValueError, and the message of the handler that catches it raises
    again; the empty file stays where it is. *)
Example load_raises_on_ascii_console :
  load_tool_registry_from_cache Samples.blob Samples.blob_size
    Samples.pickle_load Samples.cooperative Samples.ascii_only
    {[ TOOL_REGISTRY_CACHE_PATH := Samples.Empty ]}
  = (Raise (Exn UnicodeEncodeError "'ascii' codec can't encode character"),
     {[ TOOL_REGISTRY_CACHE_PATH := Samples.Empty ]}).
Proof. vm_compute. reflexivity. Qed.

Lemma load_is_total_and_self_healing_witness :
  (({[ TOOL_REGISTRY_CACHE_PATH := Samples.Empty ]} : gmap string Samples.blob)
     !! TOOL_REGISTRY_CACHE_PATH = Some Samples.Empty
   /\ Samples.blob_size Samples.Empty = 0%Z
   /\ load_tool_registry_from_cache Samples.blob Samples.blob_size
        Samples.pickle_load Samples.cooperative (fun _ => None)
        {[ TOOL_REGISTRY_CACHE_PATH := Samples.Empty ]}
      = (Ok None,
         delete TOOL_REGISTRY_CACHE_PATH
           {[ TOOL_REGISTRY_CACHE_PATH := Samples.Empty ]}))
  /\ (Samples.blob_size (Samples.Garbage ImportError) <> 0%Z
      /\ Samples.pickle_load (Samples.Garbage ImportError)
         = Raise (Exn ImportError "could not load the pickle")
      /\ load_tool_registry_from_cache Samples.blob Samples.blob_size
           Samples.pickle_load Samples.cooperative (fun _ => None)
           {[ TOOL_REGISTRY_CACHE_PATH := Samples.Garbage ImportError ]}
         = (Ok None,
            {[ TOOL_REGISTRY_CACHE_PATH := Samples.Garbage ImportError ]})).
Proof.
  assert (Hb : forall b : Samples.blob,
             ({[ TOOL_REGISTRY_CACHE_PATH := b ]} : gmap string Samples.blob)
               !! TOOL_REGISTRY_CACHE_PATH = Some b)
    by (intros b; apply lookup_singleton_eq).
  assert (Hsz : Samples.blob_size (Samples.Garbage ImportError) <> 0%Z)
    by discriminate.
  split.
  - split; [apply Hb|]. split; [reflexivity|].
    exact (proj1 (proj2 (proj2 (load_is_total_and_self_healing Samples.blob
                                  Samples.blob_size Samples.pickle_load
                                  Samples.cooperative (fun _ => None) _)
                           accepting_console)
                    Samples.Empty (Hb _) eq_refl eq_refl eq_refl) eq_refl).
  - split; [exact Hsz|]. split; [reflexivity|].
    exact (proj2 (proj1 (proj2 (proj2 (proj2 (load_is_total_and_self_healing
                                         Samples.blob Samples.blob_size
                                         Samples.pickle_load
                                         Samples.cooperative
                                         (fun _ => None) _)
                                         accepting_console)
                                  (Samples.Garbage ImportError) (Hb _)
                                  eq_refl eq_refl eq_refl))
                    Hsz _ eq_refl) eq_refl).
Defined.

Section Persist.
Variable Blob : Type.
Variable blob_size : Blob -> Z.
Variable pickle_load : Blob -> result unpickled.
Variable pickle_dump : gmap string (gmap string string) -> Blob * option exn.
Variable refused : os_op -> bool.
Variable stdout_fault : string -> option exn.
Hypothesis codec : codec_round_trips blob_size pickle_load pickle_dump.

Local Abbreviation load :=
  (load_tool_registry_from_cache Blob blob_size pickle_load refused
     stdout_fault).
Local Abbreviation save :=
  (save_tool_registry_to_cache Blob pickle_dump refused stdout_fault).
Local Abbreviation CACHE := TOOL_REGISTRY_CACHE_PATH.

(** Renaming under [try: ... except OSError: pass] never raises. *)
Lemma rename_quietly (fs : gmap string Blob) src dst :
  exists fs',
    try_pass [OSError] (rename Blob refused src dst) fs = (Ok tt, fs')
    /\ (refused (OpRename src dst) = false ->
        forall b, fs !! src = Some b -> fs' = <[dst := b]> (delete src fs))
    /\ (fs' !! dst = fs !! dst \/ fs' !! dst = fs !! src).
Proof.
  unfold try_pass, try_except, rename.
  destruct (refused (OpRename src dst)).
  - cbn. eexists. split; [reflexivity|]. split; [discriminate | now left].
  - destruct (fs !! src) as [b|] eqn:E.
    + eexists. split; [reflexivity|]. split.
      * intros _ b' [= <-]. reflexivity.
      * right. now rewrite lookup_insert_eq.
    + cbn. eexists. split; [reflexivity|]. split; [discriminate | now left].
Qed.

(** A write that completes leaves the new pickle in the cache file,
    whatever happens to the backup. *)
Lemma save_completes reg fs b :
  accepts_all stdout_fault ->
  pickle_dump reg = (b, None) ->
  refused (OpOpenWrite CACHE) = false ->
  exists fs', save reg fs = (Ok true, fs') /\ fs' !! CACHE = Some b.
Proof.
  intros Hq Hd Hw.
  unfold save_tool_registry_to_cache, try_except, bind, path_exists, ret,
    print, write.
  rewrite !Hq.
  assert (Hfirst : exists fs1,
             (if bool_decide (is_Some (fs !! CACHE))
              then try_pass [OSError] (rename Blob refused CACHE backup_path)
              else fun h => (Ok tt, h)) fs = (Ok tt, fs1)).
  { destruct (bool_decide (is_Some (fs !! CACHE))); [|eauto].
    destruct (rename_quietly fs CACHE backup_path) as (fs1 & E & _). eauto. }
  destruct Hfirst as (fs1 & ->).
  unfold write_pickle. rewrite Hw, Hd.
  set (fs2 := <[CACHE := b]> fs1).
  assert (Hc : fs2 !! CACHE = Some b) by apply lookup_insert_eq.
  destruct (bool_decide (is_Some (fs2 !! backup_path))).
  - destruct (remove_quietly Blob refused fs2 backup_path)
      as (fs3 & E & _ & Hother).
    rewrite E. eexists. split; [reflexivity|].
    rewrite (Hother _ paths_differ). exact Hc.
  - eexists. split; [reflexivity | exact Hc].
Qed.

(** A write that fails puts the previous cache back. *)
Lemma save_restores reg fs b0 :
  accepts_all stdout_fault ->
  fs !! CACHE = Some b0 ->
  refused (OpOpenWrite CACHE) = true \/ snd (pickle_dump reg) <> None ->
  refused (OpRename CACHE backup_path) = false ->
  refused (OpRename backup_path CACHE) = false ->
  exists fs',
    save reg fs = (Ok false, fs')
    /\ fs' !! CACHE = Some b0 /\ fs' !! backup_path = None.
Proof.
  intros Hq Hb Hfail Hr1 Hr2.
  unfold save_tool_registry_to_cache, try_except.
  match goal with
  | |- exists fs', match ?m fs with _ => _ end = _ /\ _ =>
      assert (Hbody : exists e fsx,
                 m fs = (Raise e, fsx) /\ fsx !! backup_path = Some b0)
  end.
  { unfold bind, path_exists, ret.
    rewrite bool_decide_eq_true_2 by (rewrite Hb; eauto).
    unfold try_pass at 1, try_except, rename at 1. rewrite Hr1, Hb.
    unfold write_pickle.
    destruct (refused (OpOpenWrite CACHE)).
    - do 2 eexists. split; [reflexivity|]. apply lookup_insert_eq.
    - destruct Hfail as [Hfail|Hfail]; [discriminate|].
      destruct (pickle_dump reg) as [partial [e|]]; [|now cbn in Hfail].
      do 2 eexists. split; [reflexivity|].
      rewrite lookup_insert_ne by (apply paths_differ).
      apply lookup_insert_eq. }
  destruct Hbody as (e & fsx & -> & Hx).
  unfold bind at 1, print, write. rewrite Hq.
  unfold bind, path_exists, ret.
  rewrite bool_decide_eq_true_2 by (rewrite Hx; eauto).
  unfold try_pass, try_except, bind, rename, print, write.
  rewrite Hr2, Hx, Hq.
  eexists. split; [reflexivity|]. split.
  - apply lookup_insert_eq.
  - rewrite lookup_insert_ne by (apply paths_differ).
    apply lookup_delete_eq.
Qed.

(** On a console that cannot encode the messages the failed write is
    not followed by the restore: the message of the handler raises
    first, and the previous cache stays at the backup path. *)
Example failed_write_on_ascii_console :
  save_tool_registry_to_cache Samples.blob Samples.pickle_dump_failing
    Samples.cooperative Samples.ascii_only ∅
    {[ TOOL_REGISTRY_CACHE_PATH := Samples.Pickled Samples.one_tool ]}
  = (Raise (Exn UnicodeEncodeError "'ascii' codec can't encode character"),
     {[ TOOL_REGISTRY_CACHE_PATH := Samples.Garbage UnpicklingError;
        backup_path := Samples.Pickled Samples.one_tool ]}).
Proof. vm_compute. reflexivity. Qed.

(** C9, amended.  On a console on which every message can be written
    and with a pickle codec that round-trips: persisting a built registry
    that has at least one entry, when the write completes, and then
    loading yields the same registry, with identical id, name and
    description entries, provided the cache file may be written, measured
    and read.  When the write fails while a cache file exists and the two
    renames are not refused, persist reports failure, the previous cache
    is back in place and no backup is left. *)
Theorem persist_then_load :
  accepts_all stdout_fault ->
  (forall ids all_tools fs,
      build_registry ids all_tools <> ∅ ->
      snd (pickle_dump (build_registry ids all_tools)) = None ->
      refused (OpOpenWrite CACHE) = false ->
      refused (OpGetsize CACHE) = false ->
      refused (OpOpenRead CACHE) = false ->
      fst (save (build_registry ids all_tools) fs) = Ok true
      /\ fst (load (snd (save (build_registry ids all_tools) fs)))
         = Ok (Some (build_registry ids all_tools)))
  /\ (forall reg fs b0,
        fs !! CACHE = Some b0 ->
        refused (OpOpenWrite CACHE) = true \/ snd (pickle_dump reg) <> None ->
        refused (OpRename CACHE backup_path) = false ->
        refused (OpRename backup_path CACHE) = false ->
        fst (save reg fs) = Ok false
        /\ snd (save reg fs) !! CACHE = Some b0
        /\ snd (save reg fs) !! backup_path = None).
Proof.
  intros Hq. split.
  - intros ids all_tools fs Hne Hdump Hw Hg Ho.
    destruct (build_registry_tools ids all_tools) as [tools Ht].
    rewrite Ht in *.
    destruct (pickle_dump (tool_obj <$> tools)) as [b w] eqn:Hd.
    cbn [snd] in Hdump. subst w.
    destruct (save_completes _ fs _ Hq Hd Hw) as (fs' & -> & Hc).
    cbn [fst snd]. split; [reflexivity|].
    destruct (codec _ _ Hd) as [Hsize Hload].
    rewrite (load_of_valid Blob blob_size pickle_load refused stdout_fault
               _ _ _ Hq Hc Hg Ho Hsize Hload); [reflexivity | |].
    + now apply map_size_non_empty_iff.
    + apply built_tools_valid.
  - intros reg fs b0 Hb Hfail Hr1 Hr2.
    destruct (save_restores reg fs b0 Hq Hb Hfail Hr1 Hr2)
      as (fs' & -> & Hc & Hbk).
    cbn [fst snd]. auto.
Qed.

End Persist.

Lemma sample_codec_round_trips :
  codec_round_trips Samples.blob_size Samples.pickle_load Samples.pickle_dump.
Proof. intros reg b [= <-]. split; [discriminate | reflexivity]. Qed.

(** C9 as stated fails: the registry built from no tools is persisted
    without error, but loading it back finds a dictionary without entries,
    deletes the file and returns absent. *)
Lemma round_trip_as_stated_fails : ~ round_trip_as_stated.
Proof.
  intros H.
  specialize (H Samples.blob Samples.blob_size Samples.pickle_load
                Samples.pickle_dump sample_codec_round_trips [] [] ∅ eq_refl).
  vm_compute in H. discriminate H.
Qed.

(** Where the rename to the backup path is refused, the failed write
    leaves its partial output in the cache file and nothing to restore. *)
Example failed_write_without_backup :
  save_tool_registry_to_cache Samples.blob Samples.pickle_dump_failing
    Samples.read_only_directory (fun _ => None) Samples.one_tool
    {[ TOOL_REGISTRY_CACHE_PATH := Samples.Pickled Samples.one_tool ]}
  = (Ok false,
     {[ TOOL_REGISTRY_CACHE_PATH := Samples.Garbage UnpicklingError ]}).
Proof. vm_compute. reflexivity. Qed.

Lemma failing_codec_round_trips :
  codec_round_trips Samples.blob_size Samples.pickle_load
    Samples.pickle_dump_failing.
Proof. intros reg b [=]. Qed.

Lemma persist_then_load_witness :
  (Samples.one_tool <> ∅
   /\ fst (load_tool_registry_from_cache Samples.blob Samples.blob_size
             Samples.pickle_load Samples.cooperative (fun _ => None)
             (snd (save_tool_registry_to_cache Samples.blob
                     Samples.pickle_dump Samples.cooperative
                     (fun _ => None) Samples.one_tool ∅)))
      = Ok (Some Samples.one_tool))
  /\ (snd (Samples.pickle_dump_failing ∅) <> None
      /\ snd (save_tool_registry_to_cache Samples.blob
                Samples.pickle_dump_failing Samples.cooperative
                (fun _ => None) ∅
                {[ TOOL_REGISTRY_CACHE_PATH
                     := Samples.Pickled Samples.one_tool ]})
           !! TOOL_REGISTRY_CACHE_PATH
         = Some (Samples.Pickled Samples.one_tool)).
Proof.
  assert (Hne : Samples.one_tool <> ∅).
  { intros Heq. apply (f_equal (fun m => m !! "id-1")) in Heq.
    unfold Samples.one_tool, build_registry in Heq.
    cbn [zip fold_left zip_with fst snd] in Heq.
    rewrite lookup_insert_eq, lookup_empty in Heq. discriminate Heq. }
  assert (Hfail : snd (Samples.pickle_dump_failing ∅) <> None)
    by discriminate.
  split.
  - split; [exact Hne|].
    exact (proj2 (proj1 (persist_then_load Samples.blob Samples.blob_size
                           Samples.pickle_load Samples.pickle_dump
                           Samples.cooperative (fun _ => None)
                           sample_codec_round_trips accepting_console)
                    ["id-1"] [Samples.terse_tool] ∅ Hne eq_refl eq_refl
                    eq_refl eq_refl)).
  - split; [exact Hfail|].
    exact (proj1 (proj2 (proj2 (persist_then_load Samples.blob
                                  Samples.blob_size Samples.pickle_load
                                  Samples.pickle_dump_failing
                                  Samples.cooperative (fun _ => None)
                                  failing_codec_round_trips
                                  accepting_console)
                           ∅ _ _ (lookup_singleton_eq _ _) (or_intror Hfail)
                           eq_refl eq_refl))).
Defined.

End CacheFacts.

(** * Further properties of the code *)

(** ** The execution gateway: console, processes and reports *)

Module GatewayMore.
Import PyText Gateway.

Lemma app_one_neq {A} (l : list A) (x : A) : (l ++ [x])%list <> l.
Proof.
  intros H. apply (f_equal length) in H. rewrite length_app in H.
  cbn in H. lia.
Qed.

(** What the [try] block leaves of the host: the pending input less what
    a child process read, and the process table with the child, if one
    was started. *)
Lemma attempt_host run command_name args h :
  let argv := command_name :: split args in
  let h' :=
    snd (try_except (run_and_report run command_name args)
           (fun e => Some (ret (fault_message command_name e))) h) in
  stdin_fault h' = stdin_fault h
  /\ stdout_fault h' = stdout_fault h
  /\ ((h' = h)
      \/ exists consumed outcome,
           stdout_fault h (" L Executing: " ++ join " " argv) = None
           /\ run argv (stdin h) = Started consumed outcome
           /\ stdin h' = drop consumed (stdin h)
           /\ spawned h' = (spawned h ++ [argv])%list).
Proof.
  intros argv h'. subst h'.
  destruct (GatewayFacts.report_cases run command_name args h)
    as [(e & _ & ->) | [Hn [(e & _ & ->) | (c & o & Hr & ->)]]];
    cbn [snd stdin stdin_fault stdout_fault spawned]; auto.
  split; [reflexivity|]. split; [reflexivity|].
  right. exists c, o. auto.
Qed.



(** X2.  A call starts at most one child process, and one only when it
    passes the elevation block and, for a destructive command, the
    confirmation; its argument vector is the lowercased, trimmed name
    followed by the white-space separated arguments.  On a console that
    works a call that passes the two gates starts the child process
    exactly when the host can start it. *)
Theorem at_most_one_process run name args h :
  (spawned (snd (_execute_command run name args h)) = spawned h
   \/ (spawned (snd (_execute_command run name args h))
       = (spawned h ++ [normalize_name name :: split args])%list
       /\ gate_open name args h = true))
  /\ (console_works h ->
      spawned (snd (_execute_command run name args h))
      = (spawned h
         ++ if gate_open name args h
               && is_started (run (argv_of name args)
                                (pending_at_run name args h))
            then [normalize_name name :: split args] else [])%list).
Proof.
  split.
  - rewrite GatewayFacts.execute_unfold. unfold gate_open.
    destruct (elevation_blocked (normalize_name name) args);
      [left; reflexivity|].
    cbv zeta. cbn [negb andb].
    destruct (destructive name); cbn [negb orb].
    + destruct (GatewayFacts.confirmation_cases (normalize_name name) args h)
        as [[e ->] | [-> | (line & rest & Hin & _ & ->)]];
        [left; reflexivity | left; reflexivity |].
      unfold affirmative, pending_reply. rewrite Hin.
      destruct (String.eqb (strip (lower line)) "yes");
        [|left; reflexivity].
      destruct (attempt_host run (normalize_name name) args
                  (MkHost rest (stdin_fault h) (stdout_fault h) (spawned h)))
        as (_ & _ & [-> | (c & o & _ & _ & _ & Hsp)]);
        [left; reflexivity|].
      right. split; [exact Hsp|reflexivity].
    + destruct (attempt_host run (normalize_name name) args h)
        as (_ & _ & [-> | (c & o & _ & _ & _ & Hsp)]);
        [left; reflexivity|].
      right. split; [exact Hsp|reflexivity].
  - intros Hw. rewrite GatewayFacts.execute_unfold.
    unfold gate_open, pending_at_run, asked, argv_of.
    destruct (elevation_blocked (normalize_name name) args);
      [cbn; now rewrite app_nil_r|].
    cbv zeta. cbn [negb andb].
    assert (Hgen : forall h1,
               accepts_all (stdout_fault h1) ->
               spawned (snd (try_except
                               (run_and_report run (normalize_name name)
                                  args)
                               (fun e => Some (ret (fault_message
                                                      (normalize_name name)
                                                      e)))
                               h1))
               = (spawned h1
                  ++ if is_started (run (normalize_name name :: split args)
                                      (stdin h1))
                     then [normalize_name name :: split args]
                     else [])%list).
    { intros h1 Hq.
      destruct (GatewayFacts.report_cases run (normalize_name name) args h1)
        as [(e & Hf & _) | [_ [(e & Hr & ->) | (c & o & Hr & ->)]]].
      - rewrite Hq in Hf. discriminate Hf.
      - rewrite Hr. cbn. now rewrite app_nil_r.
      - rewrite Hr. reflexivity. }
    destruct (destructive name); cbn [negb orb].
    + rewrite (GatewayFacts.confirmation_outcome _ _ _ Hw).
      destruct (affirmative h).
      * rewrite Hgen by apply Hw. reflexivity.
      * cbn. now rewrite app_nil_r.
    + apply Hgen, Hw.
Qed.

Lemma at_most_one_process_witness :
  spawned (snd (_execute_command Samples.nothing_installed "ls" "-l"
                  (Samples.console [])))
  = [].
Proof.
  exact (proj2 (at_most_one_process Samples.nothing_installed "ls" "-l"
                  (Samples.console []))
           (GatewayFacts.works_console _)).
Defined.

Lemma append_truthy a b : truthy (a ++ b) = truthy a || truthy b.
Proof. now destruct a. Qed.

Lemma format_output_truthy r : truthy (format_output r) = true.
Proof.
  unfold format_output.
  match goal with
  | |- truthy (if truthy ?o then _ else _) = true => destruct (truthy o) eqn:E
  end; [exact E | reflexivity].
Qed.

Lemma fault_message_truthy name e : truthy (fault_message name e) = true.
Proof.
  unfold fault_message.
  destruct (caught_by [FileNotFoundError] e); [reflexivity|].
  destruct (caught_by [TimeoutExpired] e); reflexivity.
Qed.

(** X3.  Whatever the call and whatever the child process does, the text
    returned is not empty. *)
Theorem execute_text_not_empty run name args h :
  fst (_execute_command run name args h) <> Ok "".
Proof.
  assert (Hattempt : forall h1,
             fst (try_except (run_and_report run (normalize_name name) args)
                    (fun e => Some (ret (fault_message (normalize_name name)
                                           e))) h1)
             <> Ok "").
  { intros h1.
    destruct (GatewayFacts.report_cases run (normalize_name name) args h1)
      as [(e & _ & ->) | [_ [(e & _ & ->) | (c & o & _ & ->)]]];
      cbn [fst]; intros [= Heq].
    - pose proof (fault_message_truthy (normalize_name name) e) as Ht.
      now rewrite Heq in Ht.
    - pose proof (fault_message_truthy (normalize_name name) e) as Ht.
      now rewrite Heq in Ht.
    - destruct o as [r|e].
      + pose proof (format_output_truthy r) as Ht. now rewrite Heq in Ht.
      + pose proof (fault_message_truthy (normalize_name name) e) as Ht.
        now rewrite Heq in Ht. }
  rewrite GatewayFacts.execute_unfold.
  destruct (elevation_blocked (normalize_name name) args); [discriminate|].
  cbv zeta. destruct (destructive name); [|apply Hattempt].
  destruct (human_in_the_loop_confirmation _ _ _) as [[[]|e] h'];
    [apply Hattempt | discriminate | discriminate].
Qed.

(** X4.  The gateway does not look at the return code of the child
    process: a command that fails with a non-zero code is reported like
    one that succeeds with the same output. *)
Theorem returncode_is_ignored run name args h :
  _execute_command (GatewayRunner.forget_returncode run) name args h
  = _execute_command run name args h.
Proof.
  assert (Hattempt : forall h1,
             try_except
               (run_and_report (GatewayRunner.forget_returncode run)
                  (normalize_name name) args)
               (fun e => Some (ret (fault_message (normalize_name name) e)))
               h1
             = try_except (run_and_report run (normalize_name name) args)
                 (fun e => Some (ret (fault_message (normalize_name name)
                                        e))) h1).
  { intros h1. unfold try_except, run_and_report, bind, Gateway.run,
      GatewayRunner.forget_returncode.
    destruct (say _ h1) as [[[]|e] h2]; [|reflexivity].
    destruct (run _ (stdin h2)) as [e|c [r|e]]; reflexivity. }
  rewrite !GatewayFacts.execute_unfold.
  destruct (elevation_blocked (normalize_name name) args); [reflexivity|].
  cbv zeta. destruct (destructive name); [|apply Hattempt].
  destruct (human_in_the_loop_confirmation _ _ _) as [[[]|e] h'];
    [apply Hattempt | reflexivity | reflexivity].
Qed.

End GatewayMore.

(** ** The capability scanner: the candidates and the tools made of them *)

Module ScannerMore.
Import PyText Scanner.

(** The two ways the ceiling leaves a duplicate-free candidate list: as it
    is, or cut to the essential commands in it and a sample of the
    others. *)
Lemma enforce_ceiling_cases rnd (valid : list string) :
  NoDup valid ->
  (enforce_ceiling rnd valid = valid
   /\ (Z.of_nat (length valid) <= MAX_TOOLS_TO_CREATE)%Z)
  \/ (exists sampled,
        enforce_ceiling rnd valid
        = (filter (fun cmd => cmd ∈ valid) essential_commands
           ++ sampled)%list
        /\ NoDup sampled
        /\ (forall cmd, cmd ∈ sampled ->
                        cmd ∈ valid /\ cmd ∉ essential_commands)
        /\ Z.of_nat (length (enforce_ceiling rnd valid))
           = MAX_TOOLS_TO_CREATE).
Proof.
  intros Hnd. unfold enforce_ceiling.
  destruct (Z.ltb_spec MAX_TOOLS_TO_CREATE (Z.of_nat (length valid)))
    as [Hmany|Hfew]; [right | left; split; [reflexivity | lia]].
  pose proof (ScannerFacts.candidates_split _ Hnd) as Hsplit.
  pose proof (length_filter (fun cmd => cmd ∈ valid) essential_commands)
    as Hess.
  change (length essential_commands) with 9%nat in Hess.
  set (found := filter (fun cmd => cmd ∈ valid) essential_commands) in *.
  set (others := filter (fun cmd => cmd ∉ essential_commands) valid) in *.
  assert (Hmax : MAX_TOOLS_TO_CREATE = 2000%Z) by reflexivity.
  destruct (Z.ltb_spec 0 (MAX_TOOLS_TO_CREATE - Z.of_nat (length found)));
    [|lia].
  set (k := Z.to_nat (Z.min (MAX_TOOLS_TO_CREATE - Z.of_nat (length found))
                        (Z.of_nat (length others)))).
  assert (Hk : (k <= length others)%nat) by (subst k; lia).
  exists (sample rnd 0 others k). split; [reflexivity|]. split; [|split].
  - apply ScannerFacts.sample_NoDup. subst others. now apply NoDup_filter.
  - intros cmd Hin%ScannerFacts.sample_elem_of. subst others.
    apply list_elem_of_filter in Hin. tauto.
  - rewrite length_app, (ScannerFacts.sample_length _ _ _ _ Hk).
    subst k. lia.
Qed.

Lemma final_candidates_found h cmd :
  cmd ∈ final_candidates h -> cmd ∈ candidates_found h.
Proof.
  unfold final_candidates.
  destruct (enforce_ceiling_cases (random_draw h) _
              (ScannerFacts.candidates_found_NoDup h))
    as [[-> _] | (sampled & -> & _ & Hs & _)]; [trivial|].
  intros [Hin|Hin]%elem_of_app.
  - now apply list_elem_of_filter in Hin.
  - now apply Hs.
Qed.

Lemma final_candidates_NoDup h : NoDup (final_candidates h).
Proof.
  unfold final_candidates.
  destruct (enforce_ceiling_cases (random_draw h) _
              (ScannerFacts.candidates_found_NoDup h))
    as [[-> _] | (sampled & -> & Hnd & Hs & _)].
  - apply ScannerFacts.candidates_found_NoDup.
  - apply NoDup_app. split; [|split; [|exact Hnd]].
    + apply NoDup_filter, ScannerFacts.essential_commands_NoDup.
    + intros x Hx Hin. apply list_elem_of_filter in Hx as [_ Hx].
      now apply Hs in Hin.
Qed.

Lemma present_essential_final h cmd :
  cmd ∈ essential_commands -> present h cmd = true ->
  cmd ∈ final_candidates h.
Proof.
  intros Hess Hp.
  apply (ScannerFacts.essential_candidate_iff_present h _ Hess) in Hp.
  unfold final_candidates.
  destruct (enforce_ceiling_cases (random_draw h) _
              (ScannerFacts.candidates_found_NoDup h))
    as [[-> _] | (sampled & -> & _)]; [exact Hp|].
  apply elem_of_app. left. now apply list_elem_of_filter.
Qed.

Lemma candidates_not_excluded h cmd :
  cmd ∈ candidates_found h ->
  cmd ∉ BASE_COMMANDS_TO_EXCLUDE ∪ discover_package_managers h.
Proof.
  unfold candidates_found, add_essential.
  intros [Hin|Hin]%ScannerFacts.append_found_origin.
  - now apply ScannerFacts.elem_of_initial_candidates in Hin.
  - now apply ScannerFacts.essential_not_excluded.
Qed.

(** The tools are made in the order of the candidates, at most one for
    each, named after it and running it. *)
Lemma build_tools_names h valid_cmds : forall tools,
  build_tools h valid_cmds = Ok tools ->
  (name <$> tools) `sublist_of` valid_cmds
  /\ Forall (fun t => func t = name t) tools.
Proof.
  induction valid_cmds as [|command rest IH]; intros tools; cbn [build_tools].
  - intros [= <-]. split; constructor.
  - destruct (get_command_help h command) as [help_text|e];
      cbn [rbind]; [|discriminate].
    destruct (build_tools h rest) as [made|e]; cbn [rbind]; [|discriminate].
    destruct (IH made eq_refl) as [Hsub Hall].
    unfold make_tool.
    destruct (negb (truthy (truncate_help help_text))
              || contains "No help page found" (truncate_help help_text)).
    + case_bool_decide; intros [= <-].
      * split; [now constructor | constructor; [reflexivity | exact Hall]].
      * split; [now constructor | exact Hall].
    + intros [= <-].
      split; [now constructor | constructor; [reflexivity | exact Hall]].
Qed.

(** X5.  The exclusion policy holds to the end: whenever the scan returns,
    no tool is made for a command of the base exclusion list or for a
    package manager found on the host. *)
Theorem excluded_commands_get_no_tool h tools t :
  load_system_command_tools h = Ok tools ->
  t ∈ tools ->
  name t ∉ BASE_COMMANDS_TO_EXCLUDE ∪ discover_package_managers h.
Proof.
  intros Hload Ht.
  destruct (build_tools_names _ _ _ Hload) as [Hsub _].
  apply candidates_not_excluded, final_candidates_found.
  eapply elem_of_sublist; [|exact Hsub].
  now apply list_elem_of_fmap_2.
Qed.

Lemma excluded_commands_get_no_tool_witness :
  load_system_command_tools Samples.terse_host = Ok [Samples.terse_tool]
  /\ Samples.terse_tool ∈ [Samples.terse_tool]
  /\ name Samples.terse_tool
     ∉ BASE_COMMANDS_TO_EXCLUDE
       ∪ discover_package_managers Samples.terse_host.
Proof.
  assert (Hload : load_system_command_tools Samples.terse_host
                  = Ok [Samples.terse_tool])
    by (vm_compute; reflexivity).
  split; [exact Hload|]. split; [apply list_elem_of_here|].
  exact (excluded_commands_get_no_tool Samples.terse_host _ _ Hload
           (list_elem_of_here _ _)).
Defined.

(** X6.  The ceiling is never exceeded, on any host: the final candidate
    list has at most MAX_TOOLS_TO_CREATE entries, and so has the list of
    tools whenever the scan returns. *)
Theorem ceiling_never_exceeded h :
  (Z.of_nat (length (final_candidates h)) <= MAX_TOOLS_TO_CREATE)%Z
  /\ (forall tools,
        load_system_command_tools h = Ok tools ->
        (Z.of_nat (length tools) <= MAX_TOOLS_TO_CREATE)%Z).
Proof.
  assert (Hfinal : (Z.of_nat (length (final_candidates h))
                    <= MAX_TOOLS_TO_CREATE)%Z).
  { unfold final_candidates.
    destruct (enforce_ceiling_cases (random_draw h) _
                (ScannerFacts.candidates_found_NoDup h))
      as [[-> Hle] | (sampled & _ & _ & _ & Hlen)]; lia. }
  split; [exact Hfinal|].
  intros tools Hload.
  destruct (build_tools_names _ _ _ Hload) as [Hsub _].
  apply sublist_length in Hsub. rewrite length_fmap in Hsub. lia.
Qed.

Lemma ceiling_never_exceeded_witness :
  load_system_command_tools Samples.terse_host = Ok [Samples.terse_tool]
  /\ (Z.of_nat (length [Samples.terse_tool]) <= MAX_TOOLS_TO_CREATE)%Z.
Proof.
  assert (Hload : load_system_command_tools Samples.terse_host
                  = Ok [Samples.terse_tool])
    by (vm_compute; reflexivity).
  split; [exact Hload|].
  exact (proj2 (ceiling_never_exceeded Samples.terse_host) _ Hload).
Defined.

(** X7.  Whenever the scan returns, the tools have pairwise distinct
    names, appear in the order of the final candidates, and each one's
    executor runs the command the tool is named after. *)
Theorem tools_named_after_candidates h tools :
  load_system_command_tools h = Ok tools ->
  NoDup (name <$> tools)
  /\ (name <$> tools) `sublist_of` final_candidates h
  /\ (forall t, t ∈ tools -> func t = name t).
Proof.
  intros Hload.
  destruct (build_tools_names _ _ _ Hload) as [Hsub Hall].
  split; [|split; [exact Hsub|]].
  - exact (sublist_NoDup _ _ (final_candidates_NoDup h) Hsub).
  - now apply Forall_forall.
Qed.

Lemma tools_named_after_candidates_witness :
  load_system_command_tools Samples.terse_host = Ok [Samples.terse_tool]
  /\ NoDup (name <$> [Samples.terse_tool]).
Proof.
  assert (Hload : load_system_command_tools Samples.terse_host
                  = Ok [Samples.terse_tool])
    by (vm_compute; reflexivity).
  split; [exact Hload|].
  exact (proj1 (tools_named_after_candidates Samples.terse_host _ Hload)).
Defined.

(** The tools come from candidates whose help was read. *)
Lemma build_tools_origin h valid_cmds : forall tools t,
  build_tools h valid_cmds = Ok tools ->
  t ∈ tools ->
  exists command help_text,
    command ∈ valid_cmds
    /\ get_command_help h command = Ok help_text
    /\ make_tool command help_text = Some t.
Proof.
  induction valid_cmds as [|command rest IH]; intros tools t;
    cbn [build_tools].
  - intros [= <-] Ht. inversion Ht.
  - destruct (get_command_help h command) as [help_text|e] eqn:Hhelp;
      cbn [rbind]; [|discriminate].
    destruct (build_tools h rest) as [made|e]; cbn [rbind]; [|discriminate].
    assert (Hrest : t ∈ made ->
                    exists command' help_text',
                      command' ∈ command :: rest
                      /\ get_command_help h command' = Ok help_text'
                      /\ make_tool command' help_text' = Some t).
    { intros Ht. destruct (IH made t eq_refl Ht) as (c & ht & Hc & Hh & Hm).
      exists c, ht. split; [now right | now split]. }
    destruct (make_tool command help_text) as [tool|] eqn:Hmk;
      intros [= <-] Ht; [|now apply Hrest].
    apply elem_of_cons in Ht as [->|Ht]; [|now apply Hrest].
    exists command, help_text. split; [now left | now split].
Qed.

Lemma build_tools_covers h valid_cmds : forall tools command,
  build_tools h valid_cmds = Ok tools ->
  command ∈ valid_cmds ->
  exists help_text,
    get_command_help h command = Ok help_text
    /\ forall t, make_tool command help_text = Some t -> t ∈ tools.
Proof.
  induction valid_cmds as [|c rest IH]; intros tools command;
    cbn [build_tools].
  - intros _ Hc. inversion Hc.
  - destruct (get_command_help h c) as [help_text|e] eqn:Hhelp;
      cbn [rbind]; [|discriminate].
    destruct (build_tools h rest) as [made|e]; cbn [rbind]; [|discriminate].
    intros [= <-] [->|Hc]%elem_of_cons.
    + exists help_text. split; [exact Hhelp|].
      intros t ->. now left.
    + destruct (IH made command eq_refl Hc) as (ht & Hh & Hin).
      exists ht. split; [exact Hh|]. intros t Ht.
      destruct (make_tool c help_text); [right|]; now apply Hin.
Qed.

(** X8.  An essential command that is present on the host always gets a
    tool when the scan returns, also when no help page could be read for
    it: then its description is the generic one. *)
Theorem essential_command_gets_tool h tools cmd :
  load_system_command_tools h = Ok tools ->
  cmd ∈ essential_commands ->
  present h cmd = true ->
  exists t,
    t ∈ tools /\ name t = cmd
    /\ (get_command_help h cmd = Ok "No help page found." ->
        description t
        = describe cmd ("Essential file system command: " ++ cmd)).
Proof.
  intros Hload Hess Hp.
  destruct (build_tools_covers _ _ _ cmd Hload
              (present_essential_final _ _ Hess Hp))
    as (help_text & Hhelp & Hin).
  unfold make_tool in Hin. rewrite bool_decide_eq_true_2 in Hin by exact Hess.
  destruct (negb (truthy (truncate_help help_text))
            || contains "No help page found" (truncate_help help_text))
    eqn:Hbad.
  - eexists. split; [now apply Hin|]. split; [reflexivity|]. reflexivity.
  - eexists. split; [now apply Hin|]. split; [reflexivity|].
    intros Hnone. rewrite Hhelp in Hnone. injection Hnone as ->.
    discriminate Hbad.
Qed.

Lemma essential_command_gets_tool_witness :
  load_system_command_tools MoreSamples.bare_host
  = Ok [MoreSamples.bare_tool]
  /\ "ls" ∈ essential_commands
  /\ present MoreSamples.bare_host "ls" = true
  /\ exists t, t ∈ [MoreSamples.bare_tool] /\ name t = "ls".
Proof.
  assert (Hload : load_system_command_tools MoreSamples.bare_host
                  = Ok [MoreSamples.bare_tool])
    by (vm_compute; reflexivity).
  assert (Hess : "ls" ∈ essential_commands)
    by (apply (bool_decide_unpack _); vm_compute; exact I).
  split; [exact Hload|]. split; [exact Hess|]. split; [reflexivity|].
  destruct (essential_command_gets_tool MoreSamples.bare_host _ "ls"
              Hload Hess eq_refl) as (t & Ht & Hn & _).
  now exists t.
Defined.

(** X9.  A command that is not essential gets a tool only from a help page
    that was found: its description frames the help text that was read
    (cut to the limit), which is not empty and does not contain the
    sentinel "No help page found". *)
Theorem other_tools_carry_help h tools t :
  load_system_command_tools h = Ok tools ->
  t ∈ tools ->
  name t ∉ essential_commands ->
  exists help_text,
    get_command_help h (name t) = Ok help_text
    /\ description t = describe (name t) (truncate_help help_text)
    /\ truncate_help help_text <> ""
    /\ contains "No help page found" (truncate_help help_text) = false.
Proof.
  intros Hload Ht Hne.
  destruct (build_tools_origin _ _ _ _ Hload Ht)
    as (command & help_text & _ & Hhelp & Hmk).
  unfold make_tool in Hmk.
  destruct (negb (truthy (truncate_help help_text))
            || contains "No help page found" (truncate_help help_text))
    eqn:Hbad.
  - case_bool_decide as Hess; [|discriminate].
    injection Hmk as <-. now cbn [name] in Hne.
  - injection Hmk as <-. cbn [name description].
    apply orb_false_iff in Hbad as [Hempty Hsent].
    exists help_text. split; [exact Hhelp|]. split; [reflexivity|].
    split; [|exact Hsent].
    intros Heq. rewrite Heq in Hempty. discriminate Hempty.
Qed.

Lemma other_tools_carry_help_witness :
  load_system_command_tools Samples.terse_host = Ok [Samples.terse_tool]
  /\ Samples.terse_tool ∈ [Samples.terse_tool]
  /\ (name Samples.terse_tool ∉ essential_commands)
  /\ exists help_text,
       get_command_help Samples.terse_host (name Samples.terse_tool)
       = Ok help_text.
Proof.
  assert (Hload : load_system_command_tools Samples.terse_host
                  = Ok [Samples.terse_tool])
    by (vm_compute; reflexivity).
  assert (Hne : name Samples.terse_tool ∉ essential_commands)
    by (apply (bool_decide_eq_false_1 _); vm_compute; reflexivity).
  split; [exact Hload|]. split; [apply list_elem_of_here|].
  split; [exact Hne|].
  destruct (other_tools_carry_help Samples.terse_host _ _ Hload
              (list_elem_of_here _ _) Hne) as (help_text & Hh & _).
  now exists help_text.
Defined.

(** The list the loop over the essential commands appends. *)
Lemma append_found_appends h cmds : forall valid,
  exists added,
    append_found h cmds valid = (valid ++ added)%list
    /\ forall cmd, cmd ∈ added -> cmd ∈ cmds /\ which h cmd = true.
Proof.
  unfold append_found.
  induction cmds as [|c cmds IH]; intros valid; cbn [fold_left].
  - exists []. split; [now rewrite app_nil_r|]. intros cmd Hc. inversion Hc.
  - destruct (which h c) eqn:Hw; cbn [andb].
    + destruct (negb (bool_decide (c ∈ valid))).
      * destruct (IH (valid ++ [c])%list) as (added & -> & Hadd).
        exists (c :: added). split; [now rewrite <- app_assoc|].
        intros cmd [->|Hin]%elem_of_cons.
        -- split; [now left | exact Hw].
        -- destruct (Hadd _ Hin). split; [now right | assumption].
      * destruct (IH valid) as (added & -> & Hadd).
        exists added. split; [reflexivity|].
        intros cmd Hin. destruct (Hadd _ Hin). split; [now right|assumption].
    + destruct (IH valid) as (added & -> & Hadd).
      exists added. split; [reflexivity|].
      intros cmd Hin. destruct (Hadd _ Hin). split; [now right|assumption].
Qed.

(** X10.  While the candidates do not outnumber the ceiling nothing is
    sampled: the final candidate list is the scan of PATH without the
    excluded commands, in ascending order and without repetition,
    followed by the essential commands that [which] had to add. *)
Theorem under_ceiling_nothing_sampled h :
  (Z.of_nat (length (candidates_found h)) <= MAX_TOOLS_TO_CREATE)%Z ->
  exists added,
    final_candidates h = (initial_candidates h ++ added)%list
    /\ StronglySorted String.le (initial_candidates h)
    /\ NoDup (initial_candidates h)
    /\ forall cmd, cmd ∈ added ->
                   cmd ∈ essential_commands /\ which h cmd = true
                   /\ cmd ∉ initial_candidates h.
Proof.
  intros Hfew.
  pose proof (ScannerFacts.candidates_found_NoDup h) as Hnd.
  unfold final_candidates, enforce_ceiling.
  destruct (Z.ltb_spec MAX_TOOLS_TO_CREATE
              (Z.of_nat (length (candidates_found h)))); [lia|].
  unfold candidates_found, add_essential in *.
  destruct (append_found_appends h essential_commands (initial_candidates h))
    as (added & Heq & Hadd).
  rewrite Heq in *. exists added. split; [reflexivity|].
  split; [apply StronglySorted_merge_sort; apply _|].
  split; [apply ScannerFacts.initial_candidates_NoDup|].
  intros cmd Hin. destruct (Hadd _ Hin) as [Hess Hw].
  split; [exact Hess|]. split; [exact Hw|].
  apply NoDup_app in Hnd as (_ & Hdis & _).
  intros Hinit. exact (Hdis _ Hinit Hin).
Qed.

Lemma under_ceiling_nothing_sampled_witness :
  (Z.of_nat (length (candidates_found MoreSamples.bare_host))
   <= MAX_TOOLS_TO_CREATE)%Z
  /\ exists added,
       final_candidates MoreSamples.bare_host
       = (initial_candidates MoreSamples.bare_host ++ added)%list.
Proof.
  assert (Hfew : (Z.of_nat (length (candidates_found MoreSamples.bare_host))
                  <= MAX_TOOLS_TO_CREATE)%Z)
    by (vm_compute; discriminate).
  split; [exact Hfew|].
  destruct (under_ceiling_nothing_sampled MoreSamples.bare_host Hfew)
    as (added & Heq & _).
  now exists added.
Defined.

(** X11.  Reading the help of a command never gives an empty text, and the
    only exceptions it lets through are those that are neither
    FileNotFoundError, TimeoutExpired nor OSError; for these it answers
    "No help page found.". *)
Theorem help_text_never_empty h command :
  (forall text, get_command_help h command = Ok text -> text <> "")
  /\ (forall e, get_command_help h command = Raise e ->
                caught_by [FileNotFoundError; TimeoutExpired; OSError] e
                = false).
Proof.
  assert (Hok : forall r, probe_succeeded r = true -> stdout r <> "").
  { intros r [_ Ht]%andb_true_iff Heq. rewrite Heq in Ht. discriminate Ht. }
  unfold get_command_help.
  destruct (probe h [command; "--help"]) as [r|e]; cbn [rbind].
  2:{ destruct (caught_by _ e) eqn:Hc; split; intros x [= <-];
        [discriminate | exact Hc]. }
  destruct (probe_succeeded r) eqn:Hr.
  { split; [intros text [= <-]; now apply Hok | discriminate]. }
  destruct (String.eqb (system h) "Windows"); cbn [negb rbind].
  - destruct (probe h [command; "/?"]) as [r'|e]; cbn [rbind].
    2:{ destruct (caught_by _ e) eqn:Hc; split; intros x [= <-];
          [discriminate | exact Hc]. }
    destruct (probe_succeeded r') eqn:Hr';
      (split; [intros text [= <-]|discriminate]);
      [now apply Hok | discriminate].
  - destruct (probe h ["man"; command]) as [r'|e]; cbn [rbind].
    2:{ destruct (caught_by _ e) eqn:Hc; split; intros x [= <-];
          [discriminate | exact Hc]. }
    destruct (probe_succeeded r') eqn:Hr'; cbn [rbind];
      (split; [intros text [= <-]|discriminate]);
      [now apply Hok | discriminate].
Qed.

Lemma help_text_never_empty_witness :
  get_command_help Samples.terse_host "zz" = Ok "usage: zz [file]"
  /\ "usage: zz [file]" <> "".
Proof.
  assert (Hh : get_command_help Samples.terse_host "zz"
               = Ok "usage: zz [file]") by reflexivity.
  split; [exact Hh|].
  exact (proj1 (help_text_never_empty Samples.terse_host "zz") _ Hh).
Defined.

(** X12.  Which probes decide the help text: "--help" on every platform,
    then "man" except on Windows and "/?" on Windows only.  Two hosts of
    the same platform that agree on these give the same help text,
    whatever the other probe would do. *)
Theorem help_probes_by_platform h h' command :
  system h = system h' ->
  probe h [command; "--help"] = probe h' [command; "--help"] ->
  (system h = "Windows" ->
   probe h [command; "/?"] = probe h' [command; "/?"]) ->
  (system h <> "Windows" ->
   probe h ["man"; command] = probe h' ["man"; command]) ->
  get_command_help h command = get_command_help h' command.
Proof.
  intros Hsys Hhelp Hwin Hman. unfold get_command_help.
  rewrite <- Hsys, <- Hhelp.
  destruct (String.eqb_spec (system h) "Windows") as [Hw|Hw].
  - now rewrite <- (Hwin Hw).
  - now rewrite <- (Hman Hw).
Qed.

Lemma help_probes_by_platform_witness :
  system Samples.terse_host = system MoreSamples.picky_host
  /\ probe Samples.terse_host ["zz"; "/?"]
     <> probe MoreSamples.picky_host ["zz"; "/?"]
  /\ get_command_help Samples.terse_host "zz"
     = get_command_help MoreSamples.picky_host "zz".
Proof.
  split; [reflexivity|]. split; [discriminate|].
  apply help_probes_by_platform.
  - reflexivity.
  - reflexivity.
  - discriminate.
  - reflexivity.
Defined.

End ScannerMore.

(** ** The scan of PATH *)

Module PathScanFacts.
Import PyText PathScan.

Lemma lower_char_idempotent c : lower_char (lower_char c) = lower_char c.
Proof. destruct c as [[] [] [] [] [] [] [] []]; reflexivity. Qed.

Lemma lower_idempotent s : lower (lower s) = lower s.
Proof.
  induction s as [|c s IH]; [reflexivity|].
  cbn [lower]. now rewrite lower_char_idempotent, IH.
Qed.

Lemma command_of_spec env path_dir filename command :
  command_of env path_dir filename = Some command
  <-> access_x env (path_join env path_dir filename) = true
      /\ isdir env (path_join env path_dir filename) = false
      /\ command = lower (splitext_root (seps env) filename).
Proof.
  unfold command_of.
  destruct (access_x env _), (isdir env (path_join env path_dir filename));
    cbn [andb negb]; split; try (intros [? [? ?]]; congruence);
    try discriminate.
  - intros [= <-]. auto.
Qed.

Lemma elem_of_add_commands env path_dir filenames :
  forall executables command,
    command ∈ add_commands env path_dir filenames executables
    <-> command ∈ executables
        \/ exists filename,
             filename ∈ filenames
             /\ command_of env path_dir filename = Some command.
Proof.
  unfold add_commands.
  induction filenames as [|f fs IH]; intros acc c; cbn [fold_left].
  - split; [auto|]. intros [H|(f & Hf & _)]; [exact H|].
    now apply elem_of_nil in Hf.
  - rewrite IH. split.
    + intros [H|(f' & Hf' & Hc)].
      * destruct (command_of env path_dir f) as [c'|] eqn:E; [|auto].
        apply elem_of_union in H as [H|H]; [|auto].
        apply elem_of_singleton in H as ->.
        right. exists f. split; [left|exact E].
      * right. exists f'. split; [now right|exact Hc].
    + intros [H|(f' & Hf' & Hc)].
      * left. destruct (command_of env path_dir f); [|exact H].
        apply elem_of_union. now right.
      * apply elem_of_cons in Hf' as [->|Hf'].
        -- left. rewrite Hc. apply elem_of_union. left.
           now apply elem_of_singleton.
        -- right. eauto.
Qed.

Lemma scan_directories_spec env dirs :
  forall executables found,
    scan_directories env dirs executables = Ok found ->
    forall command,
      command ∈ found
      <-> command ∈ executables
          \/ exists path_dir filenames filename,
               path_dir ∈ dirs
               /\ isdir env path_dir = true
               /\ listdir env path_dir = Ok filenames
               /\ filename ∈ filenames
               /\ command_of env path_dir filename = Some command.
Proof.
  induction dirs as [|d dirs IH]; intros acc found H c;
    cbn [scan_directories] in H.
  - injection H as <-. split; [auto|].
    intros [Hc|(d & fs & f & Hd & _)]; [exact Hc|].
    now apply elem_of_nil in Hd.
  - destruct (isdir env d) eqn:Hdir; cbn [negb] in H.
    + destruct (listdir env d) as [fs|e] eqn:Hls.
      * rewrite (IH _ _ H c), elem_of_add_commands. split.
        -- intros [[Hc|(f & Hf & Hcmd)]|(d' & fs' & f & Hd' & Hrest)].
           ++ now left.
           ++ right. exists d, fs, f. split; [left|auto].
           ++ right. exists d', fs', f. split; [now right|exact Hrest].
        -- intros [Hc|(d' & fs' & f & Hd' & Hdir' & Hls' & Hf & Hcmd)].
           ++ auto.
           ++ apply elem_of_cons in Hd' as [->|Hd'].
              ** left. right. exists f. split; [congruence|exact Hcmd].
              ** right. exists d', fs', f. auto.
      * destruct (caught_by [OSError] e); [|discriminate].
        rewrite (IH _ _ H c). split.
        -- intros [Hc|(d' & fs' & f & Hd' & Hrest)]; [now left|].
           right. exists d', fs', f. split; [now right|exact Hrest].
        -- intros [Hc|(d' & fs' & f & Hd' & Hdir' & Hls' & Hrest)];
             [now left|].
           apply elem_of_cons in Hd' as [->|Hd']; [congruence|].
           right. exists d', fs', f. auto.
    + rewrite (IH _ _ H c). split.
      * intros [Hc|(d' & fs' & f & Hd' & Hrest)]; [now left|].
        right. exists d', fs', f. split; [now right|exact Hrest].
      * intros [Hc|(d' & fs' & f & Hd' & Hdir' & Hrest)]; [now left|].
        apply elem_of_cons in Hd' as [->|Hd']; [congruence|].
        right. exists d', fs', f. auto.
Qed.

Lemma scan_directories_total env dirs :
  (forall path_dir e,
     listdir env path_dir = Raise e -> caught_by [OSError] e = true) ->
  forall executables,
    exists found, scan_directories env dirs executables = Ok found.
Proof.
  intros Hos. induction dirs as [|d dirs IH]; intros acc;
    cbn [scan_directories]; [eauto|].
  destruct (isdir env d); cbn [negb]; [|apply IH].
  destruct (listdir env d) as [fs|e] eqn:Hls; [apply IH|].
  rewrite (Hos _ _ Hls). apply IH.
Qed.

(** When the scan returns, PATH was empty and nothing was found, or the
    directories of PATH were scanned. *)
Lemma discover_ok env found :
  discover_executables_from_path env = Ok found ->
  (env_PATH env = "" /\ found = ∅)
  \/ (env_PATH env <> ""
      /\ scan_directories env (split_on (pathsep env) (env_PATH env)) ∅
         = Ok found).
Proof.
  unfold discover_executables_from_path.
  destruct (env_PATH env) as [|a p]; cbn [truthy negb].
  - destruct (write _ _); cbn [rbind]; [|discriminate].
    intros [= <-]. now left.
  - destruct (write _ _); cbn [rbind]; [|discriminate].
    intros H. right. split; [discriminate|exact H].
Qed.

(** X13.  The scan of PATH finds exactly the names that some entry of
    some listable directory of a non-empty PATH yields: the entry is
    executable and not a directory, and the name is the entry without its
    extension, in lower case. *)
Theorem path_scan_finds_exactly env found :
  discover_executables_from_path env = Ok found ->
  forall command,
    command ∈ found <-> env_PATH env <> "" /\ yields env command.
Proof.
  unfold yields. intros H c.
  apply discover_ok in H as [[Hp ->] | [Hp H]].
  - split; [intros Hc; now apply elem_of_empty in Hc|].
    now intros [Hne _].
  - rewrite (scan_directories_spec _ _ _ _ H c). split.
    + intros [Hc|(d & fs & f & Hd & Hdir & Hls & Hf & Hcmd)];
        [now apply elem_of_empty in Hc|].
      split; [exact Hp|].
      apply command_of_spec in Hcmd as (Hx & Hnd & ->).
      exists d, fs, f. auto 10.
    + intros [_ (d & fs & f & Hd & Hdir & Hls & Hf & Hx & Hnd & Hc)].
      right. exists d, fs, f. repeat (split; [assumption|]).
      apply command_of_spec. auto.
Qed.

Lemma path_scan_finds_exactly_witness :
  discover_executables_from_path two_directories
  = Ok {[ "ls"; "tar"; ".profile" ]}
  /\ ("tar" ∈ ({[ "ls"; "tar"; ".profile" ]} : gset string)
      <-> env_PATH two_directories <> "" /\ yields two_directories "tar").
Proof.
  assert (H : discover_executables_from_path two_directories
              = Ok {[ "ls"; "tar"; ".profile" ]}) by (vm_compute; reflexivity).
  split; [exact H|].
  exact (path_scan_finds_exactly two_directories _ H "tar").
Defined.

Lemma scan_directories_raises env dirs :
  forall executables e,
    scan_directories env dirs executables = Raise e ->
    exists path_dir,
      path_dir ∈ dirs
      /\ listdir env path_dir = Raise e
      /\ caught_by [OSError] e = false.
Proof.
  induction dirs as [|d dirs IH]; intros acc e; cbn [scan_directories];
    [discriminate|].
  assert (Hrest : forall acc',
             scan_directories env dirs acc' = Raise e ->
             exists path_dir,
               path_dir ∈ d :: dirs
               /\ listdir env path_dir = Raise e
               /\ caught_by [OSError] e = false).
  { intros acc' H. destruct (IH _ _ H) as (d' & Hd' & Hrest).
    exists d'. split; [now right|exact Hrest]. }
  destruct (isdir env d); cbn [negb]; [|apply Hrest].
  destruct (listdir env d) as [fs|e0] eqn:Hls; [apply Hrest|].
  destruct (caught_by [OSError] e0) eqn:Hc; [apply Hrest|].
  intros [= <-]. exists d. split; [left|auto].
Qed.

(** X14.  The scan of PATH raises only what one of its two messages
    raised on the console, or what the listing of a directory raised
    that is not an OSError.  A directory of PATH that cannot be listed
    does not stop the scan: on a console on which the messages can be
    written, and as long as listing fails with an OSError only, the scan
    returns a set. *)
Theorem path_scan_survives_unreadable env :
  (forall e,
      discover_executables_from_path env = Raise e ->
      (exists text, env_stdout_fault env text = Some e)
      \/ exists path_dir,
           listdir env path_dir = Raise e
           /\ caught_by [OSError] e = false)
  /\ (accepts_all (env_stdout_fault env) ->
      (forall path_dir e,
          listdir env path_dir = Raise e -> caught_by [OSError] e = true) ->
      exists found, discover_executables_from_path env = Ok found).
Proof.
  assert (Hraise : forall e,
             discover_executables_from_path env = Raise e ->
             (exists text, env_stdout_fault env text = Some e)
             \/ exists path_dir,
                  listdir env path_dir = Raise e
                  /\ caught_by [OSError] e = false).
  { intros e. unfold discover_executables_from_path, write.
    destruct (negb (truthy (env_PATH env)));
      match goal with
      | |- context [env_stdout_fault env ?t] =>
          destruct (env_stdout_fault env t) as [e1|] eqn:E
      end; cbn [rbind]; try discriminate;
      try (intros [= <-]; left; eauto).
    intros H. apply scan_directories_raises in H as (d & _ & Hls & Hc).
    right. eauto. }
  split; [exact Hraise|]. intros Hq Hos.
  destruct (discover_executables_from_path env) as [found|e] eqn:E;
    [eauto|].
  destruct (Hraise e eq_refl) as [[text Ht] | (d & Hls & Hc)].
  - rewrite Hq in Ht. discriminate Ht.
  - rewrite (Hos _ _ Hls) in Hc. discriminate Hc.
Qed.

Lemma path_scan_survives_unreadable_witness :
  exists found, discover_executables_from_path two_directories = Ok found.
Proof.
  apply (proj2 (path_scan_survives_unreadable two_directories)).
  - intros text. reflexivity.
  - intros d e. cbn [listdir two_directories].
    destruct (String.eqb d "/bin"); [discriminate|].
    intros [= <-]. reflexivity.
Defined.

(** Without a PATH, on a console that cannot encode the warning, the scan
    raises. *)
Example path_scan_raises_on_ascii_console :
  discover_executables_from_path no_path
  = Raise (Exn UnicodeEncodeError "'ascii' codec can't encode character").
Proof. vm_compute. reflexivity. Qed.

(** X15.  Every name the scan of PATH finds is in lower case. *)
Theorem path_scan_names_lower_case env found command :
  discover_executables_from_path env = Ok found ->
  command ∈ found ->
  lower command = command.
Proof.
  intros H Hc. apply discover_ok in H as [[_ ->] | [_ H]].
  - now apply elem_of_empty in Hc.
  - apply (scan_directories_spec _ _ _ _ H) in Hc
      as [Hc|(d & fs & f & _ & _ & _ & _ & Hcmd)];
      [now apply elem_of_empty in Hc|].
    apply command_of_spec in Hcmd as (_ & _ & ->).
    apply lower_idempotent.
Qed.

Lemma path_scan_names_lower_case_witness :
  lower "ls" = "ls".
Proof.
  apply (path_scan_names_lower_case two_directories
           {[ "ls"; "tar"; ".profile" ]}).
  - vm_compute; reflexivity.
  - set_solver.
Defined.

End PathScanFacts.

(** ** From the scan of PATH to the tools *)

Module ScanLinkFacts.
Import PyText PathScan Scanner.

Lemma essential_lower_case command :
  command ∈ essential_commands -> lower command = command.
Proof.
  unfold essential_commands. intros H.
  repeat (apply elem_of_cons in H as [->|H]; [reflexivity|]).
  now apply elem_of_nil in H.
Qed.

(** X16.  When the executables of the host are those that the scan of
    PATH found, every tool is named in lower case, and its name is one of
    the essential commands or the name that an executable entry of a
    directory of PATH yields. *)
Theorem tools_come_from_path env h tools t :
  discover_executables_from_path env = Ok (path_executables h) ->
  load_system_command_tools h = Ok tools ->
  t ∈ tools ->
  lower (name t) = name t
  /\ (name t ∈ essential_commands
      \/ (env_PATH env <> "" /\ yields env (name t))).
Proof.
  intros Hscan Hload Ht.
  destruct (ScannerMore.build_tools_names _ _ _ Hload) as [Hsub _].
  assert (Hname : name t ∈ final_candidates h).
  { eapply elem_of_sublist; [|exact Hsub].
    apply list_elem_of_fmap. eauto. }
  apply ScannerMore.final_candidates_found in Hname.
  apply ScannerFacts.append_found_origin in Hname as [Hinit|Hess].
  - apply ScannerFacts.elem_of_initial_candidates in Hinit as [Hpath _].
    apply PathScanFacts.discover_ok in Hscan as [[_ Hempty] | [Hp Hscan]].
    + rewrite Hempty in Hpath. now apply elem_of_empty in Hpath.
    + apply (PathScanFacts.scan_directories_spec _ _ _ _ Hscan) in Hpath
        as [Hc|(d & fs & f & Hd & Hdir & Hls & Hf & Hcmd)];
        [now apply elem_of_empty in Hc|].
      apply PathScanFacts.command_of_spec in Hcmd as (Hx & Hnd & Hc).
      split; [rewrite Hc; apply PathScanFacts.lower_idempotent|].
      right. split; [exact Hp|].
      unfold yields. exists d, fs, f. auto 10.
  - split; [now apply essential_lower_case|now left].
Qed.

Lemma tools_come_from_path_witness :
  lower "tar" = "tar"
  /\ ("tar" ∈ essential_commands
      \/ (env_PATH two_directories <> "" /\ yields two_directories "tar")).
Proof.
  assert (Hscan : discover_executables_from_path two_directories
                  = Ok (path_executables MoreSamples.scanned_host))
    by (vm_compute; reflexivity).
  assert (Hload : load_system_command_tools MoreSamples.scanned_host
                  = Ok [MkTool ".profile" (describe ".profile" "usage")
                          ".profile";
                        MkTool "ls" (describe "ls" "usage") "ls";
                        MkTool "tar" (describe "tar" "usage") "tar"])
    by (vm_compute; reflexivity).
  apply (tools_come_from_path two_directories MoreSamples.scanned_host _
           (MkTool "tar" (describe "tar" "usage") "tar") Hscan Hload).
  do 2 apply list_elem_of_further. apply list_elem_of_here.
Defined.

End ScanLinkFacts.

(** ** The registry, the index and the store wrapper *)

Module StoreFacts.
Import PyText Adapter Cache Store.

(** *** The registry built from the tools *)

Lemma fold_insert_other (l : list (string * Scanner.Tool)) :
  forall (acc : gmap string (gmap string string)) id,
    id ∉ l.*1 ->
    fold_left (fun reg it => <[fst it := tool_obj (snd it)]> reg) l acc !! id
    = acc !! id.
Proof.
  induction l as [|[id0 t0] l IH]; intros acc id Hid; [reflexivity|].
  cbn [fold_left fst snd]. rewrite fmap_cons in Hid. cbn [fst] in Hid.
  apply not_elem_of_cons in Hid as [Hne Hid].
  rewrite IH by exact Hid. now apply lookup_insert_ne.
Qed.

Lemma fold_insert_lookup (l : list (string * Scanner.Tool)) :
  forall (acc : gmap string (gmap string string)) id t,
    NoDup l.*1 ->
    (id, t) ∈ l ->
    fold_left (fun reg it => <[fst it := tool_obj (snd it)]> reg) l acc !! id
    = Some (tool_obj t).
Proof.
  induction l as [|[id0 t0] l IH]; intros acc id t Hnd Hin.
  - now apply elem_of_nil in Hin.
  - rewrite fmap_cons in Hnd. cbn [fst] in Hnd.
    apply NoDup_cons in Hnd as [Hfresh Hnd].
    cbn [fold_left fst snd].
    apply elem_of_cons in Hin as [[= -> ->]|Hin].
    + rewrite fold_insert_other by exact Hfresh. apply lookup_insert_eq.
    + now apply IH.
Qed.

Lemma fold_insert_size (l : list (string * Scanner.Tool)) :
  forall (acc : gmap string (gmap string string)),
    NoDup l.*1 ->
    (forall id, id ∈ l.*1 -> acc !! id = None) ->
    size (fold_left (fun reg it => <[fst it := tool_obj (snd it)]> reg) l acc)
    = (size acc + length l)%nat.
Proof.
  induction l as [|[id0 t0] l IH]; intros acc Hnd Hfresh.
  - cbn. lia.
  - rewrite fmap_cons in Hnd, Hfresh. cbn [fst] in Hnd, Hfresh.
    apply NoDup_cons in Hnd as [Hid0 Hnd].
    cbn [fold_left fst snd length]. rewrite IH.
    + rewrite map_size_insert_None by (apply Hfresh; left). lia.
    + exact Hnd.
    + intros id Hid. rewrite lookup_insert_ne.
      * apply Hfresh. now right.
      * intros ->. contradiction.
Qed.

(** X17.  With ids that are pairwise distinct, one for each tool, the
    registry that is built has one entry for each tool, and each id leads
    to its tool. *)
Theorem registry_one_entry_per_tool ids all_tools :
  NoDup ids ->
  length ids = length all_tools ->
  size (build_registry ids all_tools) = length all_tools
  /\ forall i id t,
       ids !! i = Some id -> all_tools !! i = Some t ->
       build_registry ids all_tools !! id = Some (tool_obj t).
Proof.
  intros Hnd Hlen. unfold build_registry.
  assert (Hfst : (zip ids all_tools).*1 = ids) by (apply fst_zip; lia).
  split.
  - rewrite fold_insert_size.
    + rewrite map_size_empty, length_zip_with. lia.
    + now rewrite Hfst.
    + intros id _. apply lookup_empty.
  - intros i id t Hi Ht. apply fold_insert_lookup; [now rewrite Hfst|].
    apply list_elem_of_lookup. exists i.
    apply lookup_zip_with_Some. eauto.
Qed.

Lemma registry_one_entry_per_tool_witness :
  size (build_registry ["id-1"; "id-2"]
          [Samples.terse_tool; MoreSamples.bare_tool]) = 2%nat
  /\ build_registry ["id-1"; "id-2"]
       [Samples.terse_tool; MoreSamples.bare_tool] !! "id-2"
     = Some (tool_obj MoreSamples.bare_tool).
Proof.
  assert (Hnd : NoDup ["id-1"; "id-2"]).
  { apply NoDup_cons. split; [|apply NoDup_singleton].
    intros H. apply list_elem_of_singleton in H. discriminate. }
  destruct (registry_one_entry_per_tool ["id-1"; "id-2"]
              [Samples.terse_tool; MoreSamples.bare_tool] Hnd eq_refl)
    as [Hsize Hlook].
  split; [exact Hsize|].
  exact (Hlook 1%nat "id-2" MoreSamples.bare_tool eq_refl eq_refl).
Defined.

(** *** The documents of the index *)

Lemma has_tool_fields_spec (tool : gmap string string) :
  has_tool_fields tool = true
  <-> exists n d, tool !! "name" = Some n /\ tool !! "description" = Some d.
Proof.
  unfold has_tool_fields. rewrite andb_true_iff, !bool_decide_eq_true.
  split.
  - intros [[n Hn] [d Hd]]. eauto.
  - intros (n & d & Hn & Hd). split; eauto.
Qed.

Lemma documents_of_valid items :
  forallb (fun it => has_tool_fields (snd it)) items = true ->
  exists docs,
    documents_of items = Ok docs
    /\ length docs = length items
    /\ forall content doc,
         (content, doc) ∈ docs
         <-> exists id tool n d,
               (id, tool) ∈ items
               /\ tool !! "name" = Some n
               /\ tool !! "description" = Some d
               /\ content = n ++ ": " ++ d
               /\ doc = MkDocument {[ "tool_id" := id ]}.
Proof.
  induction items as [|[id tool] items IH]; intros Hv.
  - exists []. split; [reflexivity|]. split; [reflexivity|].
    intros content doc. split.
    + intros H. now apply elem_of_nil in H.
    + intros (? & ? & ? & ? & H & _). now apply elem_of_nil in H.
  - cbn [forallb snd] in Hv. apply andb_true_iff in Hv as [Hf Hv].
    destruct (IH Hv) as (docs & Hdocs & Hlen & Hin).
    apply has_tool_fields_spec in Hf as (n & d & Hn & Hd).
    exists ((n ++ ": " ++ d, MkDocument {[ "tool_id" := id ]}) :: docs).
    split; [|split].
    + cbn [documents_of]. unfold document_of. rewrite Hn, Hd.
      cbn [rbind]. rewrite Hdocs. reflexivity.
    + cbn [length]. now rewrite Hlen.
    + intros content doc. rewrite elem_of_cons, Hin. split.
      * intros [[= -> ->]|(id' & tool' & n' & d' & Hi & Hrest)].
        -- exists id, tool, n, d. split; [left|auto].
        -- exists id', tool', n', d'. split; [now right|exact Hrest].
      * intros (id' & tool' & n' & d' & Hi & Hn' & Hd' & -> & ->).
        apply elem_of_cons in Hi as [[= -> ->]|Hi].
        -- left. congruence.
        -- right. exists id', tool', n', d'. auto.
Qed.

Lemma documents_of_invalid items :
  forallb (fun it => has_tool_fields (snd it)) items = false ->
  exists e, documents_of items = Raise e /\ exn_cls e = AttributeError.
Proof.
  induction items as [|[id tool] items IH]; intros Hv; [discriminate|].
  cbn [forallb snd] in Hv. cbn [documents_of]. unfold document_of.
  destruct (has_tool_fields tool) eqn:Hf.
  - apply has_tool_fields_spec in Hf as (n & d & -> & ->).
    cbn [andb] in Hv. destruct (IH Hv) as (e & -> & He).
    exists e. split; [reflexivity|exact He].
  - destruct (tool !! "name") as [n|] eqn:Hn; [|eauto].
    destruct (tool !! "description") as [d|] eqn:Hd; [|eauto].
    assert (has_tool_fields tool = true) by (apply has_tool_fields_spec; eauto).
    congruence.
Qed.

Lemma valid_registry_named (tool_registry : gmap string (gmap string string)) :
  all_tools_valid tool_registry = true -> all_named tool_registry.
Proof.
  unfold all_tools_valid, all_named. rewrite forallb_forall.
  intros Hv id tool Hid. specialize (Hv (id, tool)). cbn [snd] in Hv.
  unfold has_tool_fields in Hv. unfold has_name.
  apply andb_true_iff in Hv as [Hn _]; [exact Hn|].
  now apply list_elem_of_In, elem_of_map_to_list.
Qed.

Lemma built_registry_named ids all_tools :
  all_named (build_registry ids all_tools).
Proof.
  destruct (CacheFacts.build_registry_tools ids all_tools) as [tools ->].
  apply valid_registry_named, CacheFacts.built_tools_valid.
Qed.

Lemma documents_to_index_ok
    (tool_registry : gmap string (gmap string string)) docs :
  documents_to_index tool_registry = Ok docs ->
  all_tools_valid tool_registry = true
  /\ length docs = size tool_registry
  /\ forall content doc,
       (content, doc) ∈ docs
       <-> exists id tool n d,
             tool_registry !! id = Some tool
             /\ tool !! "name" = Some n
             /\ tool !! "description" = Some d
             /\ content = n ++ ": " ++ d
             /\ doc = MkDocument {[ "tool_id" := id ]}.
Proof.
  unfold documents_to_index, all_tools_valid. intros Hdocs.
  destruct (forallb _ (map_to_list tool_registry)) eqn:Hv.
  - destruct (documents_of_valid _ Hv) as (docs' & Hd' & Hlen & Hin).
    rewrite Hd' in Hdocs. injection Hdocs as <-.
    split; [reflexivity|]. split.
    + now rewrite Hlen, length_map_to_list.
    + intros content doc. rewrite Hin.
      split; intros (id & tool & n & d & Hi & Hrest);
        exists id, tool, n, d; (split; [|exact Hrest]);
        now apply elem_of_map_to_list.
  - destruct (documents_of_invalid _ Hv) as (e & He & _). congruence.
Qed.

(** X18.  The documents handed to the index mirror the registry: when
    every tool has a name and a description there is one document for
    each entry, holding "name: description" and the id of the entry;
    otherwise building the documents raises an AttributeError. *)
Theorem index_mirrors_registry
    (tool_registry : gmap string (gmap string string)) :
  match documents_to_index tool_registry with
  | Ok docs =>
      all_tools_valid tool_registry = true
      /\ length docs = size tool_registry
      /\ forall content doc,
           (content, doc) ∈ docs
           <-> exists id tool n d,
                 tool_registry !! id = Some tool
                 /\ tool !! "name" = Some n
                 /\ tool !! "description" = Some d
                 /\ content = n ++ ": " ++ d
                 /\ doc = MkDocument {[ "tool_id" := id ]}
  | Raise e =>
      all_tools_valid tool_registry = false /\ exn_cls e = AttributeError
  end.
Proof.
  destruct (documents_to_index tool_registry) as [docs|e] eqn:E.
  - now apply documents_to_index_ok.
  - unfold documents_to_index in E. unfold all_tools_valid.
    destruct (forallb _ (map_to_list tool_registry)) eqn:Hv.
    + destruct (documents_of_valid _ Hv) as (docs & Hd & _). congruence.
    + destruct (documents_of_invalid _ Hv) as (e' & He' & Hcls).
      split; [reflexivity|]. congruence.
Qed.

(** *** Search *)

Section SearchFacts.
Variable str_of : value -> string.
Variable Score : Type.
Variable backend : string -> value -> result (list (Document * Score)).
Variable rt : Runtime Score.
Variable tool_registry : gmap string (gmap string string).

Lemma silent_quiet args kwargs :
  silent Score rt -> quiet Score rt args kwargs.
Proof.
  intros (Hcall & Hstr & Hout). split; [apply Hcall|]. split; [|exact Hout].
  induction (converted args kwargs) as [|v l IH]; [reflexivity|].
  cbn [convert_all]. now rewrite Hstr.
Qed.

Lemma name_to_show_ok key :
  all_named tool_registry ->
  exists shown, name_to_show Score rt (tool_registry !! key) = Ok shown.
Proof.
  intros Hnamed. unfold name_to_show.
  destruct (tool_registry !! key) as [t|] eqn:E; [|eauto].
  destruct (truth Score rt t); [|eauto].
  pose proof (Hnamed _ _ E) as Hn. unfold has_name in Hn.
  apply bool_decide_eq_true in Hn as [n ->]. eauto.
Qed.

Lemma listing_succeeds (rs : list (SearchResult Score)) :
  all_named tool_registry ->
  scores_format Score rt ->
  accepts_all (rt_stdout_fault Score rt) ->
  forall i, listing Score rt tool_registry i rs = Ok tt.
Proof.
  intros Hnamed Hfmt Hout. induction rs as [|r rs IH]; intros i;
    [reflexivity|].
  cbn [listing].
  destruct (name_to_show_ok (key r) Hnamed) as [shown ->].
  destruct (Hfmt (score r)) as [text ->]. cbn [rbind].
  rewrite AdapterFacts.write_ok by exact Hout. cbn [rbind]. apply IH.
Qed.

Lemma wrap_results_shape (hits : list (Document * Score)) :
  wrap_results Score hits
  = if forallb (fun hit => bool_decide
                             (is_Some (metadata (fst hit) !! "tool_id"))) hits
    then Ok ((fun hit => MkSearchResult
                           (default "" (metadata (fst hit) !! "tool_id"))
                           (snd hit)) <$> hits)
    else Raise (Exn KeyError "'tool_id'").
Proof.
  induction hits as [|[doc sc] hits IH]; [reflexivity|].
  cbn [wrap_results forallb fst snd].
  destruct (metadata doc !! "tool_id") as [id|] eqn:E.
  - rewrite bool_decide_eq_true_2 by eauto. cbn [andb]. rewrite IH.
    destruct (forallb _ hits); [|reflexivity].
    rewrite fmap_cons. cbn [rbind fst snd]. rewrite E. reflexivity.
  - rewrite bool_decide_eq_false_2 by (intros [? ?]; discriminate).
    reflexivity.
Qed.

Ltac head_step :=
  match goal with
  | |- rbind ?m _ = _ -> _ =>
      destruct m as [?|?]; cbn [rbind]; [|discriminate]
  end.

(** What search returns, when it returns: nothing, or the wrapped hits
    of a lookup that succeeded for a query that is not empty. *)
Lemma search_returns args kwargs rs :
  search str_of Score backend rt tool_registry args kwargs = Ok rs ->
  rs = []
  \/ exists query hits,
       fst (normalize str_of args kwargs) = Some query
       /\ truthy query = true
       /\ backend query (snd (normalize str_of args kwargs)) = Ok hits
       /\ wrap_results Score hits = Ok rs.
Proof.
  unfold search.
  head_step. head_step. head_step.
  destruct (normalize str_of args kwargs) as [[query|] k]; cbn [fst snd].
  2:{ head_step. intros [= <-]. now left. }
  destruct (truthy query) eqn:Hq; cbn [negb].
  2:{ head_step. intros [= <-]. now left. }
  head_step.
  assert (Hhandler : forall e0,
             (let? _ := write (rt_stdout_fault Score rt)
                          ("Warning: Search failed: " ++ exn_str e0) in
              let? _ := write (rt_stdout_fault Score rt)
                          ("Debug: Query type: <class 'str'>, "
                           ++ "Query value: " ++ repr_str Score rt query) in
              Ok []) = Ok rs -> rs = []).
  { intros e0. head_step. head_step. now intros [= <-]. }
  unfold rtry.
  destruct (backend query k) as [hits|e] eqn:Hb; cbn [rbind];
    [|intros H; left; exact (Hhandler _ H)].
  destruct (wrap_results Score hits) as [rs'|e] eqn:Hw; cbn [rbind];
    [|intros H; left; exact (Hhandler _ H)].
  match goal with
  | |- match rbind ?m _ with _ => _ end = _ -> _ => destruct m as [[]|e]
  end; cbn [rbind]; [|intros H; left; exact (Hhandler _ H)].
  match goal with
  | |- match rbind ?m _ with _ => _ end = _ -> _ => destruct m as [[]|e]
  end; cbn [rbind]; [|intros H; left; exact (Hhandler _ H)].
  intros [= <-]. right. exists query, hits. auto.
Qed.

(** X19.  A search that reaches the backend gives all or nothing: when
    it returns, it returns one result for each hit, in the order of the
    hits, with the tool id of the hit as its key and the score of the
    hit, or the empty list; and it returns the empty list when some hit
    has no tool id. *)
Theorem search_all_or_nothing args kwargs query hits rs :
  fst (normalize str_of args kwargs) = Some query ->
  backend query (snd (normalize str_of args kwargs)) = Ok hits ->
  search str_of Score backend rt tool_registry args kwargs = Ok rs ->
  rs = []
  \/ (Forall (fun hit => is_Some (metadata (fst hit) !! "tool_id")) hits
      /\ rs = (fun hit => MkSearchResult
                            (default "" (metadata (fst hit) !! "tool_id"))
                            (snd hit)) <$> hits).
Proof.
  intros Hq Hb Hs.
  destruct (search_returns _ _ _ Hs)
    as [-> | (q' & hits' & Hq' & _ & Hb' & Hw)]; [now left|].
  rewrite Hq in Hq'. injection Hq' as <-.
  rewrite Hb in Hb'. injection Hb' as <-.
  rewrite wrap_results_shape in Hw.
  destruct (forallb _ hits) eqn:Hall; [|discriminate].
  injection Hw as <-. right. split; [|reflexivity].
  apply Forall_forall. intros hit Hhit.
  rewrite forallb_forall in Hall.
  apply list_elem_of_In, Hall in Hhit. now apply bool_decide_eq_true in Hhit.
Qed.

(** X20.  With a registry in which every tool has a name, scores that
    can be formatted, and an interpreter and a console that raise
    nothing, the messages and the listing change nothing: search returns
    what the normalization, the lookup and the wrapping alone give. *)
Theorem listing_keeps_results args kwargs :
  all_named tool_registry ->
  scores_format Score rt ->
  quiet Score rt args kwargs ->
  search str_of Score backend rt tool_registry args kwargs
  = bare_search str_of Score backend args kwargs.
Proof.
  intros Hnamed Hfmt Hq.
  rewrite (AdapterFacts.search_quiet str_of Score backend rt tool_registry
             _ _ Hq).
  unfold bare_search.
  destruct (normalize str_of args kwargs) as [[q|] k]; cbn [fst snd];
    [|reflexivity].
  destruct (negb (truthy q)); [reflexivity|].
  destruct (backend q k) as [hits|e]; cbn [rbind]; [|reflexivity].
  destruct (wrap_results Score hits) as [rs|e]; cbn [rbind]; [|reflexivity].
  destruct rs as [|r rs]; [reflexivity|].
  now rewrite listing_succeeds by (exact Hnamed || exact Hfmt || apply Hq).
Qed.

(** X21.  The messages and the listing can only lose results: whenever
    search returns, it returns what the normalization, the lookup and
    the wrapping alone give, or nothing. *)
Theorem listing_only_loses_results args kwargs rs :
  search str_of Score backend rt tool_registry args kwargs = Ok rs ->
  rs = [] \/ bare_search str_of Score backend args kwargs = Ok rs.
Proof.
  intros Hs.
  destruct (search_returns _ _ _ Hs)
    as [-> | (q & hits & Hq & Ht & Hb & Hw)]; [now left|].
  right. unfold bare_search.
  destruct (normalize str_of args kwargs) as [q' k]. cbn [fst snd] in Hq, Hb.
  subst q'. rewrite Ht, Hb. cbn [negb rbind]. now rewrite Hw.
Qed.

(** The lookup of a key that leads to a named tool, on a console that
    accepts every message. *)
Lemma store_get_named key tool :
  accepts_all (rt_stdout_fault Score rt) ->
  tool_registry !! key = Some tool ->
  has_name tool = true ->
  store_get str_of Score rt (VStr key) tool_registry
  = (Ok (Some tool), tool_registry).
Proof.
  intros Hout Hk Hn. unfold store_get, key_text, registry_get.
  cbn [rbind]. rewrite AdapterFacts.write_ok by exact Hout.
  cbn [rbind]. rewrite Hk.
  unfold has_name in Hn. apply bool_decide_eq_true in Hn as [n Hn].
  rewrite Hn.
  destruct (truth Score rt tool);
    rewrite AdapterFacts.write_ok by exact Hout; reflexivity.
Qed.

(** X22.  When the backend answers with documents of the index that
    was built from the registry, scores can be formatted, and the
    interpreter and the console raise nothing, search returns one result
    for each hit and every result leads to a tool: the lookup of its key
    in the registry finds one. *)
Theorem search_results_resolve args kwargs query hits docs :
  documents_to_index tool_registry = Ok docs ->
  scores_format Score rt ->
  quiet Score rt args kwargs ->
  fst (normalize str_of args kwargs) = Some query ->
  query <> "" ->
  backend query (snd (normalize str_of args kwargs)) = Ok hits ->
  (forall hit, hit ∈ hits -> exists content, (content, fst hit) ∈ docs) ->
  exists rs,
    search str_of Score backend rt tool_registry args kwargs = Ok rs
    /\ length rs = length hits
    /\ forall r, r ∈ rs ->
         exists tool,
           store_get str_of Score rt (VStr (key r)) tool_registry
           = (Ok (Some tool), tool_registry).
Proof.
  intros Hdocs Hfmt Hquiet Hq Hne Hb Hhits.
  apply documents_to_index_ok in Hdocs as (Hvalid & _ & Hin).
  pose proof (valid_registry_named _ Hvalid) as Hnamed.
  assert (Hall : forall hit, hit ∈ hits ->
            exists id tool, metadata (fst hit) !! "tool_id" = Some id
                            /\ tool_registry !! id = Some tool).
  { intros hit Hhit. destruct (Hhits _ Hhit) as [content Hc].
    apply Hin in Hc as (id & tool & n & d & Hid & _ & _ & _ & ->).
    exists id, tool. split; [apply lookup_singleton_eq|exact Hid]. }
  exists ((fun hit => MkSearchResult
                        (default "" (metadata (fst hit) !! "tool_id"))
                        (snd hit)) <$> hits).
  split; [|split].
  - rewrite (AdapterFacts.search_quiet str_of Score backend rt tool_registry
               _ _ Hquiet).
    rewrite Hq. destruct query as [|c query]; [congruence|].
    cbn [truthy negb]. rewrite Hb. cbn [rbind]. rewrite wrap_results_shape.
    replace (forallb _ hits) with true.
    + cbn [rbind].
      destruct (_ <$> hits) as [|r rs] eqn:E; [reflexivity|].
      now rewrite listing_succeeds by (exact Hnamed || exact Hfmt
                                       || apply Hquiet).
    + symmetry. apply forallb_forall. intros hit Hhit.
      apply list_elem_of_In in Hhit.
      destruct (Hall _ Hhit) as (id & _ & -> & _).
      apply bool_decide_eq_true_2. eauto.
  - apply length_fmap.
  - intros r Hr. apply list_elem_of_fmap in Hr as (hit & -> & Hhit).
    destruct (Hall _ Hhit) as (id & tool & Hid & Htool).
    exists tool. cbn [key]. rewrite Hid. cbn [default].
    change (Datatypes.id id) with id.
    apply store_get_named; [apply Hquiet|exact Htool|].
    exact (Hnamed _ _ Htool).
Qed.

(** *** Batches *)

Lemma attribute_raises op attr e :
  attribute op attr = Raise e -> exn_cls e = AttributeError.
Proof.
  unfold attribute. destruct (getattr op attr); [discriminate|].
  now intros [= <-].
Qed.

Lemma store_get_raises k e :
  silent Score rt ->
  fst (store_get str_of Score rt k tool_registry) = Raise e ->
  exn_cls e = AttributeError \/ exn_cls e = TypeError.
Proof.
  intros (_ & Hstr & Hout). unfold store_get, key_text. cbn [fst].
  destruct k as [|b|z|s|items|items|attrs]; rewrite ?Hstr;
    unfold registry_get; cbn [hashable];
    repeat first
      [ discriminate
      | progress cbn [rbind]
      | rewrite AdapterFacts.write_ok by exact Hout
      | match goal with
        | |- context [match ?x with Some _ => _ | None => _ end] =>
            destruct x
        | |- context [if ?c then _ else _] => destruct c
        end ];
    intros [= <-]; auto.
Qed.

Lemma batch_step_raises op e :
  silent Score rt ->
  batch_step str_of Score backend rt tool_registry op = Raise e ->
  exn_cls e = AttributeError \/ exn_cls e = TypeError.
Proof.
  intros Hs. unfold batch_step.
  destruct (getattr op "operation") as [[| | |operation| | |]|];
    try discriminate.
  destruct (String.eqb operation "search").
  - destruct (attribute op "query") as [q|e1] eqn:Eq; cbn [rbind].
    + destruct (attribute op "k") as [k|e2] eqn:Ek; cbn [rbind].
      * destruct (AdapterFacts.search_returns_when_quiet str_of Score
                    backend rt tool_registry [q; k] ∅ (silent_quiet _ _ Hs))
          as [rs ->].
        discriminate.
      * intros [= <-]. left. eapply attribute_raises, Ek.
    + intros [= <-]. left. eapply attribute_raises, Eq.
  - destruct (String.eqb operation "get"); [|discriminate].
    destruct (attribute op "key") as [k|e1] eqn:Ek; cbn [rbind].
    + destruct (fst (store_get str_of Score rt k tool_registry))
        as [tool|e2] eqn:Eg; cbn [rbind]; [discriminate|].
      intros [= <-]. eapply store_get_raises; [exact Hs|exact Eg].
    + intros [= <-]. left. eapply attribute_raises, Ek.
Qed.


(** *** Put, get and delete *)

(** X24.  On a console that accepts every message, a tool that is put
    under a key is what a lookup of the key then returns, unless the
    tool is true and has no name, in which case the lookup raises an
    AttributeError; after a delete the lookup finds nothing, whether or
    not the key was there. *)
Theorem put_get_delete key value :
  accepts_all (rt_stdout_fault Score rt) ->
  (do! store_put key value in store_get str_of Score rt (VStr key))
    tool_registry
  = (if truth Score rt value && negb (has_name value)
     then Raise no_name else Ok (Some value),
     <[key := value]> tool_registry)
  /\ (do! store_delete key in store_get str_of Score rt (VStr key))
       tool_registry
     = (Ok None, delete key tool_registry).
Proof.
  intros Hout. split.
  - unfold bind, store_put, store_get, key_text, registry_get.
    cbn [rbind]. rewrite AdapterFacts.write_ok by exact Hout. cbn [rbind].
    rewrite lookup_insert_eq. unfold has_name.
    destruct (truth Score rt value); cbn [andb].
    + destruct (value !! "name") as [n|] eqn:Hn.
      * rewrite bool_decide_eq_true_2 by eauto.
        now rewrite AdapterFacts.write_ok by exact Hout.
      * rewrite bool_decide_eq_false_2 by (intros [? ?]; discriminate).
        reflexivity.
    + now rewrite AdapterFacts.write_ok by exact Hout.
  - unfold bind, store_delete, store_get, key_text, registry_get.
    destruct (tool_registry !! key) as [tool|] eqn:E.
    + rewrite bool_decide_eq_true_2 by eauto. cbn [rbind].
      rewrite lookup_delete_eq.
      now rewrite !AdapterFacts.write_ok by exact Hout.
    + rewrite bool_decide_eq_false_2 by (intros [? ?]; discriminate).
      cbn [rbind]. rewrite E, delete_id by exact E.
      now rewrite !AdapterFacts.write_ok by exact Hout.
Qed.

End SearchFacts.

(** *** Examples and witnesses *)

Lemma plain_runtime_silent : silent Z Samples.plain_runtime.
Proof.
  split; [intros args kwargs; eexists; reflexivity|].
  split; intros x; reflexivity.
Qed.

Lemma plain_scores_format : scores_format Z Samples.plain_runtime.
Proof. intros s. eexists. reflexivity. Qed.

(** A tool without a name empties the search, through the listing. *)
Example nameless_tool_empties_search :
  search str_of_atom Z Samples.backend_up Samples.plain_runtime
    {[ "id-1" := {[ "description" := "no name" ]} ]}
    [VStr "list files"] ∅ = Ok []
  /\ bare_search str_of_atom Z Samples.backend_up [VStr "list files"] ∅
     = Ok [MkSearchResult "id-1" 1%Z].
Proof. split; vm_compute; reflexivity. Qed.

(** A value that is false is returned by the lookup although it has no
    name. *)
Example false_value_is_returned :
  fst (store_get str_of_atom Z
         (MkRuntime Z (fun _ => None) (fun _ _ => Ok "") (fun s => s)
            (fun z => Ok (pretty z)) (fun _ => false) (fun _ => None))
         (VStr "k") {[ "k" := ∅ ]})
  = Ok (Some ∅).
Proof. vm_compute. reflexivity. Qed.

Lemma search_all_or_nothing_witness :
  search str_of_atom Z Samples.backend_up Samples.plain_runtime
    Samples.one_tool [VStr "list files"] ∅
  = Ok [MkSearchResult "id-1" 1%Z]
  /\ ([MkSearchResult "id-1" 1%Z] = []
      \/ (Forall (fun hit => is_Some (metadata (fst hit) !! "tool_id"))
            [(MkDocument {[ "tool_id" := "id-1" ]}, 1%Z)]
          /\ [MkSearchResult "id-1" 1%Z]
             = (fun hit => MkSearchResult
                             (default "" (metadata (fst hit) !! "tool_id"))
                             (snd hit))
               <$> [(MkDocument {[ "tool_id" := "id-1" ]}, 1%Z)])).
Proof.
  assert (Hs : search str_of_atom Z Samples.backend_up Samples.plain_runtime
                 Samples.one_tool [VStr "list files"] ∅
               = Ok [MkSearchResult "id-1" 1%Z])
    by (vm_compute; reflexivity).
  split; [exact Hs|].
  exact (search_all_or_nothing str_of_atom Z Samples.backend_up
           Samples.plain_runtime Samples.one_tool
           [VStr "list files"] ∅ "list files"
           [(MkDocument {[ "tool_id" := "id-1" ]}, 1%Z)] _
           eq_refl eq_refl Hs).
Defined.

Lemma listing_keeps_results_witness :
  search str_of_atom Z Samples.backend_up Samples.plain_runtime
    Samples.one_tool [VStr "list files"] ∅
  = bare_search str_of_atom Z Samples.backend_up [VStr "list files"] ∅.
Proof.
  apply (listing_keeps_results str_of_atom Z Samples.backend_up
           Samples.plain_runtime Samples.one_tool).
  - apply built_registry_named.
  - apply plain_scores_format.
  - apply AdapterFacts.plain_runtime_quiet.
Defined.

Lemma listing_only_loses_results_witness :
  [MkSearchResult "id-1" 1%Z] = []
  \/ bare_search str_of_atom Z Samples.backend_up [VStr "list files"] ∅
     = Ok [MkSearchResult "id-1" 1%Z].
Proof.
  apply (listing_only_loses_results str_of_atom Z Samples.backend_up
           Samples.plain_runtime Samples.one_tool [VStr "list files"] ∅).
  vm_compute. reflexivity.
Defined.

Lemma search_results_resolve_witness :
  exists rs,
    search str_of_atom Z Samples.backend_up Samples.plain_runtime
      Samples.one_tool [VStr "list files"] ∅ = Ok rs
    /\ length rs = 1%nat
    /\ forall r, r ∈ rs ->
         exists tool,
           store_get str_of_atom Z Samples.plain_runtime (VStr (key r))
             Samples.one_tool
           = (Ok (Some tool), Samples.one_tool).
Proof.
  apply (search_results_resolve str_of_atom Z Samples.backend_up
           Samples.plain_runtime Samples.one_tool [VStr "list files"] ∅
           "list files" [(MkDocument {[ "tool_id" := "id-1" ]}, 1%Z)]
           [("zz: " ++ Scanner.describe "zz" "usage: zz [file]",
             MkDocument {[ "tool_id" := "id-1" ]})]).
  - reflexivity.
  - apply plain_scores_format.
  - apply AdapterFacts.plain_runtime_quiet.
  - reflexivity.
  - discriminate.
  - reflexivity.
  - intros hit Hhit. apply list_elem_of_singleton in Hhit as ->.
    eexists. apply list_elem_of_singleton. reflexivity.
Defined.


Lemma put_get_delete_witness :
  (do! store_put "k" ∅ in
   store_get str_of_atom Z Samples.plain_runtime (VStr "k")) ∅
  = (Raise no_name, {[ "k" := ∅ ]}).
Proof.
  destruct (put_get_delete str_of_atom Z Samples.plain_runtime ∅ "k" ∅)
    as [Hput _]; [intros text; reflexivity|].
  rewrite Hput. reflexivity.
Defined.

End StoreFacts.

(** ** The registry cache: what load returns and what save reports *)

Module CacheMore.
Import PyText Cache.

Section Facts.
Variable Blob : Type.
Variable blob_size : Blob -> Z.
Variable pickle_load : Blob -> result unpickled.
Variable pickle_dump : gmap string (gmap string string) -> Blob * option exn.
Variable refused : os_op -> bool.
Variable stdout_fault : string -> option exn.

Local Abbreviation load :=
  (load_tool_registry_from_cache Blob blob_size pickle_load refused
     stdout_fault).
Local Abbreviation save :=
  (save_tool_registry_to_cache Blob pickle_dump refused stdout_fault).
Local Abbreviation CACHE := TOOL_REGISTRY_CACHE_PATH.

Lemma load_some_checked (fs fs' : gmap string Blob) d :
  load fs = (Ok (Some d), fs') ->
  fs' = fs
  /\ size d <> 0%nat
  /\ all_tools_valid d = true
  /\ exists b, fs !! CACHE = Some b
               /\ blob_size b <> 0%Z
               /\ pickle_load b = Ok (UDict d).
Proof.
  unfold load_tool_registry_from_cache, validate, try_pass, try_except,
    bind, path_exists, getsize, read_pickle, remove, print, write, ret,
    raise.
  destruct (fs !! CACHE) as [b|] eqn:Hb.
  2:{ rewrite bool_decide_eq_false_2 by (intros [? ?]; discriminate).
      cbn [negb]. discriminate. }
  rewrite bool_decide_eq_true_2 by eauto. cbn [negb].
  repeat first
    [ discriminate
    | progress cbv beta iota
    | progress cbn [negb orb andb caught_by existsb subclass class_eqb exn_cls]
    | rewrite Hb
    | match goal with
      | |- context [stdout_fault ?t] => destruct (stdout_fault t) eqn:?
      | |- context [if ?c then _ else _] => destruct c eqn:?
      | |- context [match pickle_load b with _ => _ end] =>
          destruct (pickle_load b) as [[?|]|?] eqn:?
      end ].
  all: intros [= <- <-].
  all: repeat match goal with
              | H : (_ =? _)%Z = false |- _ => apply Z.eqb_neq in H
              | H : (_ =? _)%nat = false |- _ => apply Nat.eqb_neq in H
              | H : negb _ = false |- _ => apply negb_false_iff in H
              end.
  all: eauto 10.
Qed.

(** X25.  A registry that load() returns has been checked and the file
    is as it was: the registry has an entry, every tool in it has a name
    and a description, it is what unpickling the cache file gave, and the
    files are unchanged. *)
Theorem load_returns_checked_registry (fs fs' : gmap string Blob) d :
  load fs = (Ok (Some d), fs') ->
  fs' = fs
  /\ size d <> 0%nat
  /\ (forall id tool,
        d !! id = Some tool ->
        is_Some (tool !! "name") /\ is_Some (tool !! "description"))
  /\ exists b, fs !! CACHE = Some b /\ pickle_load b = Ok (UDict d).
Proof.
  intros H. apply load_some_checked in H as (-> & Hs & Hv & b & Hb & _ & Hl).
  split; [reflexivity|]. split; [exact Hs|]. split; [|eauto].
  intros id tool Hid. unfold all_tools_valid in Hv.
  rewrite forallb_forall in Hv. specialize (Hv (id, tool)).
  cbn [snd] in Hv. unfold has_tool_fields in Hv.
  rewrite andb_true_iff, !bool_decide_eq_true in Hv. apply Hv.
  now apply list_elem_of_In, elem_of_map_to_list.
Qed.

Ltac step_save :=
  repeat first
    [ progress cbv beta iota
    | progress cbn [negb orb andb caught_by existsb subclass class_eqb
                      exn_cls os_error missing fst snd]
    | match goal with
      | |- context [stdout_fault ?t] => destruct (stdout_fault t) eqn:?
      | |- context [if ?c then _ else _] => destruct c eqn:?
      | |- context [match ?m !! ?p with _ => _ end] =>
          destruct (m !! p) eqn:?
      end ].

(** An exception leaves save() only when one of its messages cannot be
    written. *)
Lemma save_raises_only_print reg (fs : gmap string Blob) e :
  fst (save reg fs) = Raise e -> exists text, stdout_fault text = Some e.
Proof.
  unfold save_tool_registry_to_cache, try_pass, try_except, bind,
    path_exists, rename, remove, write_pickle, print, write, ret, raise.
  destruct (pickle_dump reg) as [b [e0|]];
    destruct (refused (OpOpenWrite CACHE));
    step_save; try discriminate; intros [= <-]; eauto.
Qed.

Lemma save_reports reg (fs : gmap string Blob) :
  accepts_all stdout_fault ->
  exists ok fs',
    save reg fs = (Ok ok, fs')
    /\ (ok = true
        <-> refused (OpOpenWrite CACHE) = false
            /\ snd (pickle_dump reg) = None).
Proof.
  intros Hq.
  unfold save_tool_registry_to_cache, try_pass, try_except, bind,
    path_exists, rename, remove, write_pickle, print, write, ret, raise.
  destruct (pickle_dump reg) as [b [e|]]; cbn [snd];
    destruct (refused (OpOpenWrite CACHE));
    repeat first
      [ progress cbv beta iota
      | progress cbn [negb orb andb caught_by existsb subclass class_eqb
                        exn_cls os_error missing]
      | rewrite Hq
      | match goal with
        | |- context [if ?c then _ else _] => destruct c eqn:?
        | |- context [match ?m !! ?p with _ => _ end] =>
            destruct (m !! p) eqn:?
        end ];
    do 2 eexists; (split; [reflexivity|]);
    split; try discriminate; try (intros [? ?]; discriminate); auto.
Qed.

(** X26.  An exception leaves save() only when one of its messages
    cannot be written.  On a console on which every message can be
    written save() never raises, and what it returns tells whether the
    write went through: true exactly when the cache file could be opened
    for writing and the dump completed. *)
Theorem save_reports_the_write reg (fs : gmap string Blob) :
  (forall e, fst (save reg fs) = Raise e ->
             exists text, stdout_fault text = Some e)
  /\ (accepts_all stdout_fault ->
      exists ok fs',
        save reg fs = (Ok ok, fs')
        /\ (ok = true
            <-> refused (OpOpenWrite CACHE) = false
                /\ snd (pickle_dump reg) = None)).
Proof.
  split; [apply save_raises_only_print|apply save_reports].
Qed.

End Facts.

Lemma load_returns_checked_registry_witness :
  size Samples.one_tool <> 0%nat
  /\ exists b,
       ({[ TOOL_REGISTRY_CACHE_PATH := Samples.Pickled Samples.one_tool ]}
          : gmap string Samples.blob) !! TOOL_REGISTRY_CACHE_PATH = Some b
       /\ Samples.pickle_load b = Ok (UDict Samples.one_tool).
Proof.
  assert (Hvalid : all_tools_valid Samples.one_tool = true).
  { unfold Samples.one_tool.
    destruct (CacheFacts.build_registry_tools ["id-1"] [Samples.terse_tool])
      as [tools ->].
    apply CacheFacts.built_tools_valid. }
  assert (Hsize : size Samples.one_tool <> 0%nat).
  { apply map_size_non_empty_iff. intros Heq.
    apply (f_equal (fun m => m !! "id-1")) in Heq.
    unfold Samples.one_tool, build_registry in Heq.
    cbn [zip fold_left zip_with fst snd] in Heq.
    rewrite lookup_insert_eq, lookup_empty in Heq. discriminate Heq. }
  assert (Hsz : Samples.blob_size (Samples.Pickled Samples.one_tool) <> 0%Z)
    by discriminate.
  destruct (load_returns_checked_registry Samples.blob Samples.blob_size
              Samples.pickle_load Samples.cooperative (fun _ => None) _ _ _
              (CacheFacts.load_of_valid Samples.blob Samples.blob_size
                 Samples.pickle_load Samples.cooperative (fun _ => None)
                 {[ TOOL_REGISTRY_CACHE_PATH
                      := Samples.Pickled Samples.one_tool ]}
                 _ _ CacheFacts.accepting_console
                 (lookup_singleton_eq _ _) eq_refl eq_refl Hsz eq_refl
                 Hsize Hvalid))
    as (_ & Hs & _ & Hb).
  split; [exact Hs|exact Hb].
Defined.

Lemma save_reports_the_write_witness :
  exists ok fs',
    save_tool_registry_to_cache Samples.blob Samples.pickle_dump
      Samples.cooperative (fun _ => None) Samples.one_tool ∅ = (Ok ok, fs')
    /\ (ok = true
        <-> Samples.cooperative (OpOpenWrite TOOL_REGISTRY_CACHE_PATH) = false
            /\ snd (Samples.pickle_dump Samples.one_tool) = None).
Proof.
  exact (proj2 (save_reports_the_write Samples.blob Samples.pickle_dump
                  Samples.cooperative (fun _ => None) Samples.one_tool ∅)
           CacheFacts.accepting_console).
Defined.

(** The write went through, but its message cannot be written: save()
    reports failure where the handler's message can be written. *)
Example save_reports_failure_after_write :
  save_tool_registry_to_cache Samples.blob Samples.pickle_dump
    Samples.cooperative
    (fun text => if String.prefix "✅" text
                 then Some (Exn UnicodeEncodeError "cannot encode")
                 else None)
    Samples.one_tool ∅
  = (Ok false,
     {[ TOOL_REGISTRY_CACHE_PATH := Samples.Pickled Samples.one_tool ]}).
Proof. vm_compute. reflexivity. Qed.

End CacheMore.

(** ** The direct command path *)

Module DirectFacts.
Import PyText Gateway Direct.

Lemma lstrip_cases s :
  (blank s = true /\ lstrip s = "")
  \/ (blank s = false
      /\ exists c r, lstrip s = String c r /\ isspace c = false).
Proof.
  induction s as [|c s IH]; [now left|].
  cbn [blank lstrip]. destruct (isspace c) eqn:Hc; cbn [andb].
  - exact IH.
  - right. split; [reflexivity|]. eauto.
Qed.

Lemma split_cons_nonspace c r :
  isspace c = false -> split (String c r) <> [].
Proof.
  intros Hc. cbn [split]. rewrite Hc.
  destruct r as [|c' r']; [discriminate|].
  destruct (isspace c'); [discriminate|].
  now destruct (split (String c' r')).
Qed.

Lemma split_strip_nil s : split (strip s) = [] <-> blank s = true.
Proof.
  unfold strip.
  destruct (lstrip_cases s) as [[Hb ->]|[Hb (c & r & -> & Hc)]].
  - now split.
  - rewrite PyTextFacts.rstrip_cons_nonspace by exact Hc. split.
    + intros H. now apply split_cons_nonspace in H.
    + congruence.
Qed.

Section Facts.
Variable subprocess_run : list string -> list string -> launch.

Local Abbreviation direct := (safe_direct_execute subprocess_run).

(** The [try] block with its [except] clauses: a text, and the host as
    the child process left it, if one was started. *)
Lemma direct_run_returns parts command_name h :
  exists text,
    try_except
      (let! result := Gateway.run subprocess_run parts in
       ret (direct_output result))
      (fun e =>
         if caught_by [FileNotFoundError] e
         then Some (ret ("Error: Command '" ++ command_name ++ "' not found."))
         else Some (ret ("An error occurred: " ++ exn_str e))) h
    = (Ok text,
       match subprocess_run parts (stdin h) with
       | NotStarted _ => h
       | Started consumed _ =>
           MkHost (drop consumed (stdin h)) (stdin_fault h) (stdout_fault h)
             (spawned h ++ [parts])
       end).
Proof.
  unfold try_except, bind, Gateway.run, ret.
  destruct (subprocess_run parts (stdin h)) as [e|consumed [r|e]];
    [| eauto |]; destruct (caught_by [FileNotFoundError] e); eauto.
Qed.

(** X27.  The direct path raises in one case only: a command line that
    is not empty and holds nothing but white space makes it raise an
    IndexError; every other command line gives a text. *)
Theorem direct_raises_on_blank_only command_string h :
  match fst (direct command_string h) with
  | Raise e =>
      e = index_error /\ command_string <> "" /\ blank command_string = true
  | Ok _ => command_string = "" \/ blank command_string = false
  end.
Proof.
  unfold safe_direct_execute.
  destruct command_string as [|c s]; [now left|]. cbn [truthy negb].
  destruct (split (strip (String c s))) as [|first rest] eqn:Hparts.
  - apply split_strip_nil in Hparts. cbn [raise fst]. unfold raise.
    cbn [fst]. split; [reflexivity|]. split; [discriminate|exact Hparts].
  - assert (Hb : blank (String c s) = false).
    { destruct (blank (String c s)) eqn:E; [|reflexivity].
      apply split_strip_nil in E. congruence. }
    destruct (String.eqb (lower first) "sudo"); [now right|].
    destruct (direct_run_returns (first :: rest) (lower first) h)
      as [text ->].
    now right.
Qed.

(** X28.  The direct path does not use the console itself and starts at
    most one process: none for an empty or blank command line and none
    when the first word is "sudo" in any letter case; otherwise the one
    that the host can start, with the words of the command line as they
    were typed.  The host is then as that child process left it. *)
Theorem direct_spawns_the_words command_string h :
  snd (direct command_string h)
  = match split (strip command_string) with
    | first :: _ =>
        if String.eqb (lower first) "sudo" then h
        else
          match subprocess_run (split (strip command_string)) (stdin h) with
          | NotStarted _ => h
          | Started consumed _ =>
              MkHost (drop consumed (stdin h)) (stdin_fault h)
                (stdout_fault h)
                (spawned h ++ [split (strip command_string)])
          end
    | [] => h
    end.
Proof.
  unfold safe_direct_execute.
  destruct command_string as [|c s]; [reflexivity|].
  cbn [truthy negb].
  destruct (split (strip (String c s))) as [|first rest]; [reflexivity|].
  destruct (String.eqb (lower first) "sudo"); [reflexivity|].
  destruct (direct_run_returns (first :: rest) (lower first) h)
    as [text ->].
  reflexivity.
Qed.

End Facts.

Example direct_runs_sudo_like_names :
  spawned (snd (safe_direct_execute Samples.always_hangs
                  "  Sudoedit /etc/hosts" (Samples.console [])))
  = [["Sudoedit"; "/etc/hosts"]]
  /\ spawned (snd (safe_direct_execute Samples.always_hangs
                     " SUDO ls" (Samples.console [])))
     = [].
Proof. split; reflexivity. Qed.

End DirectFacts.

(** ** The names for autocompletion *)

Module AutocompleteFacts.
Import PyText Cache Direct.

Section Facts.
Variable Blob : Type.
Variable blob_size : Blob -> Z.
Variable pickle_load : Blob -> result unpickled.
Variable refused : os_op -> bool.
Variable stdout_fault : string -> option exn.
Variable scan : result (list Scanner.Tool).

Local Abbreviation load :=
  (load_tool_registry_from_cache Blob blob_size pickle_load refused
     stdout_fault).
Local Abbreviation CACHE := TOOL_REGISTRY_CACHE_PATH.
Local Abbreviation autocomplete :=
  (get_autocomplete_list Blob blob_size pickle_load refused stdout_fault
     scan).

Lemma names_of_valid items :
  forallb (fun it => has_tool_fields (snd it)) items = true ->
  exists names,
    names_of items = Ok names
    /\ length names = length items
    /\ forall n, n ∈ names
                 <-> exists id tool,
                       (id, tool) ∈ items /\ tool !! "name" = Some n.
Proof.
  induction items as [|[id tool] items IH]; intros Hv.
  - exists []. split; [reflexivity|]. split; [reflexivity|].
    intros n. split.
    + intros H. now apply elem_of_nil in H.
    + intros (? & ? & H & _). now apply elem_of_nil in H.
  - cbn [forallb snd] in Hv. apply andb_true_iff in Hv as [Hf Hv].
    destruct (IH Hv) as (names & Hnames & Hlen & Hin).
    unfold has_tool_fields in Hf.
    apply andb_true_iff in Hf as [Hn _].
    apply bool_decide_eq_true in Hn as [n Hn].
    exists (n :: names). split; [|split].
    + cbn [names_of]. rewrite Hn, Hnames. reflexivity.
    + cbn [length]. now rewrite Hlen.
    + intros n'. rewrite elem_of_cons, Hin. split.
      * intros [->|(id' & tool' & Hi & Hn')].
        -- exists id, tool. split; [left|exact Hn].
        -- exists id', tool'. split; [now right|exact Hn'].
      * intros (id' & tool' & Hi & Hn').
        apply elem_of_cons in Hi as [[= -> ->]|Hi].
        -- left. congruence.
        -- right. eauto.
Qed.

Lemma scanned_names_raises (fs : gmap string Blob) e :
  fst (scanned_names Blob stdout_fault scan fs) = Raise e ->
  exists text, stdout_fault text = Some e.
Proof.
  unfold scanned_names, bind, print, write, ret.
  match goal with
  | |- context [stdout_fault ?t] => destruct (stdout_fault t) eqn:E
  end; [intros [= <-]; eauto|].
  destruct scan as [tools|e0]; [discriminate|].
  match goal with
  | |- context [stdout_fault ?t] => destruct (stdout_fault t) eqn:E'
  end; [intros [= <-]; eauto|discriminate].
Qed.

(** X29.  An exception leaves the function that lists the names for
    autocompletion only when a message cannot be written.  On a console
    on which every message can be written it never fails: with a cache
    that loads it gives the names of the cached tools, one for each
    entry; otherwise the names of the tools of a fresh scan, or the four
    built-in words when the scan raises. *)
Theorem autocomplete_names (fs : gmap string Blob) :
  (forall e, fst (autocomplete fs) = Raise e ->
             exists text, stdout_fault text = Some e)
  /\ (accepts_all stdout_fault ->
      match fst (load fs) with
      | Ok (Some d) =>
          exists names,
            fst (autocomplete fs) = Ok names
            /\ length names = size d
            /\ forall n, n ∈ names
                         <-> exists id tool,
                               d !! id = Some tool /\ tool !! "name" = Some n
      | _ =>
          fst (autocomplete fs)
          = Ok (match scan with
                | Ok tools => Scanner.name <$> tools
                | Raise _ => ["ai"; "exit"; "quit"; "clear"]
                end)
      end).
Proof.
  split.
  - intros e. unfold get_autocomplete_list, bind.
    destruct (load fs) as [[[d|]|e0] fs'] eqn:Hload.
    + destruct (names_of (map_to_list d)) as [names|e1]; [discriminate|].
      unfold print, write.
      match goal with
      | |- context [stdout_fault ?t] => destruct (stdout_fault t) eqn:E
      end; [cbn [fst]; intros [= <-]; eauto|].
      apply scanned_names_raises.
    + apply scanned_names_raises.
    + cbn [fst]. intros [= <-].
      apply (CacheFacts.load_raises_only_print Blob blob_size pickle_load
               refused stdout_fault fs). now rewrite Hload.
  - intros Hq. unfold get_autocomplete_list, bind.
    destruct (CacheFacts.load_never_raises Blob blob_size pickle_load refused
                stdout_fault fs Hq) as (r & fs' & Hload).
    rewrite Hload. cbn [fst].
    assert (Hscan : fst (scanned_names Blob stdout_fault scan fs')
                    = Ok (match scan with
                          | Ok tools => Scanner.name <$> tools
                          | Raise _ => ["ai"; "exit"; "quit"; "clear"]
                          end)).
    { unfold scanned_names, bind, print, write, ret. rewrite Hq.
      destruct scan as [tools|e0]; [reflexivity|]. now rewrite Hq. }
    destruct r as [d|]; [|exact Hscan].
    apply CacheMore.load_some_checked in Hload as (_ & _ & Hv & _).
    destruct (names_of_valid _ Hv) as (names & Hnames & Hlen & Hin).
    rewrite Hnames. exists names. split; [reflexivity|]. split.
    + now rewrite Hlen, length_map_to_list.
    + intros n. rewrite Hin.
      split; intros (id & tool & Hi & Hn); exists id, tool;
        (split; [|exact Hn]); now apply elem_of_map_to_list.
Qed.

End Facts.

Lemma autocomplete_names_witness :
  fst (get_autocomplete_list Samples.blob Samples.blob_size
         Samples.pickle_load Samples.cooperative (fun _ => None)
         (Raise (Exn RuntimeError "no PATH"))
         {[ TOOL_REGISTRY_CACHE_PATH := Samples.Foreign ]})
  = Ok ["ai"; "exit"; "quit"; "clear"].
Proof.
  pose proof (proj2 (autocomplete_names Samples.blob Samples.blob_size
                       Samples.pickle_load Samples.cooperative
                       (fun _ => None) (Raise (Exn RuntimeError "no PATH"))
                       {[ TOOL_REGISTRY_CACHE_PATH := Samples.Foreign ]})
                CacheFacts.accepting_console) as H.
  replace (fst (load_tool_registry_from_cache Samples.blob Samples.blob_size
                  Samples.pickle_load Samples.cooperative (fun _ => None)
                  {[ TOOL_REGISTRY_CACHE_PATH := Samples.Foreign ]}))
    with (@Ok (option (gmap string (gmap string string))) None) in H
    by (vm_compute; reflexivity).
  exact H.
Defined.

Example autocomplete_falls_back :
  fst (get_autocomplete_list Samples.blob Samples.blob_size
         Samples.pickle_load Samples.cooperative (fun _ => None)
         (Ok [MoreSamples.bare_tool])
         {[ TOOL_REGISTRY_CACHE_PATH := Samples.Foreign ]})
  = Ok ["ls"].
Proof. reflexivity. Qed.

End AutocompleteFacts.
